(** * Relevance ranking and pinpoint extraction (main.py)

    A shallow embedding of the three-tier pipeline of [main.py]: query
    understanding, multi-factor scoring of sections, ranking, and
    sentence-level extraction, with the properties of the specification
    stated and proved (or refuted) over it.

    Modelling conventions.
    - Python [float] and numpy [float64] values are binary64 numbers
      ([PrimFloat.float]); every arithmetic operation of the source is the
      corresponding IEEE operation, so the constants [0.4], [0.05], ... are
      the same doubles Python reads.
    - Python [str] is [string], taken to hold ASCII text: [lower], [len]
      and the character classes of the regular expressions act on its
      characters, which is what Python does on such text.
    - [sorted] and [list.sort] are the list sort of CPython as it runs on
      fewer than 64 elements (reversal, the run at the front, binary
      insertion); with keys that are not NaN this is the result of the
      stable sort for every length.
    - A section is a Python dict: a key that may be absent is an [option]
      field, and subscripting an absent key raises [KeyError].
    - Sections are mutable dicts shared between the caller's list and the
      ranked list: they live in a store and lists hold references.
    - The sentence embedding model, numpy's [dot] and [norm] on its
      vectors, and the nltk tokenizers and taggers are external: they are
      parameters, and a call that raises answers [None].  The cosine they
      yield enters the score as a binary64 number.
    - [list(set(xs))] lists a set in an order the interpreter chooses: the
      order is a parameter too, and nothing proved depends on it. *)

From Stdlib Require Import String Ascii.
From stdpp Require Import base strings list functions sorting.
From Stdlib Require Import ZArith Floats Lia.

Set Warnings "-inexact-float".

Local Open Scope string_scope.
Local Open Scope list_scope.

(** ** Python values *)

Module Py.

(** [s.lower()] on ASCII text. *)
Definition lower_ascii (c : ascii) : ascii :=
  let n := nat_of_ascii c in
  if ((65 <=? n) && (n <=? 90))%nat then ascii_of_nat (n + 32) else c.

Fixpoint lower (s : string) : string :=
  match s with
  | EmptyString => EmptyString
  | String c s' => String (lower_ascii c) (lower s')
  end.

(** [needle in hay] for two strings. *)
Fixpoint contains (needle hay : string) : bool :=
  String.prefix needle hay
  || match hay with
     | EmptyString => false
     | String _ hay' => contains needle hay'
     end.

(** [any(k in hay for k in keywords)]. *)
Definition any_in (keywords : list string) (hay : string) : bool :=
  existsb (fun k => contains k hay) keywords.

(** [sep.join(parts)]. *)
Definition join (sep : string) (parts : list string) : string :=
  String.concat sep parts.

(** The truth value of a string: [if s:] holds for the non-empty ones. *)
Definition truthy (s : string) : bool :=
  match s with EmptyString => false | String _ _ => true end.

(** [float(n)] for a list length or a counter; exact below 2^53. *)
Definition float_of_nat (n : nat) : float :=
  PrimFloat.of_uint63 (Uint63.of_Z (Z.of_nat n)).

(** Exceptions that the modelled code can raise by itself. *)
Inductive exn : Set :=
| KeyError (key : string).

Inductive result (A : Type) : Type :=
| Ok (a : A)
| Raise (e : exn).
Arguments Ok {A} a.
Arguments Raise {A} e.

Definition bind {A B} (r : result A) (k : A -> result B) : result B :=
  match r with
  | Ok a => k a
  | Raise e => Raise e
  end.

(** [d[key]] on a dict whose entry for [key] is [field]. *)
Definition getitem {A} (key : string) (field : option A) : result A :=
  match field with
  | Some a => Ok a
  | None => Raise (KeyError key)
  end.

(** [d.get(key, dflt)]. *)
Definition get {A} (field : option A) (dflt : A) : A :=
  match field with
  | Some a => a
  | None => dflt
  end.

End Py.

#[global] Instance result_ret : MRet Py.result := @Py.Ok.
#[global] Instance result_bind : MBind Py.result :=
  fun A B k r => Py.bind r k.

(** ** Data model *)

Inductive GroupSize : Set := Small | Large.
Inductive AgeGroup : Set := Young | Adult.
Inductive Urgency : Set := UrgencyLow | UrgencyNormal | UrgencyHigh.
Inductive Complexity : Set := ComplexityLow | ComplexityMedium | ComplexityHigh.

(** [context] of [analyze_query_structure]; [None] is Python's [None]. *)
Record Context : Set := mkContext {
  group_size : option GroupSize;
  age_group : option AgeGroup;
  urgency : Urgency;
  complexity : Complexity;
  domain : string
}.

Record Constraints : Set := mkConstraints {
  positive : list string;
  negative : list string
}.

(** The dict returned by [analyze_query_structure].  [persona] is read with
    [.get('persona', '')], hence an optional key. *)
Record QueryAnalysis : Set := mkQuery {
  core_entities : list string;
  constraints : Constraints;
  context : Context;
  persona : option string
}.

(** A section dict.  Every key can be absent: the scorer is also called on
    dicts that carry only [section_title], [text] and [document]. *)
Record SectionDict : Set := mkSection {
  document : option string;
  page_number : option Z;
  section_title : option string;
  text : option string;
  similarity_score : option float;
  importance_rank : option Z
}.

(** An entry of [subsection_results]. *)
Record RefinedExcerpt : Set := mkExcerpt {
  ex_document : string;
  ex_page_number : Z;
  refined_text : string
}.

Definition is_high (u : Urgency) : bool :=
  match u with UrgencyHigh => true | _ => false end.

(** ** Dynamic weights *)

Local Open Scope float_scope.

(** [calculate_dynamic_weights]: base weights, three additive adjustment
    rules, then division of each weight by the total. *)
Definition calculate_dynamic_weights (query_analysis : QueryAnalysis)
  : float * float * float * float :=
  let core := core_entities query_analysis in
  let cons := constraints query_analysis in
  let ctx := context query_analysis in
  let '(w1, w2, w3, w4) := (0.4, 0.3, 0.2, 0.1) in
  let '(w1, w2, w3) :=
    if (5 <? length core)%nat then (w1 + 0.1, w2 - 0.05, w3 - 0.05)
    else if (length core <? 3)%nat then (w1 - 0.1, w2 + 0.1, w3)
    else (w1, w2, w3) in
  let total_constraints := (length (positive cons) + length (negative cons))%nat in
  let '(w1, w2, w3, w4) :=
    if (3 <? total_constraints)%nat
    then (w1 - 0.1, w2 + 0.1, w3 - 0.05, w4 + 0.05)
    else (w1, w2, w3, w4) in
  let '(w1, w3) :=
    if is_high (urgency ctx) then (w1 - 0.1, w3 + 0.1) else (w1, w3) in
  let total := w1 + w2 + w3 + w4 in
  (w1 / total, w2 / total, w3 / total, w4 / total).

(** The sum of a weight tuple, from left to right. *)
Definition weight_sum (w : float * float * float * float) : float :=
  let '(w1, w2, w3, w4) := w in w1 + w2 + w3 + w4.

(** [abs(x - y) <= tol]. *)
Definition within (tol x y : float) : bool := abs (x - y) <=? tol.

(** ** External collaborators *)

(** The sentence-embedding model together with the numpy operations applied
    to its vectors.  [encode] and [np_dot] answer [None] when the call
    raises (model failure, malformed input, shapes that do not agree). *)
Class Embedder : Type := {
  Vec : Type;
  encode : string -> option Vec;
  np_dot : Vec -> Vec -> option float;
  np_norm : Vec -> float
}.

(** The nltk functions of the pipeline.  [np_chunks] gives the leaves of the
    [NP] subtrees that the chunk grammar finds, or [None] when parsing
    raises. *)
Class Nltk : Type := {
  word_tokenize : string -> list string;
  pos_tag : list string -> list (string * string);
  np_chunks : list (string * string) -> option (list (list (string * string)));
  sent_tokenize : string -> list string
}.

(** [list(set(xs))] keeps one copy of every element, in an order that is
    fixed by the string hashes of the running interpreter. *)
Class SetOrder : Type := {
  set_order : list string -> list string;
  set_order_perm : forall l, Permutation (set_order l) l
}.

Definition list_set `{SetOrder} (xs : list string) : list string :=
  set_order (remove_dups xs).

(** ** Regular expressions of the constraint catalog

    Every pattern of [extract_constraints] has the shape
    [\b(alt1|alt2|...)\b] where an alternative is a run of literal
    characters in which [.?] may occur. *)

Module Re.

Inductive tok : Set :=
| Lit (c : ascii)
| OptAny.

Definition pattern : Set := list (list tok).

(** The alternatives of a pattern body such as [gluten.?free|vegan]. *)
Fixpoint parse_alts (body : string) (cur : list tok) : pattern :=
  match body with
  | EmptyString => [rev cur]
  | String "|" rest => rev cur :: parse_alts rest []
  | String "." (String "?" rest) => parse_alts rest (OptAny :: cur)
  | String c rest => parse_alts rest (Lit c :: cur)
  end.

(** [r'\b(body)\b']. *)
Definition word_group (body : string) : pattern := parse_alts body [].

(** [\w] on ASCII text. *)
Definition is_word (c : ascii) : bool :=
  let n := nat_of_ascii c in
  ((48 <=? n) && (n <=? 57) || (65 <=? n) && (n <=? 90)
   || (97 <=? n) && (n <=? 122) || (n =? 95))%nat.

Definition is_word_opt (c : option ascii) : bool :=
  match c with Some c => is_word c | None => false end.

(** [\b] between the characters [before] and [after]. *)
Definition boundary (before after : option ascii) : bool :=
  xorb (is_word_opt before) (is_word_opt after).

Definition first_char (s : string) : option ascii :=
  match s with EmptyString => None | String c _ => Some c end.

Fixpoint last_char (prev : option ascii) (s : string) : option ascii :=
  match s with EmptyString => prev | String c s' => last_char (Some c) s' end.

Definition is_newline (c : ascii) : bool := (nat_of_ascii c =? 10)%nat.

(** All the ways one alternative matches a prefix of [s], as pairs of the
    matched text and the rest, in the order the backtracking matcher tries
    them ([.?] is greedy). *)
Fixpoint match_alt (a : list tok) (s : string) : list (string * string) :=
  match a with
  | [] => [(EmptyString, s)]
  | Lit c :: a' =>
      match s with
      | String d s' =>
          if Ascii.eqb c d
          then map (fun '(m, r) => (String d m, r)) (match_alt a' s')
          else []
      | EmptyString => []
      end
  | OptAny :: a' =>
      match s with
      | String d s' =>
          if is_newline d then []
          else map (fun '(m, r) => (String d m, r)) (match_alt a' s')
      | EmptyString => []
      end ++ match_alt a' s
  end.

(** The match of the whole pattern that starts right here, if any: the text
    of group 1. *)
Definition match_here (p : pattern) (prev : option ascii) (s : string)
  : option string :=
  if boundary prev (first_char s) then
    fst <$> List.find (fun '(m, r) => boundary (last_char prev m) (first_char r))
                      (flat_map (fun a => match_alt a s) p)
  else None.

(** Scan from left to right; after a match the scan resumes behind it. *)
Fixpoint findall_from (p : pattern) (prev : option ascii) (s : string)
  (skip : nat) : list string :=
  match s with
  | EmptyString => []
  | String c s' =>
      match skip with
      | S k => findall_from p (Some c) s' k
      | O =>
          match match_here p prev s with
          | Some m => m :: findall_from p (Some c) s' (String.length m - 1)
          | None => findall_from p (Some c) s' 0
          end
      end
  end.

(** [re.findall(pattern, s)]. *)
Definition findall (p : pattern) (s : string) : list string :=
  findall_from p None s 0.

End Re.

(** ** Query understanding *)

Section QueryUnderstanding.
Context `{Nltk} `{SetOrder}.

(** [extract_core_entities]: nouns longer than 2 characters, and noun
    phrases longer than 3; chunking errors are swallowed. *)
Definition extract_core_entities (text : string) : list string :=
  let tokens := word_tokenize (Py.lower text) in
  let pos_tags := pos_tag tokens in
  let entities :=
    map fst (filter (fun '(word, tag) =>
                       String.prefix "NN" tag && (2 <? String.length word)%nat)
                    pos_tags) in
  let entities :=
    entities ++
    match np_chunks pos_tags with
    | Some subtrees =>
        filter (fun phrase => (3 <? String.length phrase)%nat)
               (map (fun leaves => Py.join " " (map fst leaves)) subtrees)
    | None => []
    end in
  list_set entities.

Definition positive_patterns : list Re.pattern :=
  map Re.word_group
    [ "vegetarian|vegan|gluten.?free|dairy.?free|nut.?free";
      "budget.?friendly|affordable|cheap|inexpensive";
      "quick|fast|easy|simple|convenient";
      "healthy|organic|natural|fresh";
      "corporate|business|professional|formal";
      "group|shared|collaborative|team";
      "student|youth|young|college";
      "luxury|premium|high.?end|exclusive";
      "urgent|immediate|asap|quickly";
      "comprehensive|detailed|thorough|complete" ].

Definition negative_patterns : list Re.pattern :=
  map Re.word_group
    [ "meat|beef|pork|chicken|fish";
      "expensive|luxury|premium|high.?end|exclusive";
      "breakfast|lunch";
      "slow|complicated|difficult|complex";
      "unhealthy|processed|artificial";
      "casual|informal|relaxed";
      "individual|personal|private";
      "adult|senior|elderly";
      "low.?priority|non.?urgent|whenever";
      "brief|summary|overview|basic" ].

(** The matches of every pattern of a catalog, pattern after pattern. *)
Definition catalog_matches (patterns : list Re.pattern) (text_lower : string)
  : list string :=
  flat_map (fun p => Re.findall p text_lower) patterns.

(** The negative constraints before deduplication. *)
Definition negative_constraints_raw (text_lower : string) : list string :=
  let negative_constraints := catalog_matches negative_patterns text_lower in
  let negative_constraints :=
    if Py.contains "dinner" text_lower || Py.contains "evening" text_lower
    then negative_constraints ++ ["breakfast"; "lunch"; "morning"; "afternoon"]
    else negative_constraints in
  let negative_constraints :=
    if Py.contains "budget" text_lower || Py.contains "affordable" text_lower
    then negative_constraints ++ ["luxury"; "premium"; "expensive"; "high-end"]
    else negative_constraints in
  if Py.contains "vegetarian" text_lower || Py.contains "vegan" text_lower
  then negative_constraints ++ ["meat"; "beef"; "pork"; "chicken"; "fish"]
  else negative_constraints.

(** [extract_constraints]. *)
Definition extract_constraints (text : string) : Constraints :=
  let text_lower := Py.lower text in
  let positive_constraints := catalog_matches positive_patterns text_lower in
  {| positive := list_set positive_constraints;
     negative := list_set (negative_constraints_raw text_lower) |}.

(** [analyze_query_structure]. *)
Definition analyze_query_structure (persona job_to_be_done : string)
  : QueryAnalysis :=
  let combined_text := persona +:+ " " +:+ job_to_be_done in
  let core_entities := extract_core_entities combined_text in
  let constraints := extract_constraints combined_text in
  let lowered := Py.lower combined_text in
  let group_size :=
    if Py.any_in ["corporate"; "business"; "team"; "group"] lowered
    then Some Large
    else if Py.any_in ["individual"; "personal"; "single"] lowered
    then Some Small
    else None in
  let age_group :=
    if Py.any_in ["student"; "youth"; "college"; "young"] lowered
    then Some Young
    else if Py.any_in ["senior"; "elderly"; "adult"] lowered
    then Some Adult
    else None in
  let urgency :=
    if Py.any_in ["urgent"; "asap"; "immediate"; "quickly"] lowered
    then UrgencyHigh
    else if Py.any_in ["whenever"; "no rush"; "take time"] lowered
    then UrgencyLow
    else UrgencyNormal in
  let complexity :=
    if Py.any_in ["comprehensive"; "detailed"; "thorough"; "complete"] lowered
    then ComplexityHigh
    else if Py.any_in ["brief"; "summary"; "overview"; "basic"] lowered
    then ComplexityLow
    else ComplexityMedium in
  {| core_entities := core_entities;
     constraints := constraints;
     context := {| group_size := group_size; age_group := age_group;
                   urgency := urgency; complexity := complexity;
                   domain := "general" |};
     persona := Some persona |}.

End QueryUnderstanding.

(** ** Multi-factor scoring *)

(** One matching loop of the scorer:
    [for n in needles: if n in hay: acc += bonus]. *)
Definition add_hits (bonus : float) (hay : string) (acc : float)
  (needles : list string) : float :=
  foldl (fun acc n => if Py.contains n hay then acc + bonus else acc)
        acc needles.

(** [if total_keywords > 0: score = score / total_keywords]. *)
Definition normalize (score : float) (total_keywords : nat) : float :=
  if (0 <? total_keywords)%nat
  then score / Py.float_of_nat total_keywords
  else score.

(** Part 2 of the scorer, before the context bonuses. *)
Definition keyword_score (q : QueryAnalysis) (text : string) : float :=
  let core := core_entities q in
  let pos := positive (constraints q) in
  let keyword_score := add_hits 1.0 text 0.0 core in
  let keyword_score := add_hits 1.5 text keyword_score pos in
  normalize keyword_score (length core + length pos).

(** Part 3 of the scorer. *)
Definition title_score (q : QueryAnalysis) (title : string) : float :=
  let core := core_entities q in
  let pos := positive (constraints q) in
  let title_score := add_hits 2.0 title 0.0 core in
  let title_score := add_hits 2.5 title title_score pos in
  normalize title_score (length core + length pos).

(** Part 4 of the scorer. *)
Definition penalty_score (q : QueryAnalysis) (text : string) : float :=
  add_hits 2.0 text 0.0 (negative (constraints q)).

(** The four domain branches of part 5, in the order of the [if]/[elif]
    cascade. *)
Definition food_branch (persona_lower text : string) : bool :=
  Py.contains "food contractor" persona_lower || Py.contains "menu" text.

Definition research_branch (text : string) : bool :=
  Py.any_in ["research"; "study"; "analysis"; "literature"] text.

Definition business_branch (text : string) : bool :=
  Py.any_in ["revenue"; "financial"; "business"; "investment"] text.

Definition education_branch (text : string) : bool :=
  Py.any_in ["student"; "study"; "exam"; "preparation"] text.

Definition food_bonus (document : string) (score : float) : float :=
  if Py.contains "mains" document || Py.contains "main" document
  then score + 3.0
  else if Py.any_in ["entree"; "primary"; "featured"] document
  then score + 2.5
  else if Py.contains "sides" document || Py.contains "side" document
  then score + 1.0
  else if Py.any_in ["appetizer"; "starter"; "breakfast"] document
  then score + 0.5
  else score.

Definition research_bonus (document : string) (score : float) : float :=
  if Py.contains "methodology" document || Py.contains "methods" document
  then score + 2.0
  else if Py.contains "results" document || Py.contains "findings" document
  then score + 1.5
  else if Py.contains "introduction" document || Py.contains "background" document
  then score + 1.0
  else score.

Definition business_bonus (document : string) (score : float) : float :=
  if Py.contains "financial" document || Py.contains "revenue" document
  then score + 2.0
  else if Py.contains "strategy" document || Py.contains "analysis" document
  then score + 1.5
  else if Py.contains "overview" document || Py.contains "summary" document
  then score + 1.0
  else score.

Definition education_bonus (document : string) (score : float) : float :=
  if Py.contains "key concepts" document || Py.contains "important" document
  then score + 2.0
  else if Py.contains "examples" document || Py.contains "practice" document
  then score + 1.5
  else if Py.contains "introduction" document || Py.contains "background" document
  then score + 1.0
  else score.

(** Part 5 of the scorer: the document type priority. *)
Definition document_priority_score (q : QueryAnalysis)
  (text document : string) : float :=
  let document_priority_score := 0.0 in
  if food_branch (Py.lower (Py.get (persona q) "")) text
  then food_bonus document document_priority_score
  else if research_branch text
  then research_bonus document document_priority_score
  else if business_branch text
  then business_bonus document document_priority_score
  else if education_branch text
  then education_bonus document document_priority_score
  else document_priority_score.

Definition is_large (g : option GroupSize) : bool :=
  match g with Some Large => true | _ => false end.

Definition is_young (a : option AgeGroup) : bool :=
  match a with Some Young => true | _ => false end.

(** The context bonuses, added to the normalized keyword score. *)
Definition context_bonuses (q : QueryAnalysis) (text : string)
  (keyword_score : float) : float :=
  let ctx := context q in
  let keyword_score :=
    if is_large (group_size ctx)
       && Py.any_in ["group"; "shared"; "multiple"; "team"; "collaborative";
                     "batch"; "corporate"] text
    then keyword_score + 0.5
    else keyword_score in
  if is_young (age_group ctx)
     && Py.any_in ["student"; "youth"; "young"; "college"; "budget";
                   "affordable"] text
  then keyword_score + 0.3
  else keyword_score.

(** The closing expression of the scorer for given weights. *)
Definition weighted_score (w : float * float * float * float)
  (semantic keyword title penalty priority : float) : float :=
  let '(w1, w2, w3, w4) := w in
  (w1 * semantic) + (w2 * keyword) + (w3 * title) - (w4 * penalty) + priority.

(** The weights the scorer binds to [w1, w2, w3, w4]. *)
Definition scorer_weights : float * float * float * float :=
  (0.4, 0.3, 0.2, 0.1).

Section Scoring.
Context `{Embedder}.

(** [np.dot(a, b) / (np.linalg.norm(a) * np.linalg.norm(b))]. *)
Definition cosine (a b : Vec) : option float :=
  d ← np_dot a b; Some (d / (np_norm a * np_norm b)).

(** Part 1 of the scorer: the body of the [try], with [0.0] substituted by
    the bare [except]. *)
Definition semantic_score (query_embedding : Vec) (text : string) : float :=
  match section_embedding ← encode text; cosine query_embedding section_embedding with
  | Some semantic_score => semantic_score
  | None => 0.0
  end.

(** [calculate_multi_factor_score]. *)
Definition calculate_multi_factor_score (section : SectionDict)
  (query_analysis : QueryAnalysis) (query_embedding : Vec) : Py.result float :=
  section_title_ ← Py.getitem "section_title" (section_title section);
  text_ ← Py.getitem "text" (text section);
  let text := Py.lower (section_title_ +:+ " " +:+ text_) in
  let title := Py.lower section_title_ in
  document_ ← Py.getitem "document" (document section);
  let document := Py.lower document_ in
  let semantic_score := semantic_score query_embedding text_ in
  let keyword_score := keyword_score query_analysis text in
  let title_score := title_score query_analysis title in
  let penalty_score := penalty_score query_analysis text in
  let document_priority_score :=
    document_priority_score query_analysis text document in
  let keyword_score := context_bonuses query_analysis text keyword_score in
  mret (weighted_score scorer_weights semantic_score keyword_score title_score
          penalty_score document_priority_score).

End Scoring.

(** ** Sorting

    [sorted(xs, key=key, reverse=True)] and [xs.sort(key=key, reverse=True)]
    as CPython's list sort carries them out on fewer than 64 elements:
    the list is reversed, sorted into ascending order and reversed again.
    The ascending sort takes the longest run at the front of the list (a
    run that never descends, or one that descends strictly and is then
    reversed) and inserts the remaining elements one by one at the place
    that a binary search finds.  The only comparison is [<] on the keys.

    On keys without NaN, which [<] orders totally up to equality, every
    stable sort returns the same list, so that the model gives Python's
    result for lists of any length.  With a NaN among the keys the
    comparisons are inconsistent and the result depends on the algorithm:
    the model then gives Python's result for fewer than 64 elements, the
    lengths on which Python does not merge runs. *)

Section ListSort.
Context {A : Type} (key : A -> float).

(** [ISLT(x, y)] on the keys. *)
Definition islt (x y : A) : bool := key x <? key y.

(** [count_run]: how many further elements continue a strictly descending
    run, or a run that does not descend, after [prev]. *)
Fixpoint run_descending (prev : A) (l : list A) : nat :=
  match l with
  | x :: l' => if islt x prev then S (run_descending x l') else 0
  | [] => 0
  end.

Fixpoint run_ascending (prev : A) (l : list A) : nat :=
  match l with
  | x :: l' => if islt x prev then 0 else S (run_ascending x l')
  | [] => 0
  end.

(** The length of the run at the front, and whether it descends. *)
Definition count_run (l : list A) : nat * bool :=
  match l with
  | x :: y :: rest =>
      if islt y x then ((2 + run_descending y rest)%nat, true)
      else ((2 + run_ascending y rest)%nat, false)
  | _ => (length l, false)
  end.

(** The binary search of [binarysort] between the positions [l] and [r] of
    the sorted part. *)
Fixpoint bisect (fuel : nat) (pivot : A) (sorted : list A) (l r : nat) : nat :=
  match fuel with
  | 0 => l
  | S fuel =>
      if (l <? r)%nat then
        let p := (l + (r - l) / 2)%nat in
        match sorted !! p with
        | Some y =>
            if islt pivot y then bisect fuel pivot sorted l p
            else bisect fuel pivot sorted (S p) r
        | None => l
        end
      else l
  end.

(** One step of [binarysort]: the pivot goes to the place found. *)
Definition binary_insert (sorted : list A) (pivot : A) : list A :=
  let i := bisect (length sorted) pivot sorted 0 (length sorted) in
  take i sorted ++ pivot :: drop i sorted.

(** The ascending sort of a list that needs no merge. *)
Definition list_sort (l : list A) : list A :=
  let '(n, descending) := count_run l in
  let run := take n l in
  foldl binary_insert (if descending then rev run else run) (drop n l).

Definition sorted_desc (l : list A) : list A := rev (list_sort (rev l)).

End ListSort.

(** [a] may stand before [b] in descending order: its key is not less. *)
Definition not_below {A} (key : A -> float) (a b : A) : Prop :=
  (key a <? key b) = false.

(** ** Loading sections *)

(** An entry of [doc_structure['sections']] and the document structure
    itself, as read from a JSON file. *)
Record RawSection : Set := mkRaw {
  raw_page_number : option Z;
  raw_heading : option string;
  raw_text : option string
}.

Record DocStructure : Set := mkDoc {
  filename : option string;
  doc_sections : option (list RawSection)
}.

(** [extract_sections]. *)
Definition extract_sections (doc_structure : DocStructure)
  : Py.result (list SectionDict) :=
  mapM (fun section =>
          filename_ ← Py.getitem "filename" (filename doc_structure);
          mret {| document := Some filename_;
                  page_number := Some (Py.get (raw_page_number section) 1%Z);
                  section_title := Some (Py.get (raw_heading section) "Unknown");
                  text := Some (Py.get (raw_text section) "");
                  similarity_score := Some 0.0;
                  importance_rank := Some 0%Z |})
       (Py.get (doc_sections doc_structure) []).

(** ** The store of section dicts *)

(** A reference to a dict, and the dicts the references denote. *)
Abbreviation loc := nat (only parsing).
Abbreviation store := (nat -> SectionDict) (only parsing).

Definition empty_dict : SectionDict :=
  {| document := None; page_number := None; section_title := None;
     text := None; similarity_score := None; importance_rank := None |}.

(** Fresh dicts for a list of section values: the list of their references
    and the store that holds them. *)
Definition store_of_list (l : list SectionDict) : store :=
  fun r => default empty_dict (l !! r).

Definition alloc (l : list SectionDict) : list loc * store :=
  (seq 0 (length l), store_of_list l).

(** [section['similarity_score'] = v] and [section['importance_rank'] = r]. *)
Definition set_similarity_score (s : SectionDict) (v : float) : SectionDict :=
  {| document := document s; page_number := page_number s;
     section_title := section_title s; text := text s;
     similarity_score := Some v; importance_rank := importance_rank s |}.

Definition set_importance_rank (s : SectionDict) (r : Z) : SectionDict :=
  {| document := document s; page_number := page_number s;
     section_title := section_title s; text := text s;
     similarity_score := similarity_score s; importance_rank := Some r |}.

(** ** Ranking *)

Section Ranking.
Context `{Embedder} `{Nltk} `{SetOrder}.

(** The scoring loop of [analyze_sections]. *)
Fixpoint score_sections (q : QueryAnalysis) (query_embedding : Vec)
  (sections : list loc) (st : store) : Py.result store :=
  match sections with
  | [] => mret st
  | section :: rest =>
      v ← calculate_multi_factor_score (st section) q query_embedding;
      score_sections q query_embedding rest
        (<[section := set_similarity_score (st section) v]> st)
  end.

(** The sort keys [x['similarity_score']], taken once per element. *)
Definition score_keys (st : store) (sections : list loc)
  : Py.result (list (float * loc)) :=
  mapM (fun section =>
          k ← Py.getitem "similarity_score" (similarity_score (st section));
          mret (k, section))
       sections.

(** The rank loop: [for i, section in enumerate(ranked_sections)]. *)
Fixpoint assign_ranks (i : nat) (ranked_sections : list loc) (st : store)
  : store :=
  match ranked_sections with
  | [] => st
  | section :: rest =>
      assign_ranks (S i) rest
        (<[section := set_importance_rank (st section) (Z.of_nat i + 1)]> st)
  end.

(** The three steps of [analyze_sections] for an analysed query. *)
Definition rank_sections (q : QueryAnalysis) (query_embedding : Vec)
  (sections : list loc) (st : store) : Py.result (list loc * store) :=
  st ← score_sections q query_embedding sections st;
  keyed ← score_keys st sections;
  let ranked_sections := map snd (sorted_desc fst keyed) in
  mret (ranked_sections, assign_ranks 0 ranked_sections st).

(** [analyze_sections]: the ranked list of references and the store after
    the scores and ranks were written. *)
Definition analyze_sections (sections : list loc) (query_embedding : Vec)
  (persona job_to_be_done : string) (st : store)
  : Py.result (list loc * store) :=
  let query_analysis := analyze_query_structure persona job_to_be_done in
  rank_sections query_analysis query_embedding sections st.

(** ** Pinpoint extraction *)

(** [for n in needles: if n in hay: acc -= 2.0]. *)
Definition sub_hits (malus : float) (hay : string) (acc : float)
  (needles : list string) : float :=
  foldl (fun acc n => if Py.contains n hay then acc - malus else acc)
        acc needles.

(** The score of one sentence. *)
Definition sentence_score (q : QueryAnalysis) (query_embedding : Vec)
  (sentence : string) : float :=
  let lowered := Py.lower sentence in
  let sentence_score := add_hits 1.0 lowered 0.0 (core_entities q) in
  let sentence_score :=
    add_hits 1.5 lowered sentence_score (positive (constraints q)) in
  let sentence_score :=
    sub_hits 2.0 lowered sentence_score (negative (constraints q)) in
  match sentence_embedding ← encode sentence;
        cosine query_embedding sentence_embedding with
  | Some semantic_similarity => sentence_score + semantic_similarity
  | None => sentence_score
  end.

(** [sentence_scores] of a section text, in sentence order. *)
Definition sentence_scores (q : QueryAnalysis) (query_embedding : Vec)
  (text : string) : list (string * float) :=
  map (fun sentence => (sentence, sentence_score q query_embedding sentence))
      (sent_tokenize text).

(** The refined text of a section text. *)
Definition refine (q : QueryAnalysis) (query_embedding : Vec)
  (text : string) : string :=
  let sentence_scores := sorted_desc snd (sentence_scores q query_embedding text) in
  let top_sentences := firstn 3 sentence_scores in
  Py.join ". "
    (map fst (filter (fun '(sentence, score) => 0.0 <? score) top_sentences)).

(** The loop over the sections, with [subsection_results] as accumulator. *)
Fixpoint subsection_loop (q : QueryAnalysis) (query_embedding : Vec)
  (sections : list SectionDict) (subsection_results : list RefinedExcerpt)
  : Py.result (list RefinedExcerpt) :=
  match sections with
  | [] => mret subsection_results
  | section :: rest =>
      text_ ← Py.getitem "text" (text section);
      let refined_text := refine q query_embedding text_ in
      if Py.truthy refined_text then
        document_ ← Py.getitem "document" (document section);
        page_number_ ← Py.getitem "page_number" (page_number section);
        subsection_loop q query_embedding rest
          (subsection_results ++
             [ {| ex_document := document_; ex_page_number := page_number_;
                  refined_text := refined_text |} ])
      else subsection_loop q query_embedding rest subsection_results
  end.

(** [intelligent_subsection_analysis]. *)
Definition intelligent_subsection_analysis (sections : list SectionDict)
  (query_embedding : Vec) (persona job_to_be_done : string)
  : Py.result (list RefinedExcerpt) :=
  let query_analysis := analyze_query_structure persona job_to_be_done in
  subsection_loop query_analysis query_embedding (firstn 5 sections) [].

(** [analyze_subsections] on the ranked references. *)
Definition analyze_subsections (ranked_sections : list loc) (st : store)
  (query_embedding : Vec) (persona job_to_be_done : string)
  : Py.result (list RefinedExcerpt) :=
  intelligent_subsection_analysis (map st ranked_sections) query_embedding
    persona job_to_be_done.

End Ranking.

(** ** Confidence and metrics *)

(** [max(a, b)] and [min(a, b)] of two floats: the first argument is kept
    unless the second one is strictly better. *)
Definition py_max (a b : float) : float := if a <? b then b else a.
Definition py_min (a b : float) : float := if b <? a then b else a.

(** [sum(xs)], adding from the left. *)
Definition py_sum (xs : list float) : float := foldl add 0.0 xs.

(** [sum(1 for c in needles if c in hay)]. *)
Definition count_matches (needles : list string) (hay : string) : nat :=
  length (filter (fun c => Py.contains c hay) needles).

(** [calculate_confidence_score]. *)
Definition calculate_confidence_score (section : SectionDict)
  (query_analysis : QueryAnalysis) : Py.result float :=
  section_title_ ← Py.getitem "section_title" (section_title section);
  text_ ← Py.getitem "text" (text section);
  let text := Py.lower (section_title_ +:+ " " +:+ text_) in
  let confidence_factors := 0.0 in
  let title := Py.lower section_title_ in
  let confidence_factors :=
    if existsb (fun entity => Py.contains entity title)
               (core_entities query_analysis)
    then confidence_factors + 0.3
    else confidence_factors in
  let positive_matches :=
    count_matches (positive (constraints query_analysis)) text in
  let negative_matches :=
    count_matches (negative (constraints query_analysis)) text in
  let confidence_factors :=
    confidence_factors
    + ((Py.float_of_nat positive_matches * 0.2)
       - (Py.float_of_nat negative_matches * 0.3)) in
  document_ ← Py.getitem "document" (document section);
  let document := Py.lower document_ in
  let confidence_factors :=
    if Py.contains "mains" document
       && Py.contains "food contractor"
            (Py.lower (Py.get (persona query_analysis) ""))
    then confidence_factors + 0.2
    else confidence_factors in
  let text_length := String.length text_ in
  let confidence_factors :=
    if ((100 <=? text_length) && (text_length <=? 1000))%nat
    then confidence_factors + 0.1
    else confidence_factors in
  mret (py_min 1.0 (py_max 0.0 confidence_factors)).

(** The nested loop that counts [satisfied_constraints]: one increment for
    every pair of a section and a positive constraint found in it. *)
Fixpoint count_satisfied (positive_constraints : list string)
  (sections : list SectionDict) (satisfied_constraints : nat)
  : Py.result nat :=
  match sections with
  | [] => mret satisfied_constraints
  | section :: rest =>
      section_title_ ← Py.getitem "section_title" (section_title section);
      text_ ← Py.getitem "text" (text section);
      let text := Py.lower (section_title_ +:+ " " +:+ text_) in
      count_satisfied positive_constraints rest
        (foldl (fun n constraint => if Py.contains constraint text then S n else n)
               satisfied_constraints positive_constraints)
  end.

Record Metrics : Set := mkMetrics {
  total_sections : nat;
  avg_confidence : float;
  domain_coverage : float;
  constraint_satisfaction : float
}.

(** [generate_performance_metrics]. *)
Definition generate_performance_metrics (ranked_sections : list SectionDict)
  (query_analysis : QueryAnalysis) : Py.result Metrics :=
  match ranked_sections with
  | [] =>
      mret {| total_sections := 0; avg_confidence := 0.0;
              domain_coverage := 0.0; constraint_satisfaction := 0.0 |}
  | _ :: _ =>
      confidences ←
        mapM (fun section => calculate_confidence_score section query_analysis)
             (firstn 10 ranked_sections);
      let avg_confidence :=
        py_sum confidences / Py.float_of_nat (length confidences) in
      documents ←
        mapM (fun section => Py.getitem "document" (document section))
             (firstn 10 ranked_sections);
      let unique_docs := length (remove_dups documents) in
      let domain_coverage :=
        Py.float_of_nat unique_docs
        / Py.float_of_nat (Nat.min 10 (length ranked_sections)) in
      let total_constraints := length (positive (constraints query_analysis)) in
      satisfied_constraints ←
        count_satisfied (positive (constraints query_analysis))
          (firstn 5 ranked_sections) 0;
      let constraint_satisfaction :=
        if (0 <? total_constraints)%nat
        then Py.float_of_nat satisfied_constraints
             / Py.float_of_nat total_constraints
        else 0.0 in
      mret {| total_sections := length ranked_sections;
              avg_confidence := avg_confidence;
              domain_coverage := domain_coverage;
              constraint_satisfaction := constraint_satisfaction |}
  end.

(** ** Auxiliary notions used by the statements *)

(** A dict the scorer can read: the three keys it subscripts are present. *)
Definition scorable (s : SectionDict) : Prop :=
  is_Some (section_title s) /\ is_Some (text s) /\ is_Some (document s).

(** A dict the extractor can read. *)
Definition extractable (s : SectionDict) : Prop :=
  is_Some (text s) /\ is_Some (document s) /\ is_Some (page_number s).

(** Two analyses of one request made under different set orders: the same
    entities and constraints, possibly listed in another order. *)
Definition query_equiv (q1 q2 : QueryAnalysis) : Prop :=
  Permutation (core_entities q1) (core_entities q2)
  /\ Permutation (positive (constraints q1)) (positive (constraints q2))
  /\ Permutation (negative (constraints q1)) (negative (constraints q2))
  /\ context q1 = context q2
  /\ persona q1 = persona q2.

(** The same analysis with another urgency: a change of the query that
    [calculate_dynamic_weights] is sensitive to. *)
Definition with_urgency (q : QueryAnalysis) (u : Urgency) : QueryAnalysis :=
  {| core_entities := core_entities q;
     constraints := constraints q;
     context := {| group_size := group_size (context q);
                   age_group := age_group (context q);
                   urgency := u;
                   complexity := complexity (context q);
                   domain := domain (context q) |};
     persona := persona q |}.

(** The rank the rank loop leaves on the dict behind [l], if it visits it:
    the last position of [l] in the list, counted from [i + 1]. *)
Fixpoint rank_after (i : nat) (ranked_sections : list loc) (l : loc)
  : option Z :=
  match ranked_sections with
  | [] => None
  | section :: rest =>
      match rank_after (S i) rest l with
      | Some r => Some r
      | None => if decide (section = l) then Some (Z.of_nat i + 1)%Z else None
      end
  end.

(** [x == x], which fails for NaN only. *)
Definition not_nan (x : float) : Prop := PrimFloat.is_nan x = false.

Definition SFnan (f : spec_float) : bool :=
  match f with S754_nan => true | _ => false end.

Section SpecLevel.
Context `{Embedder} `{Nltk} `{SetOrder}.

(** The score as the specification words it: the components of the scorer
    combined under the weights that [calculate_dynamic_weights] derives for
    the query. *)
Definition score_with_dynamic_weights (section : SectionDict)
  (query_analysis : QueryAnalysis) (query_embedding : Vec) : Py.result float :=
  section_title_ ← Py.getitem "section_title" (section_title section);
  text_ ← Py.getitem "text" (text section);
  document_ ← Py.getitem "document" (document section);
  let text := Py.lower (section_title_ +:+ " " +:+ text_) in
  mret (weighted_score (calculate_dynamic_weights query_analysis)
          (semantic_score query_embedding text_)
          (context_bonuses query_analysis text (keyword_score query_analysis text))
          (title_score query_analysis (Py.lower section_title_))
          (penalty_score query_analysis text)
          (document_priority_score query_analysis text (Py.lower document_))).

(** What one section contributes to the extraction, as the specification
    words it: an excerpt exactly when the joined text is not empty. *)
Definition section_excerpt (q : QueryAnalysis) (query_embedding : Vec)
  (section : SectionDict) : Py.result (option RefinedExcerpt) :=
  text_ ← Py.getitem "text" (text section);
  let by_score := sorted_desc snd (sentence_scores q query_embedding text_) in
  let kept :=
    filter (fun '(sentence, score) => 0.0 <? score) (firstn 3 by_score) in
  let joined := Py.join ". " (map fst kept) in
  if Py.truthy joined then
    document_ ← Py.getitem "document" (document section);
    page_number_ ← Py.getitem "page_number" (page_number section);
    mret (Some {| ex_document := document_; ex_page_number := page_number_;
                  refined_text := joined |})
  else mret None.

(** The excerpt of a section that carries the keys of the extractor: none
    when its refined text is the empty string. *)
Definition emitted_excerpt (q : QueryAnalysis) (query_embedding : Vec)
  (section : SectionDict) : option RefinedExcerpt :=
  match text section, document section, page_number section with
  | Some text_, Some document_, Some page_number_ =>
      let joined := refine q query_embedding text_ in
      if decide (joined = "") then None
      else Some {| ex_document := document_; ex_page_number := page_number_;
                   refined_text := joined |}
  | _, _, _ => None
  end.

(** The score of the dict behind [l], with [0.0] standing in where the
    scorer raises. *)
Definition score_of (q : QueryAnalysis) (query_embedding : Vec)
  (st : store) (l : loc) : float :=
  match calculate_multi_factor_score (st l) q query_embedding with
  | Py.Ok v => v
  | Py.Raise _ => 0.0
  end.

End SpecLevel.

(** The constraint satisfaction as a fraction: the number of positive
    constraints found in at least one of the first five sections, over the
    number of positive constraints. *)
Definition distinct_satisfied (positive_constraints : list string)
  (texts : list string) : nat :=
  length (filter (fun c => existsb (fun t => Py.contains c t) texts)
                 (remove_dups positive_constraints)).

Definition combined_text (s : SectionDict) : string :=
  Py.lower (Py.get (section_title s) "" +:+ " " +:+ Py.get (text s) "").

Definition fraction_satisfied (ranked_sections : list SectionDict)
  (q : QueryAnalysis) : float :=
  Py.float_of_nat
    (distinct_satisfied (positive (constraints q))
       (map combined_text (firstn 5 ranked_sections)))
  / Py.float_of_nat (length (positive (constraints q))).

(** ** Concrete collaborators for the examples *)

Module Demo.

(** Vectors are lists of floats with the textbook dot product and norm. *)
Definition dot (a b : list float) : option float :=
  if (length a =? length b)%nat
  then Some (foldl add 0.0 (zip_with mul a b))
  else None.

Definition norm (a : list float) : float :=
  sqrt (foldl add 0.0 (map (fun x => x * x) a)).

(** A model that fails on texts containing [#] and otherwise embeds a text
    by its length. *)
Definition embed (text : string) : option (list float) :=
  if Py.contains "#" text then None
  else Some [1.0; Py.float_of_nat (String.length text)].

#[export] Instance embedder : Embedder :=
  {| Vec := list float; encode := embed; np_dot := dot; np_norm := norm |}.

(** [s.split(sep)] for a one-character separator. *)
Fixpoint split_on (sep : ascii) (s : string) (cur : string) : list string :=
  match s with
  | EmptyString => [cur]
  | String c s' =>
      if Ascii.eqb c sep then cur :: split_on sep s' EmptyString
      else split_on sep s' (cur +:+ String c EmptyString)
  end.

Definition nouns : list string :=
  ["menu"; "dinner"; "buffet"; "gathering"; "items"; "report"].

(** A tokenizer on blanks, a tagger that knows a few nouns, a chunker that
    always fails, and a sentence splitter on [.]. *)
#[export] Instance nltk : Nltk :=
  {| word_tokenize := fun s => split_on " " s EmptyString;
     pos_tag := map (fun w => (w, if bool_decide (w ∈ nouns) then "NN" else "XX"));
     np_chunks := fun _ => None;
     sent_tokenize := fun s => split_on "." s EmptyString |}.

(** Two set orders: insertion order and its reverse. *)
#[export] Instance insertion_order : SetOrder :=
  {| set_order := fun l => l; set_order_perm := ltac:(intros; reflexivity) |}.

Definition reverse_order : SetOrder :=
  {| set_order := @rev string; set_order_perm := ltac:(intros; symmetry; apply Permutation_rev) |}.

Definition section_of (doc title body : string) : SectionDict :=
  {| document := Some doc; page_number := Some 1%Z;
     section_title := Some title; text := Some body;
     similarity_score := Some 0.0; importance_rank := Some 0%Z |}.

Definition persona : string := "Food Contractor".
Definition job : string :=
  "Prepare a vegetarian buffet-style dinner menu for a corporate gathering, including gluten-free items.".

Definition query_embedding : list float := [1.0; 3.0].

Definition lasagna : SectionDict :=
  section_of "Dinner Ideas - Mains_1.pdf" "Vegetarian Lasagna"
    "Layer the pasta. Serve the vegetarian lasagna on the buffet. Add beef if wanted".

Definition salad : SectionDict :=
  section_of "Dinner Ideas - Sides_2.pdf" "Green Salad"
    "A fresh side for the corporate menu. Gluten-free".

Definition toast : SectionDict :=
  section_of "Breakfast Ideas.pdf" "Toast" "Toast the bread".

Definition toast_again : SectionDict :=
  section_of "Breakfast Ideas.pdf" "Toast" "Toast the bread".

Definition sections : list SectionDict := [toast; salad; toast_again; lasagna].

(** The same sections as dicts in a store. *)
Definition refs : list loc := (alloc sections).1.
Definition st : store := (alloc sections).2.

(** The analysed request. *)
Definition query : QueryAnalysis := analyze_query_structure persona job.

Definition curry : SectionDict :=
  section_of "Dinner Ideas - Mains_2.pdf" "Vegetarian Curry"
    "A gluten-free vegetarian curry for corporate lunches".

Definition menu_sections : list SectionDict := [lasagna; salad; curry].

(** A section on whose text the model fails. *)
Definition unembeddable : SectionDict :=
  section_of "Notes.pdf" "Notes" "Table #3 of the menu".

Definition mixed_refs : list loc := (alloc [toast; unembeddable; salad]).1.
Definition mixed_st : store := (alloc [toast; unembeddable; salad]).2.

(** Dicts without a [text] or without a [section_title] key. *)
Definition no_text : SectionDict :=
  {| document := Some "Lunch.pdf"; page_number := Some 1%Z;
     section_title := Some "Soup"; text := None;
     similarity_score := None; importance_rank := None |}.

Definition no_title : SectionDict :=
  {| document := Some "Lunch.pdf"; page_number := Some 1%Z;
     section_title := None; text := Some "Tomato soup";
     similarity_score := None; importance_rank := None |}.

(** A document structure whose entries lack a heading or a text. *)
Definition raw_doc : DocStructure :=
  {| filename := Some "Dinner Ideas - Mains_1.pdf";
     doc_sections :=
       Some [ {| raw_page_number := Some 2%Z; raw_heading := None;
                 raw_text := Some "Menu of the day" |};
              {| raw_page_number := None; raw_heading := Some "Lasagna";
                 raw_text := None |} ] |}.

End Demo.

(** * Further parts of the code *)

Local Close Scope float_scope.

(** ** Semantic roles *)

(** A pattern whose alternatives all begin with a literal character. *)
Definition solid (p : Re.pattern) : bool :=
  forallb (fun a => match a with Re.Lit _ :: _ => true | _ => false end) p.

(** The word an alternative spells, when it has no [.?]. *)
Fixpoint spelled (a : list Re.tok) : option string :=
  match a with
  | [] => Some EmptyString
  | Re.Lit c :: a' => String c <$> spelled a'
  | Re.OptAny :: _ => None
  end.

(** [extract_semantic_roles]. *)
Record SemanticRoles : Set := mkRoles {
  actions : list string;
  objects : list string;
  modifiers : list string
}.

Definition action_patterns : list Re.pattern :=
  map Re.word_group
    [ "prepare|create|plan|organize|arrange|develop";
      "analyze|review|study|examine|investigate|research";
      "summarize|summarise|extract|identify|find|locate";
      "compare|evaluate|assess|measure|calculate" ].

Definition object_patterns : list Re.pattern :=
  map Re.word_group
    [ "menu|dishes|food|meals|recipes";
      "documents|papers|reports|data|information";
      "concepts|topics|subjects|materials|content";
      "trends|metrics|figures|statistics|results" ].

Definition modifier_patterns : list Re.pattern :=
  map Re.word_group
    [ "vegetarian|vegan|gluten.?free|healthy|organic";
      "budget|affordable|cost.?effective|inexpensive";
      "quick|fast|urgent|immediate|asap";
      "detailed|comprehensive|thorough|complete|extensive";
      "simple|easy|basic|straightforward|clear" ].

Definition extract_semantic_roles `{SetOrder} (text : string) : SemanticRoles :=
  let text_lower := Py.lower text in
  {| actions := list_set (catalog_matches action_patterns text_lower);
     objects := list_set (catalog_matches object_patterns text_lower);
     modifiers := list_set (catalog_matches modifier_patterns text_lower) |}.

(** The words of the action and object catalogs. *)
Definition vocabulary (patterns : list Re.pattern) : list string :=
  omap spelled (concat patterns).

(** A dict from which the extractor can take an excerpt. *)
Definition excerpt_readable `{Embedder} `{Nltk} (q : QueryAnalysis)
  (qe : Vec) (s : SectionDict) : Prop :=
  exists body,
    text s = Some body
    /\ (Py.truthy (refine q qe body) = true ->
        is_Some (document s) /\ is_Some (page_number s)).

(** ** Batch encoding *)

(** What [batch_encode_texts] can raise: the [ValueError] of [range] for a
    zero step, and whatever the model raises on a batch. *)
Inductive BatchError : Set :=
| RangeStepZero
| EncodeRaised.

(** [range(0, stop, step)]: the values [k * step] below [stop]; no value
    for a negative step, [ValueError] for step zero. *)
Definition py_range (stop : nat) (step : Z) : BatchError + list nat :=
  match step with
  | Z0 => inl RangeStepZero
  | Zneg _ => inr []
  | Zpos p =>
      let step := Pos.to_nat p in
      inr (map (fun k => k * step) (seq 0 ((stop + step - 1) / step)))
  end.

(** [xs[i:i + n]] for [0 <= i] and [0 <= n]. *)
Definition py_slice {A} (xs : list A) (i : nat) (n : Z) : list A :=
  take (Z.to_nat n) (drop i xs).

Section BatchEncoding.
Context {V : Type}.

(** [model.encode(batch, ...)] on a list of texts: the list of their
    vectors, or [None] when the call raises. *)
Variable encode_batch : list string -> option (list V).

(** The loop of [batch_encode_texts] over the start indices. *)
Fixpoint encode_batches (texts : list string) (batch_size : Z)
  (starts : list nat) (embeddings : list V) : BatchError + list V :=
  match starts with
  | [] => inr embeddings
  | i :: rest =>
      let batch := py_slice texts i batch_size in
      match encode_batch batch with
      | Some batch_embeddings =>
          encode_batches texts batch_size rest (embeddings ++ batch_embeddings)
      | None => inl EncodeRaised
      end
  end.

(** [batch_encode_texts]. *)
Definition batch_encode_texts (texts : list string) (batch_size : Z)
  : BatchError + list V :=
  match py_range (length texts) batch_size with
  | inl e => inl e
  | inr starts => encode_batches texts batch_size starts []
  end.

End BatchEncoding.

(** The batches that the loop hands to the model. *)
Definition batches (texts : list string) (batch_size : Z)
  : BatchError + list (list string) :=
  match py_range (length texts) batch_size with
  | inl e => inl e
  | inr starts => inr (map (fun i => py_slice texts i batch_size) starts)
  end.

(** ** The challenge pipeline *)

(** An entry of [extracted_sections] in the output of [process_challenge]. *)
Record ExtractedSection : Set := mkExtracted {
  out_document : string;
  out_page_number : Z;
  out_section_title : string;
  out_importance_rank : Z
}.

(** The output of [process_challenge], without the challenge information
    that is copied from the input and without the time stamp. *)
Record ChallengeOutput : Set := mkOutput {
  input_documents : list string;
  out_persona : string;
  out_job_to_be_done : string;
  extracted_sections : list ExtractedSection;
  subsection_analysis : list RefinedExcerpt
}.

(** How the pipeline fails: with an exception of the modelled code, or with
    the exception of the model that embeds the request. *)
Inductive ChallengeError : Set :=
| Raised (e : Py.exn)
| EncodeFailed.

(** A dict with all the keys that the pipeline reads before the ranking. *)
Definition loaded (s : SectionDict) : Prop :=
  is_Some (document s) /\ is_Some (page_number s)
  /\ is_Some (section_title s) /\ is_Some (text s).

Section Challenge.
Context `{Embedder} `{Nltk} `{SetOrder}.

(** One entry of the list comprehension over [ranked_sections[:10]]. *)
Definition extracted_section (section : SectionDict)
  : Py.result ExtractedSection :=
  document_ ← Py.getitem "document" (document section);
  page_number_ ← Py.getitem "page_number" (page_number section);
  section_title_ ← Py.getitem "section_title" (section_title section);
  importance_rank_ ← Py.getitem "importance_rank" (importance_rank section);
  mret {| out_document := document_; out_page_number := page_number_;
          out_section_title := section_title_;
          out_importance_rank := importance_rank_ |}.

(** The output dict. *)
Definition challenge_output (doc_structures : list DocStructure)
  (persona_role task : string) (ranked_sections : list loc) (st : store)
  (subsection_analysis : list RefinedExcerpt) : Py.result ChallengeOutput :=
  input_documents ←
    mapM (fun doc => Py.getitem "filename" (filename doc)) doc_structures;
  extracted_sections ←
    mapM (fun section => extracted_section (st section))
         (firstn 10 ranked_sections);
  mret {| input_documents := input_documents;
          out_persona := persona_role;
          out_job_to_be_done := task;
          extracted_sections := extracted_sections;
          subsection_analysis := subsection_analysis |}.

(** The steps of [process_challenge] after the ranking. *)
Definition report (doc_structures : list DocStructure)
  (persona_role task : string) (query_embedding : Vec)
  (all_sections : list loc) (st : store) : Py.result ChallengeOutput :=
  '(ranked_sections, st) ←
    analyze_sections all_sections query_embedding persona_role task st;
  subsection_analysis ←
    analyze_subsections ranked_sections st query_embedding persona_role task;
  challenge_output doc_structures persona_role task ranked_sections st
    subsection_analysis.

(** [process_challenge] on the loaded document structures, the role of the
    persona and the task. *)
Definition process_challenge (doc_structures : list DocStructure)
  (persona_role task : string) : ChallengeError + ChallengeOutput :=
  match mapM extract_sections doc_structures with
  | Py.Raise e => inl (Raised e)
  | Py.Ok per_document =>
      let '(all_sections, st) := alloc (concat per_document) in
      let query_text := persona_role +:+ " " +:+ task in
      match encode query_text with
      | None => inl EncodeFailed
      | Some query_embedding =>
          match report doc_structures persona_role task query_embedding
                  all_sections st with
          | Py.Ok output => inr output
          | Py.Raise e => inl (Raised e)
          end
      end
  end.

End Challenge.

(** ** The embedding cache *)

Section EmbeddingCache.
Context `{Embedder}.

(** [hashlib.md5(text.encode()).hexdigest()]. *)
Variable md5 : string -> string.

(** The entries of the [lru_cache] wrapper, the most recently used first,
    and the global dict [_embedding_cache]. *)
Record CacheState : Type := mkCache {
  lru : list (string * Vec);
  embedding_cache : string -> option Vec
}.

Definition maxsize : nat := 1000.

Definition empty_cache : CacheState :=
  {| lru := []; embedding_cache := fun _ => None |}.

Definition lru_lookup (text : string) (entries : list (string * Vec))
  : option Vec :=
  snd <$> List.find (fun entry => String.eqb (fst entry) text) entries.

(** A hit moves the entry to the front. *)
Definition lru_touch (text : string) (v : Vec) (entries : list (string * Vec))
  : list (string * Vec) :=
  (text, v) :: List.filter (fun entry => negb (String.eqb (fst entry) text)) entries.

(** A miss stores the result in front; a full cache drops its oldest
    entry. *)
Definition lru_store (text : string) (v : Vec) (entries : list (string * Vec))
  : list (string * Vec) :=
  (text, v) :: take (maxsize - 1) entries.

(** [get_cached_embedding(text, model)]: the vector, or [None] when the
    model raises, and the caches after the call. *)
Definition get_cached_embedding (text : string) (s : CacheState)
  : option Vec * CacheState :=
  match lru_lookup text (lru s) with
  | Some v =>
      (Some v, {| lru := lru_touch text v (lru s);
                  embedding_cache := embedding_cache s |})
  | None =>
      let text_hash := md5 text in
      match embedding_cache s text_hash with
      | Some v =>
          (Some v, {| lru := lru_store text v (lru s);
                      embedding_cache := embedding_cache s |})
      | None =>
          match encode text with
          | Some v =>
              (Some v, {| lru := lru_store text v (lru s);
                          embedding_cache :=
                            <[text_hash := Some v]> (embedding_cache s) |})
          | None => (None, s)
          end
      end
  end.

(** A sequence of calls. *)
Fixpoint cached_embeddings (texts : list string) (s : CacheState)
  : list (option Vec) * CacheState :=
  match texts with
  | [] => ([], s)
  | text :: rest =>
      let '(r, s) := get_cached_embedding text s in
      let '(rs, s) := cached_embeddings rest s in
      (r :: rs, s)
  end.

(** What the caches hold after calls on texts of [seen]: an entry of the
    wrapper repeats the entry of the dict under the hash of its text, and
    an entry of the dict is the embedding of a text of [seen] with that
    hash. *)
Definition cache_sound (seen : list string) (s : CacheState) : Prop :=
  (forall t v, (t, v) ∈ lru s -> embedding_cache s (md5 t) = Some v)
  /\ (forall h v, embedding_cache s h = Some v ->
        exists t, t ∈ seen /\ md5 t = h /\ encode t = Some v).

End EmbeddingCache.

(** ** Further concrete inputs *)

Module Cases.

(** A list that names the first dict twice. *)
Definition twice : list loc := [0; 1; 0].

Definition five_texts : list string := ["a"; "bb"; "ccc"; "dddd"; "eeeee"].

(** Two document structures, the second with one complete entry. *)
Definition sides_doc : DocStructure :=
  {| filename := Some "Dinner Ideas - Sides_2.pdf";
     doc_sections :=
       Some [ {| raw_page_number := Some 4%Z; raw_heading := Some "Green Salad";
                 raw_text := Some "A fresh side for the corporate menu" |} ] |}.

Definition documents : list DocStructure := [Demo.raw_doc; sides_doc].

(** A hash that tells all texts apart, and one that tells none apart. *)
Definition own_hash (text : string) : string := text.
Definition same_hash (text : string) : string := "0".

(** A model that gives the zero vector for a text that contains [*]: the
    cosine of such a text with any query is 0/0, which is NaN. *)
Definition embed_flat (text : string) : option (list float) :=
  if Py.contains "*" text then Some [0.0; 0.0]%float else Demo.embed text.

Definition flat_embedder : Embedder :=
  {| Vec := list float; encode := embed_flat;
     np_dot := Demo.dot; np_norm := Demo.norm |}.

(** Five equal sections, one whose score is NaN and one that scores
    higher. *)
Definition starred : SectionDict := Demo.section_of "Notes.pdf" "Notes" "*".

Definition with_nan : list SectionDict :=
  [Demo.toast; Demo.toast; starred; Demo.toast; Demo.toast; Demo.toast;
   Demo.salad].

(** A section with one sentence whose score is NaN, in front of its best
    sentence. *)
Definition with_nan_sentence : SectionDict :=
  Demo.section_of "Breakfast Ideas.pdf" "Toast"
    "Toast the bread. Serve it warm. *. A vegetarian dinner menu".

End Cases.

Local Open Scope float_scope.

(** ** Tactics *)

(** Case analysis on the integer comparisons inside [SFcompare]. *)
Ltac cmp_cases :=
  repeat match goal with
  | |- context [Z.compare ?a ?b] => destruct (Z.compare_spec a b)
  | |- context [Pos.compare_cont Eq ?a ?b] =>
      change (Pos.compare_cont Eq a b) with (Pos.compare a b);
      destruct (Pos.compare_spec a b)
  end.

Ltac by_shape :=
  simpl; try reflexivity; try discriminate;
  cmp_cases; simpl; intros; try reflexivity; try discriminate; try lia.

(** Exposes the binds of the result monad. *)
Ltac unfold_result :=
  unfold mbind, mret, result_bind, result_ret, Py.bind in *.

(** * Properties *)

(** ** The order of binary64 numbers *)

Module FloatOrder.

Lemma SFltb_asym x y : SFltb x y = true -> SFltb y x = false.
Proof.
  unfold SFltb.
  destruct x as [[]|[]| |[] mx ex], y as [[]|[]| |[] my ey]; by_shape.
Qed.

Lemma SFltb_false_trans x y z :
  SFnan y = false ->
  SFltb x y = false -> SFltb y z = false -> SFltb x z = false.
Proof.
  unfold SFltb.
  destruct x as [[]|[]| |[] mx ex], y as [[]|[]| |[] my ey],
           z as [[]|[]| |[] mz ez]; by_shape.
Qed.

Lemma SFeqb_ltb x y : SFeqb x y = true -> SFltb x y = false.
Proof. unfold SFeqb, SFltb. destruct (SFcompare x y) as [[]|]; easy. Qed.

Lemma SFleb_ltb x y : SFleb x y = true -> SFltb y x = false.
Proof.
  unfold SFltb, SFleb.
  destruct x as [[]|[]| |[] mx ex], y as [[]|[]| |[] my ey]; by_shape.
Qed.

Lemma SFltb_false_leb x y :
  SFnan x = false -> SFnan y = false -> SFltb x y = false -> SFleb y x = true.
Proof.
  unfold SFltb, SFleb.
  destruct x as [[]|[]| |[] mx ex], y as [[]|[]| |[] my ey]; by_shape.
Qed.

Lemma not_nan_SFnan x : not_nan x -> SFnan (Prim2SF x) = false.
Proof.
  unfold not_nan, is_nan. rewrite FloatAxioms.eqb_spec. unfold SFeqb.
  destruct (Prim2SF x); simpl; try reflexivity. discriminate.
Qed.

Lemma ltb_asym x y : (x <? y) = true -> (y <? x) = false.
Proof. rewrite !FloatAxioms.ltb_spec. apply SFltb_asym. Qed.

Lemma ltb_false_trans x y z :
  not_nan y -> (x <? y) = false -> (y <? z) = false -> (x <? z) = false.
Proof.
  rewrite !FloatAxioms.ltb_spec. intros Hy. by apply SFltb_false_trans, not_nan_SFnan.
Qed.

Lemma eqb_ltb x y : (x =? y) = true -> (x <? y) = false.
Proof. rewrite FloatAxioms.eqb_spec, FloatAxioms.ltb_spec. apply SFeqb_ltb. Qed.

Lemma leb_ltb x y : (x <=? y) = true -> (y <? x) = false.
Proof. rewrite FloatAxioms.leb_spec, FloatAxioms.ltb_spec. apply SFleb_ltb. Qed.

Lemma ltb_false_leb x y :
  not_nan x -> not_nan y -> (x <? y) = false -> (y <=? x) = true.
Proof.
  rewrite FloatAxioms.ltb_spec, FloatAxioms.leb_spec. intros Hx Hy.
  by apply SFltb_false_leb; apply not_nan_SFnan.
Qed.

End FloatOrder.

(** ** Dynamic weights *)

(** C2. Whatever the number of entities, the numbers of constraints and
    the urgency of a query, the four weights that
    [calculate_dynamic_weights] returns add up to 1.0 within 1e-6, in
    binary64 arithmetic. *)
Theorem dynamic_weights_sum_to_one (q : QueryAnalysis) :
  within 1e-6 (weight_sum (calculate_dynamic_weights q)) 1.0 = true.
Proof.
  unfold calculate_dynamic_weights.
  destruct (5 <? length (core_entities q))%nat,
           (length (core_entities q) <? 3)%nat,
           (3 <? length (positive (constraints q))
                 + length (negative (constraints q)))%nat,
           (is_high (urgency (context q)));
    vm_compute; reflexivity.
Qed.

Local Close Scope float_scope.

(** ** Positions in lists *)

Section Positions.
Context {A : Type}.
Implicit Types (l : list A) (a b : A).

(** [a] occurs before [b]: the two-element list is a sublist. *)
Lemma lookup_lt_sublist l i j a b :
  i < j -> l !! i = Some a -> l !! j = Some b -> [a; b] `sublist_of` l.
Proof.
  intros Hij Hi Hj.
  rewrite <- (take_drop_middle l i a Hi).
  apply sublist_inserts_l, sublist_skip, singleton_sublist_l.
  apply list_elem_of_lookup. exists (j - S i).
  rewrite lookup_drop. replace (S i + (j - S i)) with j by lia. done.
Qed.

Lemma sublist_NoDup_lookup_lt l i j a b :
  NoDup l -> [a; b] `sublist_of` l ->
  l !! i = Some a -> l !! j = Some b -> i < j.
Proof.
  intros Hnd. revert i j.
  induction Hnd as [|x l Hx Hnd IH]; intros i j Hsub Hi Hj.
  - by apply sublist_nil_r in Hsub.
  - apply sublist_cons_r in Hsub as [Hsub|(l' & Heq & Hsub)].
    + assert (a ∈ l) by (eapply elem_of_sublist; [|done]; by left).
      assert (b ∈ l) by (eapply elem_of_sublist; [|done]; by right; left).
      destruct i as [|i]; simpl in Hi; [simplify_eq; done|].
      destruct j as [|j]; simpl in Hj; [simplify_eq; done|].
      apply (IH i j) in Hsub; [lia|done..].
    + simplify_eq.
      apply singleton_sublist_l in Hsub.
      destruct j as [|j]; simpl in Hj; [simplify_eq; done|].
      destruct i as [|i]; [lia|]. simpl in Hi.
      apply list_elem_of_lookup_2 in Hi. done.
Qed.

End Positions.

Lemma StronglySorted_lookup_lt {A} (R : relation A) l i j a b :
  StronglySorted R l -> i < j -> l !! i = Some a -> l !! j = Some b -> R a b.
Proof.
  intros Hs. revert i j.
  induction Hs as [|x l Hs IH Hx]; intros i j Hij Hi Hj; [done|].
  destruct j as [|j]; [lia|]. simpl in Hj.
  destruct i as [|i]; simpl in Hi.
  - simplify_eq. eapply Forall_lookup_1; done.
  - apply (IH i j); [lia|done..].
Qed.

(** ** The list sort *)

Section Sorting.
Context {A : Type} (key : A -> float).
Implicit Types (l run rest sorted : list A) (x a b pivot : A).
Local Abbreviation not_below := (not_below key).
Local Abbreviation islt := (islt key).
Local Abbreviation no_nan := (Forall (fun y => not_nan (key y))).

(** Ascending order: the later element is not less than the earlier. *)
Local Abbreviation ascending := (flip not_below).

(** *** The result is a rearrangement *)

Lemma binary_insert_perm sorted pivot :
  binary_insert key sorted pivot ≡ₚ pivot :: sorted.
Proof.
  unfold binary_insert. rewrite <- Permutation_middle.
  by rewrite take_drop.
Qed.

Lemma binary_insert_sublist sorted pivot :
  sorted `sublist_of` binary_insert key sorted pivot.
Proof.
  unfold binary_insert.
  set (i := bisect key _ _ _ _ _).
  rewrite <- (take_drop i sorted) at 1.
  apply sublist_app; [done|]. by apply sublist_cons.
Qed.

Lemma foldl_binary_insert_perm run rest :
  foldl (binary_insert key) run rest ≡ₚ run ++ rest.
Proof.
  revert run. induction rest as [|x rest IH]; intros run; simpl.
  - by rewrite app_nil_r.
  - rewrite IH, binary_insert_perm. simpl. apply Permutation_middle.
Qed.

Lemma list_sort_perm l : list_sort key l ≡ₚ l.
Proof.
  unfold list_sort. destruct (count_run key l) as [n descending].
  rewrite foldl_binary_insert_perm.
  transitivity (take n l ++ drop n l); [|by rewrite take_drop].
  apply Permutation_app_tail.
  destruct descending; [|done]. symmetry. apply Permutation_rev.
Qed.

Lemma sorted_desc_perm l : sorted_desc key l ≡ₚ l.
Proof.
  unfold sorted_desc.
  rewrite <- Permutation_rev, list_sort_perm. symmetry. apply Permutation_rev.
Qed.

Lemma sorted_desc_length l : length (sorted_desc key l) = length l.
Proof. apply Permutation_length, sorted_desc_perm. Qed.

(** *** Order in lists *)

Lemma StronglySorted_rev (R : relation A) l :
  StronglySorted R l -> StronglySorted (flip R) (rev l).
Proof.
  induction 1 as [|x l _ IH Hx]; simpl; [constructor|].
  apply StronglySorted_app_2; [|done|repeat constructor].
  intros y z Hy Hz. apply list_elem_of_singleton in Hz as ->.
  apply list_elem_of_In, in_rev, list_elem_of_In in Hy.
  rewrite Forall_forall in Hx. by apply Hx.
Qed.

Lemma StronglySorted_pair (R : relation A) l a b :
  StronglySorted R l -> [a; b] `sublist_of` l -> R a b.
Proof.
  intros Hs Hsub.
  apply sublist_cons_l in Hsub as (k1 & k2 & -> & Hb).
  apply singleton_sublist_l in Hb.
  apply StronglySorted_app_1_r, StronglySorted_inv in Hs as [_ Ha].
  rewrite Forall_forall in Ha. by apply Ha.
Qed.

Lemma sublist_rev l1 l2 : l1 `sublist_of` l2 -> rev l1 `sublist_of` rev l2.
Proof.
  induction 1 as [|x l1 l2 _ IH|x l1 l2 _ IH]; simpl; [done| |].
  - by apply sublist_app.
  - rewrite <- (app_nil_r (rev l1)). apply sublist_app; [done|].
    apply sublist_nil_l.
Qed.

Lemma pair_sublist_snoc l x a b :
  [a; b] `sublist_of` l ++ [x] ->
  [a; b] `sublist_of` l \/ (b = x /\ a ∈ l).
Proof.
  intros Hsub. apply sublist_app_r in Hsub as (l1 & l2 & Heq & H1 & H2).
  apply sublist_cons_r in H2 as [H2|(l' & -> & H2)].
  - apply sublist_nil_r in H2 as ->. rewrite app_nil_r in Heq. subst l1.
    by left.
  - apply sublist_nil_r in H2 as ->.
    destruct l1 as [|a' [|b' l1]]; simplify_eq/=.
    + right. split; [done|]. by apply singleton_sublist_l.
    + by destruct l1.
Qed.

(** *** The order of the keys

    Without NaN, [<] on the keys is a strict weak order. *)

Lemma islt_asym x y : islt x y = true -> islt y x = false.
Proof. apply FloatOrder.ltb_asym. Qed.

Lemma islt_false_trans x y z :
  not_nan (key y) -> islt x y = false -> islt y z = false -> islt x z = false.
Proof. apply FloatOrder.ltb_false_trans. Qed.

Lemma islt_trans x y z :
  not_nan (key z) -> islt x y = true -> islt y z = true -> islt x z = true.
Proof.
  intros Hz Hxy Hyz. destruct (islt x z) eqn:Hxz; [done|].
  apply islt_asym in Hyz.
  by rewrite (islt_false_trans x z y Hz Hxz Hyz) in Hxy.
Qed.

Lemma StronglySorted_mono (R1 R2 : relation A) l :
  (forall x y, R1 x y -> R2 x y) -> StronglySorted R1 l -> StronglySorted R2 l.
Proof.
  intros Himpl. induction 1 as [|x l _ IH Hx]; constructor; [done|].
  eapply Forall_impl; [exact Hx|]. apply Himpl.
Qed.

Lemma no_nan_rev l : no_nan l -> no_nan (rev l).
Proof.
  rewrite !Forall_forall. intros Hall x Hx.
  apply Hall. by apply list_elem_of_In, in_rev, list_elem_of_In.
Qed.

(** *** The run at the front *)

Lemma run_descending_sorted prev l :
  no_nan (prev :: l) ->
  StronglySorted (fun a b => islt b a = true)
                 (prev :: take (run_descending key prev l) l).
Proof.
  revert prev. induction l as [|x l IH]; intros prev Hnan; simpl.
  - repeat constructor.
  - apply Forall_cons in Hnan as [Hprev Hnan].
    destruct (islt x prev) eqn:Hx; simpl; [|repeat constructor].
    specialize (IH x Hnan). constructor; [done|].
    constructor; [done|].
    apply StronglySorted_inv in IH as [_ IH].
    eapply Forall_impl; [exact IH|]. intros y Hy. simpl in Hy.
    by apply (islt_trans y x prev).
Qed.

Lemma run_ascending_sorted prev l :
  no_nan (prev :: l) ->
  StronglySorted ascending (prev :: take (run_ascending key prev l) l).
Proof.
  revert prev. induction l as [|x l IH]; intros prev Hnan; simpl.
  - repeat constructor.
  - apply Forall_cons in Hnan as [Hprev Hnan].
    destruct (islt x prev) eqn:Hx; simpl; [repeat constructor|].
    pose proof Hnan as Hnan'. apply Forall_cons in Hnan' as [Hnx _].
    specialize (IH x Hnan). constructor; [done|].
    constructor; [done|].
    apply StronglySorted_inv in IH as [_ IH].
    eapply Forall_impl; [exact IH|]. intros y Hy.
    by apply (islt_false_trans y x prev).
Qed.

Lemma count_run_sorted l n descending :
  count_run key l = (n, descending) ->
  no_nan l ->
  StronglySorted ascending (if descending then rev (take n l) else take n l)
  /\ (descending = true ->
      StronglySorted (fun a b => islt b a = true) (take n l)).
Proof.
  intros Hrun Hnan. destruct l as [|x [|y rest]].
  - injection Hrun as <- <-. split; [constructor|done].
  - injection Hrun as <- <-. split; [repeat constructor|done].
  - simpl in Hrun. destruct (islt y x) eqn:Hyx; injection Hrun as <- <-.
    + pose proof (run_descending_sorted x (y :: rest) Hnan) as Hs.
      simpl in Hs. rewrite Hyx in Hs. simpl in Hs. split; [|done].
      apply StronglySorted_rev in Hs.
      eapply StronglySorted_mono; [|exact Hs].
      intros a b Hab. by apply islt_asym.
    + pose proof (run_ascending_sorted x (y :: rest) Hnan) as Hs.
      simpl in Hs. rewrite Hyx in Hs. simpl in Hs. by split.
Qed.

(** *** The binary search *)

Lemma half_bounds (n : nat) : 0 < n -> n / 2 < n /\ n - S (n / 2) <= n / 2.
Proof.
  intros Hn. pose proof (Nat.div_mod_eq n 2) as Hdiv.
  pose proof (Nat.mod_upper_bound n 2 ltac:(lia)) as Hmod. lia.
Qed.

Lemma bisect_spec pivot sorted fuel (lo hi : nat) :
  StronglySorted ascending sorted ->
  no_nan sorted ->
  lo <= hi <= length sorted ->
  hi - lo <= fuel ->
  (forall j y, j < lo -> sorted !! j = Some y -> islt pivot y = false) ->
  (forall j y, hi <= j -> sorted !! j = Some y -> islt pivot y = true) ->
  let i := bisect key fuel pivot sorted lo hi in
  i <= length sorted
  /\ (forall j y, j < i -> sorted !! j = Some y -> islt pivot y = false)
  /\ (forall j y, i <= j -> sorted !! j = Some y -> islt pivot y = true).
Proof.
  intros Hsorted Hnan. revert lo hi.
  induction fuel as [|fuel IH]; intros lo hi Hbounds Hfuel Hlow Hhigh;
    cbn [bisect]; cbv zeta.
  - split; [lia|]. split; [done|].
    intros j y Hj. apply Hhigh. lia.
  - destruct (lo <? hi)%nat eqn:Hlt.
    2:{ apply Nat.ltb_ge in Hlt. split; [lia|]. split; [done|].
        intros j y Hj. apply Hhigh. lia. }
    apply Nat.ltb_lt in Hlt.
    destruct (half_bounds (hi - lo) ltac:(lia)) as [Hhalf1 Hhalf2].
    set (p := lo + (hi - lo) / 2) in *.
    destruct (lookup_lt_is_Some_2 sorted p ltac:(lia)) as [y Hy].
    rewrite Hy.
    assert (Hny : not_nan (key y)).
    { rewrite Forall_forall in Hnan. by eapply Hnan, list_elem_of_lookup_2. }
    destruct (islt pivot y) eqn:Hpy.
    + apply IH; [lia|lia|done|].
      intros j z Hj Hz.
      destruct (decide (j = p)) as [->|Hne]; [congruence|].
      pose proof (StronglySorted_lookup_lt _ _ p j y z Hsorted
                    ltac:(lia) Hy Hz) as Hyz.
      destruct (islt pivot z) eqn:Hpz; [done|].
      assert (Hnz : not_nan (key z)).
      { rewrite Forall_forall in Hnan. by eapply Hnan, list_elem_of_lookup_2. }
      by rewrite (islt_false_trans pivot z y Hnz Hpz Hyz) in Hpy.
    + apply IH; [lia|lia| |done].
      intros j z Hj Hz.
      destruct (decide (j = p)) as [->|Hne]; [congruence|].
      pose proof (StronglySorted_lookup_lt _ _ j p z y Hsorted
                    ltac:(lia) Hz Hy) as Hzy.
      by apply (islt_false_trans pivot y z).
Qed.

Lemma binary_insert_place sorted pivot :
  StronglySorted ascending sorted ->
  no_nan sorted ->
  let i := bisect key (length sorted) pivot sorted 0 (length sorted) in
  Forall (fun y => islt pivot y = false) (take i sorted)
  /\ Forall (fun y => islt pivot y = true) (drop i sorted).
Proof.
  intros Hsorted Hnan i.
  destruct (bisect_spec pivot sorted (length sorted) 0 (length sorted)
              Hsorted Hnan ltac:(lia) ltac:(lia))
    as (Hi & Hlow & Hhigh).
  { intros j y Hj. lia. }
  { intros j y Hj Hy. apply lookup_lt_Some in Hy. lia. }
  fold i in Hi, Hlow, Hhigh. split; apply Forall_lookup.
  - intros j y Hj. apply lookup_take_Some in Hj as [Hj Hlt]. by eapply Hlow.
  - intros j y Hj. rewrite lookup_drop in Hj. eapply Hhigh; [|exact Hj]. lia.
Qed.

Lemma binary_insert_sorted sorted pivot :
  StronglySorted ascending sorted ->
  no_nan sorted ->
  StronglySorted ascending (binary_insert key sorted pivot).
Proof.
  intros Hsorted Hnan.
  destruct (binary_insert_place sorted pivot Hsorted Hnan) as [Hlow Hhigh].
  unfold binary_insert. set (i := bisect key _ _ _ _ _) in *.
  rewrite <- (take_drop i sorted) in Hsorted.
  apply StronglySorted_app in Hsorted as (Hcross & Htake & Hdrop).
  apply StronglySorted_app_2; [|done|].
  - intros y z Hy Hz. rewrite Forall_forall in Hlow.
    apply elem_of_cons in Hz as [->|Hz]; [by apply Hlow|by apply Hcross].
  - constructor; [done|].
    eapply Forall_impl; [exact Hhigh|]. intros y Hy. by apply islt_asym.
Qed.

(** A pivot stays behind the elements it is not less than. *)
Lemma binary_insert_behind sorted pivot a :
  StronglySorted ascending sorted ->
  no_nan sorted ->
  a ∈ sorted -> islt pivot a = false ->
  [a; pivot] `sublist_of` binary_insert key sorted pivot.
Proof.
  intros Hsorted Hnan Ha Hpa.
  destruct (binary_insert_place sorted pivot Hsorted Hnan) as [Hlow Hhigh].
  unfold binary_insert. set (i := bisect key _ _ _ _ _) in *.
  rewrite <- (take_drop i sorted) in Ha.
  apply elem_of_app in Ha as [Ha|Ha].
  - change [a; pivot] with ([a] ++ [pivot]).
    apply sublist_app; [by apply singleton_sublist_l|].
    by apply sublist_skip, sublist_nil_l.
  - rewrite Forall_forall in Hhigh. by rewrite (Hhigh a Ha) in Hpa.
Qed.

(** *** The insertions *)

Lemma foldl_binary_insert_spec (seen cur rest : list A) :
  no_nan (seen ++ rest) ->
  cur ≡ₚ seen ->
  StronglySorted ascending cur ->
  (forall a b, [a; b] `sublist_of` seen -> islt b a = false ->
               [a; b] `sublist_of` cur) ->
  StronglySorted ascending (foldl (binary_insert key) cur rest)
  /\ (forall a b, [a; b] `sublist_of` seen ++ rest -> islt b a = false ->
                  [a; b] `sublist_of` foldl (binary_insert key) cur rest).
Proof.
  revert seen cur. induction rest as [|x rest IH];
    intros seen cur Hnan Hperm Hsorted Hstable; simpl.
  - rewrite app_nil_r. by split.
  - assert (Hncur : no_nan cur).
    { rewrite Hperm. by apply Forall_app in Hnan as [? _]. }
    replace (seen ++ x :: rest) with ((seen ++ [x]) ++ rest) in *
      by (by rewrite <- app_assoc).
    apply IH; [done| | |].
    + rewrite binary_insert_perm, Hperm. by rewrite Permutation_cons_append.
    + by apply binary_insert_sorted.
    + intros a b Hab Hba.
      apply pair_sublist_snoc in Hab as [Hab|[-> Ha]].
      * etrans; [by apply Hstable|]. apply binary_insert_sublist.
      * apply binary_insert_behind; [done..| |done]. by rewrite Hperm.
Qed.

Lemma list_sort_spec l :
  no_nan l ->
  StronglySorted ascending (list_sort key l)
  /\ (forall a b, [a; b] `sublist_of` l -> islt b a = false ->
                  [a; b] `sublist_of` list_sort key l).
Proof.
  intros Hnan. unfold list_sort.
  destruct (count_run key l) as [n descending] eqn:Hrun.
  destruct (count_run_sorted l n descending Hrun Hnan) as [Hsorted Hstrict].
  assert (Hgoal : forall r,
            StronglySorted ascending r
            /\ (forall a b, [a; b] `sublist_of` take n l ++ drop n l ->
                            islt b a = false -> [a; b] `sublist_of` r) ->
            StronglySorted ascending r
            /\ (forall a b, [a; b] `sublist_of` l ->
                            islt b a = false -> [a; b] `sublist_of` r)).
  { intros r. by rewrite take_drop. }
  apply Hgoal. apply foldl_binary_insert_spec.
  - by rewrite take_drop.
  - destruct descending; [|done]. symmetry. apply Permutation_rev.
  - done.
  - destruct descending; [|done]. intros a b Hab Hba.
    by rewrite (StronglySorted_pair _ _ _ _ (Hstrict eq_refl) Hab) in Hba.
Qed.

(** *** The descending sort *)

(** Without NaN keys the result is in descending order. *)
Lemma sorted_desc_sorted l :
  no_nan l -> StronglySorted not_below (sorted_desc key l).
Proof.
  intros Hnan. unfold sorted_desc.
  destruct (list_sort_spec (rev l) (no_nan_rev l Hnan)) as [Hsorted _].
  apply StronglySorted_rev in Hsorted.
  eapply StronglySorted_mono; [|exact Hsorted]. by intros x y.
Qed.

(** Stability: without NaN keys, a pair that is already in descending
    order keeps its relative position. *)
Lemma sorted_desc_stable a b l :
  no_nan l ->
  [a; b] `sublist_of` l -> not_below a b ->
  [a; b] `sublist_of` sorted_desc key l.
Proof.
  intros Hnan Hsub Hab. unfold sorted_desc.
  destruct (list_sort_spec (rev l) (no_nan_rev l Hnan)) as [_ Hstable].
  apply (sublist_rev [b; a]). apply Hstable; [|done].
  by apply (sublist_rev [a; b]).
Qed.

End Sorting.

(** The sort looks at its elements through the keys only. *)

Section SortKeys.
Context {A B : Type} (key : A -> float) (g : B -> A).

Lemma run_descending_map prev l :
  run_descending key (g prev) (map g l) = run_descending (key ∘ g) prev l.
Proof.
  revert prev. induction l as [|x l IH]; intros prev; simpl; [done|].
  unfold islt. simpl. by rewrite IH.
Qed.

Lemma run_ascending_map prev l :
  run_ascending key (g prev) (map g l) = run_ascending (key ∘ g) prev l.
Proof.
  revert prev. induction l as [|x l IH]; intros prev; simpl; [done|].
  unfold islt. simpl. by rewrite IH.
Qed.

Lemma count_run_map l : count_run key (map g l) = count_run (key ∘ g) l.
Proof.
  destruct l as [|x [|y rest]]; simpl; [done..|].
  unfold islt. simpl.
  by rewrite run_descending_map, run_ascending_map.
Qed.

Lemma bisect_map fuel pivot sorted lo hi :
  bisect key fuel (g pivot) (map g sorted) lo hi
  = bisect (key ∘ g) fuel pivot sorted lo hi.
Proof.
  revert lo hi. induction fuel as [|fuel IH]; intros lo hi; cbn [bisect];
    [done|].
  destruct (lo <? hi)%nat; [|done].
  change (map g sorted) with (g <$> sorted). rewrite list_lookup_fmap.
  destruct (sorted !! _) as [y|]; simpl; [|done].
  unfold islt. simpl. change (g <$> sorted) with (map g sorted).
  by rewrite !IH.
Qed.

Lemma binary_insert_map sorted pivot :
  binary_insert key (map g sorted) (g pivot)
  = map g (binary_insert (key ∘ g) sorted pivot).
Proof.
  unfold binary_insert. rewrite length_map, bisect_map.
  rewrite map_app. simpl. by rewrite firstn_map, skipn_map.
Qed.

Lemma foldl_binary_insert_map cur rest :
  foldl (binary_insert key) (map g cur) (map g rest)
  = map g (foldl (binary_insert (key ∘ g)) cur rest).
Proof.
  revert cur. induction rest as [|x rest IH]; intros cur; simpl; [done|].
  by rewrite binary_insert_map, IH.
Qed.

Lemma list_sort_map l : list_sort key (map g l) = map g (list_sort (key ∘ g) l).
Proof.
  unfold list_sort. rewrite count_run_map.
  destruct (count_run (key ∘ g) l) as [n descending].
  rewrite firstn_map, skipn_map, <- foldl_binary_insert_map.
  destruct descending; [|done]. by rewrite map_rev.
Qed.

Lemma sorted_desc_map l :
  sorted_desc key (map g l) = map g (sorted_desc (key ∘ g) l).
Proof.
  unfold sorted_desc. by rewrite <- map_rev, list_sort_map, map_rev.
Qed.

End SortKeys.

(** ** The result monad *)

Lemma mapM_result_ok {A B} (f : A -> Py.result B) (g : A -> B) l :
  Forall (fun x => f x = Py.Ok (g x)) l -> mapM f l = Py.Ok (map g l).
Proof.
  induction 1 as [|x l Hx _ IH]; simpl; [done|].
  unfold_result. by rewrite Hx, IH.
Qed.

Lemma mapM_result_inv {A B} (f : A -> Py.result B) l k :
  mapM f l = Py.Ok k -> Forall2 (fun x y => f x = Py.Ok y) l k.
Proof.
  revert k. induction l as [|x l IH]; simpl; intros k Hk.
  - unfold_result. simplify_eq. constructor.
  - unfold_result. destruct (f x) as [y|] eqn:Hx; [|done].
    destruct (mapM f l) as [k'|]; [|done]. simplify_eq.
    constructor; [done|]. by apply IH.
Qed.

(** ** Properties of the scorer *)

(** The matching loops do not depend on the order of the needles: every
    hit adds the same constant. *)
Lemma add_hits_perm bonus hay l1 l2 :
  l1 ≡ₚ l2 -> forall acc, add_hits bonus hay acc l1 = add_hits bonus hay acc l2.
Proof.
  unfold add_hits.
  induction 1 as [|x l1 l2 _ IH|x y l|l1 l2 l3 _ IH1 _ IH2]; intros acc; simpl.
  - done.
  - apply IH.
  - by destruct (Py.contains x hay), (Py.contains y hay).
  - by rewrite IH1.
Qed.

Lemma sub_hits_perm malus hay l1 l2 :
  l1 ≡ₚ l2 -> forall acc, sub_hits malus hay acc l1 = sub_hits malus hay acc l2.
Proof.
  unfold sub_hits.
  induction 1 as [|x l1 l2 _ IH|x y l|l1 l2 l3 _ IH1 _ IH2]; intros acc; simpl.
  - done.
  - apply IH.
  - by destruct (Py.contains x hay), (Py.contains y hay).
  - by rewrite IH1.
Qed.

Section ScorerFacts.
Context `{Embedder}.
Implicit Types (s : SectionDict) (q : QueryAnalysis).

(** The scorer reads the title, the text and the document name only. *)
Lemma score_set_similarity_score s v q qe :
  calculate_multi_factor_score (set_similarity_score s v) q qe
  = calculate_multi_factor_score s q qe.
Proof. done. Qed.

Lemma score_set_importance_rank s r q qe :
  calculate_multi_factor_score (set_importance_rank s r) q qe
  = calculate_multi_factor_score s q qe.
Proof. done. Qed.

(** It returns exactly on the dicts that have its three keys. *)
Lemma score_ok_iff s q qe :
  (exists v, calculate_multi_factor_score s q qe = Py.Ok v) <-> scorable s.
Proof.
  unfold calculate_multi_factor_score, scorable. unfold_result.
  destruct (section_title s), (text s), (document s); simpl;
    split; try (intros [v Hv]; done); try (intros (? & ? & ?); by eauto);
    intros ([? ?] & [? ?] & [? ?]); done.
Qed.

(** It does not depend on the order in which a set was listed. *)
Lemma score_query_equiv s q1 q2 qe :
  query_equiv q1 q2 ->
  calculate_multi_factor_score s q1 qe = calculate_multi_factor_score s q2 qe.
Proof.
  intros (Hc & Hp & Hn & Hctx & Hper).
  unfold calculate_multi_factor_score, keyword_score, title_score,
    penalty_score, document_priority_score, context_bonuses.
  rewrite Hctx, Hper.
  rewrite <- (Permutation_length Hc), <- (Permutation_length Hp).
  destruct (section_title s) as [t|]; [|done].
  destruct (text s) as [x|]; [|done].
  destruct (document s) as [d|]; [|done]. simpl.
  rewrite !(add_hits_perm _ _ _ _ Hc), !(add_hits_perm _ _ _ _ Hp),
    !(add_hits_perm _ _ _ _ Hn).
  done.
Qed.

End ScorerFacts.

(** ** Properties of the rank loop *)

Lemma assign_ranks_spec ranked i (st : store) l :
  assign_ranks i ranked st l
  = match rank_after i ranked l with
    | Some r => set_importance_rank (st l) r
    | None => st l
    end.
Proof.
  revert i st. induction ranked as [|s rest IH]; intros i st; simpl; [done|].
  rewrite IH. destruct (rank_after (S i) rest l) as [r|].
  - destruct (decide (s = l)) as [->|Hne].
    + by rewrite fn_lookup_insert.
    + by rewrite fn_lookup_insert_ne.
  - destruct (decide (s = l)) as [->|Hne].
    + by rewrite fn_lookup_insert.
    + by rewrite fn_lookup_insert_ne.
Qed.

Lemma rank_after_None ranked i l : l ∉ ranked -> rank_after i ranked l = None.
Proof.
  revert i. induction ranked as [|s rest IH]; intros i Hl; simpl; [done|].
  apply not_elem_of_cons in Hl as [Hne Hl].
  rewrite IH by done. by destruct (decide (s = l)).
Qed.

(** Without aliasing the rank of a dict is its position, counted from 1. *)
Lemma rank_after_lookup ranked i k l :
  NoDup ranked -> ranked !! k = Some l ->
  rank_after i ranked l = Some (Z.of_nat (i + k) + 1)%Z.
Proof.
  intros Hnd. revert i k.
  induction Hnd as [|s rest Hs Hnd IH]; intros i k Hk; [done|]. simpl.
  destruct k as [|k]; simpl in Hk.
  - simplify_eq. rewrite rank_after_None by done.
    destruct (decide (l = l)); [|done]. do 3 f_equal. lia.
  - rewrite (IH (S i) k) by done. do 3 f_equal. lia.
Qed.

Section RankingFacts.
Context `{Embedder} `{Nltk} `{SetOrder}.
Implicit Types (q : QueryAnalysis) (st : store) (sections : list loc).

(** The scoring loop writes the score of every listed dict, and nothing
    else. *)
Lemma score_sections_spec q qe sections st st' :
  score_sections q qe sections st = Py.Ok st' ->
  forall l,
    (l ∈ sections ->
     exists v, calculate_multi_factor_score (st l) q qe = Py.Ok v
               /\ st' l = set_similarity_score (st l) v)
    /\ (l ∉ sections -> st' l = st l).
Proof.
  revert st. induction sections as [|s rest IH]; intros st Hrun l.
  - simpl in Hrun. unfold_result. simplify_eq.
    split; [by intros ?%elem_of_nil|done].
  - simpl in Hrun. unfold_result.
    destruct (calculate_multi_factor_score (st s) q qe) as [v|] eqn:Hs; [|done].
    destruct (IH _ Hrun l) as [IHin IHout]. clear IH.
    destruct (decide (l = s)) as [->|Hne].
    + rewrite fn_lookup_insert in IHin, IHout.
      split; [intros _|intros []; by left].
      exists v. split; [done|].
      destruct (decide (s ∈ rest)) as [Hin|Hout].
      * destruct (IHin Hin) as (v' & Hv' & ->).
        rewrite score_set_similarity_score, Hs in Hv'.
        injection Hv' as <-. reflexivity.
      * by apply IHout.
    + rewrite fn_lookup_insert_ne in IHin, IHout by done.
      split.
      * intros [?|Hin]%elem_of_cons; [done|]. by apply IHin.
      * intros [_ Hout]%not_elem_of_cons. by apply IHout.
Qed.

(** It completes when every listed dict has the keys of the scorer. *)
Lemma score_sections_total q qe sections st :
  Forall (fun l => scorable (st l)) sections ->
  exists st', score_sections q qe sections st = Py.Ok st'.
Proof.
  revert st. induction sections as [|s rest IH]; intros st Hall; simpl.
  - by eexists.
  - apply Forall_cons in Hall as [Hs Hrest].
    apply (score_ok_iff _ q qe) in Hs as [v Hv].
    unfold_result. rewrite Hv. apply IH.
    eapply Forall_impl; [exact Hrest|]. intros l Hl. simpl in Hl.
    destruct (decide (s = l)) as [->|Hne].
    + by rewrite fn_lookup_insert.
    + by rewrite fn_lookup_insert_ne.
Qed.

(** The run of the three steps, in closed form. *)
Lemma rank_sections_spec q qe sections st ranked st' :
  rank_sections q qe sections st = Py.Ok (ranked, st') ->
  ranked = sorted_desc (score_of q qe st) sections
  /\ Forall (fun l => scorable (st l)) sections
  /\ forall l,
      st' l
      = let scored :=
          if decide (l ∈ sections)
          then set_similarity_score (st l) (score_of q qe st l)
          else st l in
        match rank_after 0 ranked l with
        | Some r => set_importance_rank scored r
        | None => scored
        end.
Proof.
  unfold rank_sections. unfold_result.
  destruct (score_sections q qe sections st) as [st1|] eqn:Hscore; [|done].
  pose proof (score_sections_spec _ _ _ _ _ Hscore) as Hst1.
  assert (Hkeys : score_keys st1 sections
                  = Py.Ok (map (fun l => (score_of q qe st l, l)) sections)).
  { apply mapM_result_ok, Forall_forall. intros l Hl.
    destruct (Hst1 l) as [Hin _]. destruct (Hin Hl) as (v & Hv & ->).
    unfold score_of. rewrite Hv. done. }
  rewrite Hkeys. intros Hret. simplify_eq.
  rewrite (sorted_desc_map fst), map_map. simpl. rewrite map_id.
  split; [done|]. split.
  - apply Forall_forall. intros l Hl. destruct (Hst1 l) as [Hin _].
    destruct (Hin Hl) as (v & Hv & _). apply (score_ok_iff _ q qe). eauto.
  - intros l. rewrite assign_ranks_spec. simpl.
    destruct (Hst1 l) as [Hin Hout].
    destruct (decide (l ∈ sections)) as [Hl|Hl].
    + destruct (Hin Hl) as (v & Hv & ->). unfold score_of. by rewrite Hv.
    + by rewrite (Hout Hl).
Qed.

Lemma rank_sections_total q qe sections st :
  Forall (fun l => scorable (st l)) sections ->
  exists ranked st', rank_sections q qe sections st = Py.Ok (ranked, st').
Proof.
  intros Hall. destruct (score_sections_total q qe _ _ Hall) as [st1 Hst1].
  pose proof (score_sections_spec _ _ _ _ _ Hst1) as Hspec.
  assert (Hkeys : score_keys st1 sections
                  = Py.Ok (map (fun l => (score_of q qe st l, l)) sections)).
  { apply mapM_result_ok, Forall_forall. intros l Hl.
    destruct (Hspec l) as [Hin _]. destruct (Hin Hl) as (v & Hv & ->).
    unfold score_of. rewrite Hv. done. }
  unfold rank_sections. unfold_result. rewrite Hst1, Hkeys.
  by do 2 eexists.
Qed.

End RankingFacts.

(** ** Ranking *)

Lemma ranks_by_position (f : loc -> option Z) ranked i :
  (forall k l, ranked !! k = Some l -> f l = Some (Z.of_nat (i + k) + 1)%Z) ->
  map f ranked = map (fun n => Some (Z.of_nat n + 1)%Z) (seq i (length ranked)).
Proof.
  revert i. induction ranked as [|l rest IH]; intros i Hf; simpl; [done|].
  f_equal.
  - rewrite (Hf 0 l) by done. do 3 f_equal. lia.
  - apply IH. intros k l' Hk. rewrite (Hf (S k) l') by done.
    do 3 f_equal. lia.
Qed.

(** C4, as the code has it.  [analyze_sections] sorts the sections with
    Python's sort, by descending score, and numbers them from 1 in the
    order of the result.  For a list of distinct, scorable dicts the call
    returns; the ranked list is a rearrangement of the input; every dict
    carries its computed score; the rank of a dict is its 1-based position
    in the ranked list, so the ranks are exactly 1..n; and, no score being
    NaN, the scores descend along the ranked list and of two sections with
    equal scores the one that is earlier in the input has the strictly
    lower rank. *)
Theorem analyze_sections_stable_ranking `{Embedder} `{Nltk} `{SetOrder}
  (sections : list loc) (qe : Vec) (persona job : string) (st : store) :
  NoDup sections ->
  Forall (fun l => scorable (st l)) sections ->
  exists ranked st',
    analyze_sections sections qe persona job st = Py.Ok (ranked, st')
    /\ ranked ≡ₚ sections
    /\ (forall l v,
          l ∈ sections ->
          calculate_multi_factor_score (st l)
            (analyze_query_structure persona job) qe = Py.Ok v ->
          similarity_score (st' l) = Some v)
    /\ (forall i l,
          ranked !! i = Some l ->
          importance_rank (st' l) = Some (Z.of_nat i + 1)%Z)
    /\ map (fun l => importance_rank (st' l)) ranked
       = map (fun n => Some (Z.of_nat n + 1)%Z) (seq 0 (length sections))
    /\ ((forall l x,
           l ∈ sections -> similarity_score (st' l) = Some x -> not_nan x) ->
        (forall i j a b x y,
           i < j -> ranked !! i = Some a -> ranked !! j = Some b ->
           similarity_score (st' a) = Some x ->
           similarity_score (st' b) = Some y ->
           (y <=? x)%float = true)
        /\ (forall i j a b x y,
              i < j -> sections !! i = Some a -> sections !! j = Some b ->
              similarity_score (st' a) = Some x ->
              similarity_score (st' b) = Some y ->
              (x =? y)%float = true ->
              exists ra rb,
                importance_rank (st' a) = Some ra
                /\ importance_rank (st' b) = Some rb
                /\ (ra < rb)%Z)).
Proof.
  intros Hnd Hall. set (q := analyze_query_structure persona job).
  destruct (rank_sections_total q qe _ _ Hall) as (ranked & st' & Hrun).
  exists ranked, st'. split; [exact Hrun|].
  apply rank_sections_spec in Hrun as (Hranked & _ & Hst').
  set (k := score_of q qe st) in *.
  assert (Hperm : ranked ≡ₚ sections) by (subst; apply sorted_desc_perm).
  assert (Hnd' : NoDup ranked) by by rewrite Hperm.
  assert (Hsim : forall l, l ∈ sections -> similarity_score (st' l) = Some (k l)).
  { intros l Hl. rewrite Hst'. simpl.
    destruct (decide (l ∈ sections)); [|done].
    by destruct (rank_after 0 ranked l). }
  assert (Hrank : forall i l, ranked !! i = Some l ->
                    importance_rank (st' l) = Some (Z.of_nat i + 1)%Z).
  { intros i l Hi. rewrite Hst'. simpl.
    by rewrite (rank_after_lookup _ 0 i l Hnd' Hi). }
  split; [done|]. split.
  { intros l v Hl Hv. rewrite (Hsim l Hl). unfold k, score_of.
    fold q. by rewrite Hv. }
  split; [done|]. split.
  { rewrite <- (Permutation_length Hperm). by apply ranks_by_position. }
  intros Hnan. split.
  - intros i j a b x y Hij Hi Hj Hx Hy.
    assert (Ha : a ∈ sections)
      by (rewrite <- Hperm; by eapply list_elem_of_lookup_2).
    assert (Hb : b ∈ sections)
      by (rewrite <- Hperm; by eapply list_elem_of_lookup_2).
    pose proof (Hnan a x Ha Hx) as Hnx. pose proof (Hnan b y Hb Hy) as Hny.
    rewrite (Hsim a Ha) in Hx. rewrite (Hsim b Hb) in Hy.
    injection Hx as <-. injection Hy as <-.
    apply FloatOrder.ltb_false_leb; [done..|].
    assert (Hsorted : StronglySorted (not_below k) ranked).
    { rewrite Hranked. apply sorted_desc_sorted, Forall_forall.
      intros l Hl. apply (Hnan l); [done|]. by apply Hsim. }
    exact (StronglySorted_lookup_lt _ _ _ _ _ _ Hsorted Hij Hi Hj).
  - intros i j a b x y Hij Hi Hj Hx Hy Hxy.
    assert (Ha : a ∈ sections) by by eapply list_elem_of_lookup_2.
    assert (Hb : b ∈ sections) by by eapply list_elem_of_lookup_2.
    rewrite (Hsim a Ha) in Hx. rewrite (Hsim b Hb) in Hy.
    injection Hx as <-. injection Hy as <-.
    assert (Hsub : [a; b] `sublist_of` ranked).
    { rewrite Hranked. apply sorted_desc_stable.
      - apply Forall_forall. intros l Hl. apply (Hnan l); [done|].
        by apply Hsim.
      - by eapply lookup_lt_sublist.
      - by apply FloatOrder.eqb_ltb. }
    rewrite <- Hperm in Ha, Hb.
    apply list_elem_of_lookup_1 in Ha as [ia Hia].
    apply list_elem_of_lookup_1 in Hb as [ib Hib].
    pose proof (sublist_NoDup_lookup_lt _ _ _ _ _ Hnd' Hsub Hia Hib).
    exists (Z.of_nat ia + 1)%Z, (Z.of_nat ib + 1)%Z.
    split; [by apply Hrank|]. split; [by apply Hrank|]. lia.
Qed.

(** ** Determinism *)

Lemma sorted_desc_ext {A} (k1 k2 : A -> float) l :
  (forall x, k1 x = k2 x) -> sorted_desc k1 l = sorted_desc k2 l.
Proof.
  intros Hk.
  assert (Htag : forall k : A -> float,
            sorted_desc k l
            = map snd (sorted_desc fst (map (fun x => (k x, x)) l))).
  { intros k. rewrite (sorted_desc_map fst (fun x => (k x, x))), map_map.
    simpl. by rewrite map_id. }
  rewrite (Htag k1), (Htag k2). do 2 f_equal.
  apply map_ext. intros x. by rewrite Hk.
Qed.

(** Two analyses of one request agree up to the order of the sets. *)
Lemma analyze_query_structure_equiv `{Nltk} (O1 O2 : SetOrder) persona job :
  query_equiv (@analyze_query_structure _ O1 persona job)
              (@analyze_query_structure _ O2 persona job).
Proof.
  assert (Hset : forall l, @list_set O1 l ≡ₚ @list_set O2 l).
  { intros l. unfold list_set.
    by rewrite (@set_order_perm O1), (@set_order_perm O2). }
  unfold query_equiv. simpl. repeat split; apply Hset.
Qed.

Section Determinism.
Context `{Embedder} `{Nltk}.

Lemma score_sections_equiv q1 q2 qe sections (st : store) :
  query_equiv q1 q2 ->
  score_sections q1 qe sections st = score_sections q2 qe sections st.
Proof.
  intros Hq. revert st. induction sections as [|s rest IH]; intros st; simpl.
  - done.
  - rewrite (score_query_equiv _ _ _ _ Hq). unfold_result.
    destruct (calculate_multi_factor_score (st s) q2 qe); [apply IH|done].
Qed.

Lemma rank_sections_equiv q1 q2 qe sections (st : store) :
  query_equiv q1 q2 ->
  rank_sections q1 qe sections st = rank_sections q2 qe sections st.
Proof.
  intros Hq. unfold rank_sections. by rewrite (score_sections_equiv _ _ _ _ _ Hq).
Qed.

(** A second ranking of sections that were ranked before changes nothing:
    the scores and ranks the first one wrote are written again. *)
Lemma rank_sections_again q qe sections (st : store) ranked st1 :
  rank_sections q qe sections st = Py.Ok (ranked, st1) ->
  exists st2,
    rank_sections q qe sections st1 = Py.Ok (ranked, st2)
    /\ forall l, st2 l = st1 l.
Proof.
  intros Hrun. apply rank_sections_spec in Hrun as (Hranked & Hall & Hst1).
  assert (Hscore : forall l, score_of q qe st1 l = score_of q qe st l).
  { intros l. unfold score_of. rewrite (Hst1 l). simpl.
    destruct (decide (l ∈ sections)), (rank_after 0 ranked l); done. }
  assert (Hall1 : Forall (fun l => scorable (st1 l)) sections).
  { eapply Forall_impl; [exact Hall|]. intros l Hl. simpl in Hl.
    rewrite (Hst1 l). simpl.
    destruct (decide (l ∈ sections)), (rank_after 0 ranked l); done. }
  destruct (rank_sections_total q qe _ _ Hall1) as (ranked2 & st2 & Hrun2).
  pose proof Hrun2 as Hspec2.
  apply rank_sections_spec in Hspec2 as (Hranked2 & _ & Hst2).
  rewrite (sorted_desc_ext _ _ _ Hscore), <- Hranked in Hranked2. subst ranked2.
  exists st2. split; [done|].
  intros l. rewrite (Hst2 l), Hscore, (Hst1 l). simpl.
  destruct (decide (l ∈ sections)), (rank_after 0 ranked l); done.
Qed.

End Determinism.

(** C10. Ranking is deterministic.  Two runs of [analyze_sections] on the
    same sections, request and embedding function give the same outcome,
    the same ranked list with the same dicts or the same exception, even
    when the interpreter lists the sets of entities and constraints in
    another order; and a second run on the sections the first one ranked
    returns the same ranked list and leaves every dict, its
    [importance_rank] included, as the first run left it. *)
Theorem analyze_sections_deterministic `{Embedder} `{Nltk}
  (O1 O2 : SetOrder) (sections : list loc) (qe : Vec)
  (persona job : string) (st : store) :
  @analyze_sections _ _ O1 sections qe persona job st
  = @analyze_sections _ _ O2 sections qe persona job st
  /\ match @analyze_sections _ _ O1 sections qe persona job st with
     | Py.Ok (ranked, st1) =>
         exists st2,
           @analyze_sections _ _ O2 sections qe persona job st1
           = Py.Ok (ranked, st2)
           /\ forall l, st2 l = st1 l
     | Py.Raise _ => True
     end.
Proof.
  pose proof (analyze_query_structure_equiv O1 O2 persona job) as Hq.
  unfold analyze_sections. split.
  - by apply rank_sections_equiv.
  - destruct (rank_sections _ qe sections st) as [[ranked st1]|] eqn:Hrun;
      [|done].
    rewrite <- (rank_sections_equiv _ _ _ _ _ Hq).
    exact (rank_sections_again _ _ _ _ _ _ Hrun).
Qed.

(** ** Scores *)

Section ScoreShape.
Context `{Embedder}.

(** The score of a readable dict, component by component. *)
Lemma score_unfold s q qe title body doc :
  section_title s = Some title -> text s = Some body -> document s = Some doc ->
  let t := Py.lower (title +:+ " " +:+ body) in
  calculate_multi_factor_score s q qe
  = Py.Ok (weighted_score scorer_weights
             (semantic_score qe body)
             (context_bonuses q t (keyword_score q t))
             (title_score q (Py.lower title))
             (penalty_score q t)
             (document_priority_score q t (Py.lower doc))).
Proof.
  intros Ht Hb Hd. unfold calculate_multi_factor_score.
  by rewrite Ht, Hb, Hd.
Qed.

End ScoreShape.

(** C1, as the code has it.  For every query the scorer combines its
    components under the fixed weights 0.4, 0.3, 0.2 and 0.1:
    the score is [0.4*semantic + 0.3*keyword + 0.2*title - 0.1*penalty +
    priority].  The weights of [calculate_dynamic_weights] play no part:
    the score stays the same when the urgency of the query, to which those
    weights respond, is changed. *)
Theorem scorer_uses_fixed_weights `{Embedder}
  (s : SectionDict) (q : QueryAnalysis) (qe : Vec) (title body doc : string) :
  section_title s = Some title ->
  text s = Some body ->
  document s = Some doc ->
  let t := Py.lower (title +:+ " " +:+ body) in
  calculate_multi_factor_score s q qe
  = Py.Ok (0.4 * semantic_score qe body
           + 0.3 * context_bonuses q t (keyword_score q t)
           + 0.2 * title_score q (Py.lower title)
           - 0.1 * penalty_score q t
           + document_priority_score q t (Py.lower doc))%float
  /\ forall u,
       calculate_multi_factor_score s (with_urgency q u) qe
       = calculate_multi_factor_score s q qe.
Proof.
  intros Ht Hb Hd t. split.
  - by rewrite (score_unfold _ _ _ _ _ _ Ht Hb Hd).
  - intros u. by rewrite !(score_unfold _ _ _ _ _ _ Ht Hb Hd).
Qed.

(** C6. When the embedding function raises on the text of a section, the
    scorer returns the score whose semantic component is [0.0]; nothing is
    raised; and in a batch the run of [analyze_sections] completes, stores
    that score for the section, and stores for every other section the
    score the scorer gives it. *)
Theorem embedding_failure_scores_zero `{Embedder} `{Nltk} `{SetOrder}
  (sections : list loc) (qe : Vec) (persona job : string) (st : store)
  (l : loc) (title body doc : string) :
  Forall (fun l => scorable (st l)) sections ->
  l ∈ sections ->
  section_title (st l) = Some title ->
  text (st l) = Some body ->
  document (st l) = Some doc ->
  encode body = None ->
  let q := analyze_query_structure persona job in
  let t := Py.lower (title +:+ " " +:+ body) in
  let v0 :=
    weighted_score scorer_weights 0.0
      (context_bonuses q t (keyword_score q t))
      (title_score q (Py.lower title))
      (penalty_score q t)
      (document_priority_score q t (Py.lower doc)) in
  semantic_score qe body = 0.0%float
  /\ calculate_multi_factor_score (st l) q qe = Py.Ok v0
  /\ exists ranked st',
       analyze_sections sections qe persona job st = Py.Ok (ranked, st')
       /\ similarity_score (st' l) = Some v0
       /\ forall l' v,
            l' ∈ sections ->
            calculate_multi_factor_score (st l') q qe = Py.Ok v ->
            similarity_score (st' l') = Some v.
Proof.
  intros Hall Hl Ht Hb Hd Hfail q t v0.
  assert (Hsem : semantic_score qe body = 0.0%float).
  { unfold semantic_score. by rewrite Hfail. }
  assert (Hscore : calculate_multi_factor_score (st l) q qe = Py.Ok v0).
  { rewrite (score_unfold _ _ _ _ _ _ Ht Hb Hd). simpl. by rewrite Hsem. }
  split; [done|]. split; [done|].
  destruct (rank_sections_total q qe _ _ Hall) as (ranked & st' & Hrun).
  exists ranked, st'. split; [exact Hrun|].
  apply rank_sections_spec in Hrun as (_ & _ & Hst').
  assert (Hsim : forall l' v, l' ∈ sections ->
            calculate_multi_factor_score (st l') q qe = Py.Ok v ->
            similarity_score (st' l') = Some v).
  { intros l' v Hl' Hv. rewrite Hst'. simpl.
    destruct (decide (l' ∈ sections)); [|done].
    unfold score_of. rewrite Hv. by destruct (rank_after 0 ranked l'). }
  split; [by apply Hsim|done].
Qed.

(** C9. For a section whose lowercased document name contains "mains",
    scored for a query whose persona contains "food contractor" or whose
    lowercased title and text contain "menu", the document type priority
    is exactly 3.0, whatever the other domain branches would have given,
    and that is the amount added to the weighted components. *)
Theorem mains_priority_bonus `{Embedder}
  (s : SectionDict) (q : QueryAnalysis) (qe : Vec) (title body doc : string) :
  section_title s = Some title ->
  text s = Some body ->
  document s = Some doc ->
  Py.contains "mains" (Py.lower doc) = true ->
  Py.contains "food contractor" (Py.lower (Py.get (persona q) "")) = true
  \/ Py.contains "menu" (Py.lower (title +:+ " " +:+ body)) = true ->
  let t := Py.lower (title +:+ " " +:+ body) in
  document_priority_score q t (Py.lower doc) = 3.0%float
  /\ calculate_multi_factor_score s q qe
     = Py.Ok (weighted_score scorer_weights
                (semantic_score qe body)
                (context_bonuses q t (keyword_score q t))
                (title_score q (Py.lower title))
                (penalty_score q t)
                3.0%float).
Proof.
  intros Ht Hb Hd Hmains Hfood t.
  assert (Hprio : document_priority_score q t (Py.lower doc) = 3.0%float).
  { unfold document_priority_score, food_branch, food_bonus. fold t.
    assert (Hbranch : Py.contains "food contractor"
                        (Py.lower (Py.get (persona q) ""))
                      || Py.contains "menu" t = true).
    { apply orb_true_iff. destruct Hfood; auto. }
    rewrite Hbranch, Hmains. reflexivity. }
  split; [done|].
  rewrite (score_unfold _ _ _ _ _ _ Ht Hb Hd). simpl. fold t. by rewrite Hprio.
Qed.

(** ** Constraints *)

(** C8. When the lowercased persona and task contain "dinner" or
    "evening", the negative constraints of the analysed query contain
    "breakfast", "lunch", "morning" and "afternoon", whether or not the
    request mentions them. *)
Theorem dinner_excludes_other_meals `{Nltk} `{SetOrder}
  (persona job : string) (w : string) :
  let text_lower := Py.lower (persona +:+ " " +:+ job) in
  Py.contains "dinner" text_lower = true
  \/ Py.contains "evening" text_lower = true ->
  w ∈ ["breakfast"; "lunch"; "morning"; "afternoon"] ->
  w ∈ negative (extract_constraints (persona +:+ " " +:+ job))
  /\ w ∈ negative (constraints (analyze_query_structure persona job)).
Proof.
  intros text_lower Hdinner Hw.
  assert (Hset : w ∈ list_set (negative_constraints_raw text_lower)).
  { unfold list_set. rewrite set_order_perm. apply elem_of_remove_dups.
    unfold negative_constraints_raw.
    assert (Hif : Py.contains "dinner" text_lower
                  || Py.contains "evening" text_lower = true).
    { apply orb_true_iff. destruct Hdinner; auto. }
    rewrite Hif.
    generalize (catalog_matches negative_patterns text_lower) as found.
    intros found.
    destruct (Py.contains "budget" text_lower
              || Py.contains "affordable" text_lower),
             (Py.contains "vegetarian" text_lower
              || Py.contains "vegan" text_lower);
      rewrite ?elem_of_app; tauto. }
  split; exact Hset.
Qed.

(** ** Pinpoint extraction *)

Section ExtractionFacts.
Context `{Embedder} `{Nltk} `{SetOrder}.
Implicit Types (q : QueryAnalysis) (s : SectionDict).

(** The loop appends, section by section, what [section_excerpt] gives. *)
Lemma subsection_loop_spec q qe secs acc :
  subsection_loop q qe secs acc
  = (os ← mapM (section_excerpt q qe) secs; mret (acc ++ omap id os)).
Proof.
  revert acc. induction secs as [|s rest IH]; intros acc; simpl.
  - unfold_result. simpl. by rewrite app_nil_r.
  - unfold section_excerpt, refine. unfold_result.
    destruct (text s) as [body|]; simpl; [|done].
    destruct (Py.truthy _); simpl.
    + destruct (document s) as [d|]; simpl; [|done].
      destruct (page_number s) as [p|]; simpl; [|done].
      rewrite IH. unfold_result.
      destruct (mapM _ rest); simpl; [|done].
      by rewrite <- app_assoc.
    + rewrite IH. unfold_result. by destruct (mapM _ rest).
Qed.

Lemma section_excerpt_total q qe s :
  extractable s -> exists o, section_excerpt q qe s = Py.Ok o.
Proof.
  intros ([body Hb] & [d Hd] & [p Hp]).
  unfold section_excerpt. unfold_result. rewrite Hb, Hd, Hp. simpl.
  destruct (Py.truthy _); by eexists.
Qed.

(** An excerpt that is emitted has a non-empty text. *)
Lemma section_excerpt_nonempty q qe s e :
  section_excerpt q qe s = Py.Ok (Some e) -> refined_text e <> "".
Proof.
  unfold section_excerpt. unfold_result.
  destruct (text s) as [body|]; simpl; [|done].
  destruct (Py.truthy _) eqn:Htruthy; [|done].
  destruct (document s); simpl; [|done].
  destruct (page_number s); simpl; [|done].
  intros [= <-]. simpl. intros Hempty. by rewrite Hempty in Htruthy.
Qed.

(** A section none of whose sentences scores above zero gives nothing. *)
Lemma section_excerpt_none q qe s body :
  text s = Some body ->
  Forall (fun p => (snd p <=? 0.0)%float = true) (sentence_scores q qe body) ->
  section_excerpt q qe s = Py.Ok None.
Proof.
  intros Hb Hall. unfold section_excerpt. unfold_result. rewrite Hb. simpl.
  set (by_score := sorted_desc snd (sentence_scores q qe body)).
  assert (Hnone : filter (fun '(sentence, score) => (0.0 <? score)%float)
                         (take 3 by_score) = []).
  { destruct (filter _ (take 3 by_score)) as [|[sentence score] k] eqn:Hf;
      [done|exfalso].
    assert (Hp : (sentence, score) ∈ filter
                   (fun '(sentence, score) => (0.0 <? score)%float)
                   (take 3 by_score)) by (rewrite Hf; by left).
    apply list_elem_of_filter in Hp as [Hpos Hp].
    assert (Hin : (sentence, score) ∈ sentence_scores q qe body).
    { rewrite <- (sorted_desc_perm snd).
      eapply elem_of_sublist; [exact Hp|apply sublist_take]. }
    rewrite Forall_forall in Hall. pose proof (Hall _ Hin) as Hle.
    simpl in Hle, Hpos.
    by rewrite (FloatOrder.leb_ltb _ _ Hle) in Hpos. }
  rewrite Hnone. done.
Qed.

End ExtractionFacts.

Lemma omap_id_map {A B} (f : A -> option B) (l : list A) :
  omap id (map f l) = omap f l.
Proof.
  induction l as [|x l IH]; [done|].
  cbn [map omap list_omap]. fold (omap id (map f l)) (omap f l).
  rewrite IH. by destruct (f x).
Qed.

Lemma truthy_empty (s : string) : Py.truthy s = false <-> s = "".
Proof. by destruct s. Qed.

(** A section with its keys gives an excerpt exactly when its refined text
    is not the empty string. *)
Lemma section_excerpt_emitted `{Embedder} `{Nltk} q qe (s : SectionDict) :
  extractable s -> section_excerpt q qe s = Py.Ok (emitted_excerpt q qe s).
Proof.
  intros ([body Hbody] & [d Hd] & [p Hp]).
  unfold section_excerpt, emitted_excerpt. rewrite Hbody, Hd, Hp.
  unfold_result. simpl. fold (refine q qe body).
  destruct (decide (refine q qe body = "")) as [Hempty|Hfull].
  - by rewrite (proj2 (truthy_empty _) Hempty).
  - destruct (Py.truthy (refine q qe body)) eqn:Htruthy; [done|].
    by apply truthy_empty in Htruthy.
Qed.

(** C5, as the code has it.  Pinpoint extraction looks at the first five
    sections only.  For each of them it sorts the scored sentences with
    Python's sort, by descending score, keeps of the first three those
    whose score is strictly positive, joins them in that order with ". ",
    and emits an excerpt exactly when the joined text is not empty.  It
    returns when the five sections can be read, and then with the excerpts
    of exactly those sections whose joined text is not the empty string,
    in the order of the sections; no excerpt it returns has an empty text;
    a section whose sentences all score at most zero contributes nothing;
    and the sorted sentences are a rearrangement of the scored ones that,
    no score being NaN, descends and keeps sentences of equal score in
    their order. *)
Theorem pinpoint_extraction `{Embedder} `{Nltk} `{SetOrder}
  (sections : list SectionDict) (qe : Vec) (persona job : string) :
  let q := analyze_query_structure persona job in
  let run := intelligent_subsection_analysis sections qe persona job in
  run = intelligent_subsection_analysis (take 5 sections) qe persona job
  /\ run = (os ← mapM (section_excerpt q qe) (take 5 sections);
            mret (omap id os))
  /\ (Forall extractable (take 5 sections) -> exists out, run = Py.Ok out)
  /\ (Forall extractable (take 5 sections) ->
      run = Py.Ok (omap (emitted_excerpt q qe) (take 5 sections)))
  /\ (forall out e, run = Py.Ok out -> e ∈ out -> refined_text e <> "")
  /\ (forall s body,
        text s = Some body ->
        Forall (fun p => (snd p <=? 0.0)%float = true)
               (sentence_scores q qe body) ->
        section_excerpt q qe s = Py.Ok None)
  /\ (forall body,
        let scored := sentence_scores q qe body in
        let by_score := sorted_desc snd scored in
        by_score ≡ₚ scored
        /\ (Forall (fun p => not_nan (snd p)) scored ->
            StronglySorted (not_below snd) by_score
            /\ forall a b,
                 [a; b] `sublist_of` scored -> not_below snd a b ->
                 [a; b] `sublist_of` by_score)).
Proof.
  intros q run.
  assert (Hrun : run = (os ← mapM (section_excerpt q qe) (take 5 sections);
                        mret (omap id os))).
  { unfold run, intelligent_subsection_analysis. fold q.
    by rewrite subsection_loop_spec. }
  split; [|split; [exact Hrun|split; [|split; [|split; [|split]]]]].
  - unfold run, intelligent_subsection_analysis.
    by rewrite take_take, Nat.min_id.
  - intros Hall. rewrite Hrun.
    assert (Hmap : exists os, mapM (section_excerpt q qe) (take 5 sections)
                              = Py.Ok os).
    { revert Hall. generalize (take 5 sections) as secs.
      induction secs as [|s rest IH]; intros Hall; simpl; [by eexists|].
      apply Forall_cons in Hall as [Hs Hrest].
      destruct (section_excerpt_total q qe s Hs) as [o Ho].
      destruct (IH Hrest) as [os Hos].
      unfold_result. rewrite Ho, Hos. by eexists. }
    destruct Hmap as [os ->]. by eexists.
  - intros Hall. rewrite Hrun.
    rewrite (mapM_result_ok _ (emitted_excerpt q qe)).
    + unfold_result. by rewrite omap_id_map.
    + eapply Forall_impl; [exact Hall|]. intros s. apply section_excerpt_emitted.
  - intros out e. rewrite Hrun. unfold_result.
    destruct (mapM _ _) as [os|] eqn:Hos; [|done].
    intros [= <-] He. apply mapM_result_inv in Hos.
    apply list_elem_of_omap in He as (o & Ho & Heq). simpl in Heq. subst o.
    apply list_elem_of_lookup_1 in Ho as [i Hi].
    destruct (Forall2_lookup_r _ _ _ _ _ Hos Hi) as (s & _ & Hs).
    by eapply section_excerpt_nonempty.
  - intros s body. apply section_excerpt_none.
  - intros body scored by_score. split; [apply sorted_desc_perm|].
    intros Hnan. split.
    + by apply sorted_desc_sorted.
    + intros a b. by apply sorted_desc_stable.
Qed.

(** ** Loading and malformed sections *)

Lemma store_of_list_lookup (secs : list SectionDict) i s :
  secs !! i = Some s -> store_of_list secs i = s.
Proof. unfold store_of_list. by intros ->. Qed.

Lemma alloc_scorable (secs : list SectionDict) :
  Forall scorable secs ->
  Forall (fun l => scorable (store_of_list secs l)) (seq 0 (length secs)).
Proof.
  intros Hall. apply Forall_forall. intros l Hl.
  apply elem_of_seq in Hl as [_ Hl]. simpl in Hl.
  destruct (lookup_lt_is_Some_2 secs l Hl) as [s Hs].
  rewrite (store_of_list_lookup _ _ _ Hs).
  by eapply Forall_lookup_1.
Qed.

(** What [extract_sections] builds from an entry. *)
Lemma extract_sections_spec doc secs :
  extract_sections doc = Py.Ok secs ->
  Forall2 (fun raw s =>
             text s = Some (Py.get (raw_text raw) "")
             /\ section_title s = Some (Py.get (raw_heading raw) "Unknown")
             /\ is_Some (document s))
          (Py.get (doc_sections doc) []) secs.
Proof.
  intros Hrun. apply mapM_result_inv in Hrun.
  eapply Forall2_impl; [exact Hrun|]. simpl. intros raw s. unfold_result.
  destruct (filename doc); simpl; [|done]. intros [= <-]. simpl. eauto.
Qed.

(** C3, as the code has it.  A dict that lacks the [section_title] or the
    [text] key makes the scorer raise [KeyError]; the missing fields are
    filled in earlier, by [extract_sections], which puts the empty string
    for a missing text and "Unknown" for a missing heading, so that every
    section it builds is scored and takes part in the ranking. *)
Theorem missing_fields_defaulted_by_loader `{Embedder} `{Nltk} `{SetOrder}
  (doc : DocStructure) (secs : list SectionDict) (qe : Vec)
  (persona job : string) :
  extract_sections doc = Py.Ok secs ->
  let q := analyze_query_structure persona job in
  Forall2 (fun raw s =>
             text s = Some (Py.get (raw_text raw) "")
             /\ section_title s = Some (Py.get (raw_heading raw) "Unknown")
             /\ exists v, calculate_multi_factor_score s q qe = Py.Ok v)
          (Py.get (doc_sections doc) []) secs
  /\ (exists ranked st',
        analyze_sections (alloc secs).1 qe persona job (alloc secs).2
        = Py.Ok (ranked, st')
        /\ ranked ≡ₚ (alloc secs).1)
  /\ (forall s,
        section_title s = None \/ text s = None ->
        exists key,
          calculate_multi_factor_score s q qe = Py.Raise (Py.KeyError key)
          /\ (key = "section_title" \/ key = "text")).
Proof.
  intros Hload q. apply extract_sections_spec in Hload.
  assert (Hscorable : Forall scorable secs).
  { apply Forall_forall. intros s Hs.
    apply list_elem_of_lookup_1 in Hs as [i Hi].
    destruct (Forall2_lookup_r _ _ _ _ _ Hload Hi) as (raw & _ & Ht & Hh & Hd).
    unfold scorable. rewrite Ht, Hh. eauto. }
  split; [|split].
  - eapply Forall2_impl; [exact Hload|]. simpl.
    intros raw s (Ht & Hh & Hd). split; [done|]. split; [done|].
    apply score_ok_iff. unfold scorable. rewrite Ht, Hh. eauto.
  - simpl.
    destruct (rank_sections_total q qe _ _ (alloc_scorable _ Hscorable))
      as (ranked & st' & Hrun).
    exists ranked, st'. split; [exact Hrun|].
    apply rank_sections_spec in Hrun as (-> & _). apply sorted_desc_perm.
  - intros s Hmissing. unfold calculate_multi_factor_score. unfold_result.
    destruct (section_title s) as [t|]; simpl; [|by eauto].
    destruct (text s) as [b|]; simpl; [|by eauto].
    by destruct Hmissing.
Qed.

(** ** Metrics *)

Lemma count_loop_spec (text : string) (pos : list string) n :
  foldl (fun n c => if Py.contains c text then S n else n) n pos
  = n + count_matches pos text.
Proof.
  unfold count_matches. revert n.
  induction pos as [|c pos IH]; intros n; simpl; [lia|].
  rewrite IH. destruct (Py.contains c text) eqn:Hc.
  - rewrite filter_cons_True by (by apply Is_true_true_2). simpl. lia.
  - rewrite filter_cons_False by (by apply Is_true_false_2). lia.
Qed.

Lemma count_matches_le pos text : count_matches pos text <= length pos.
Proof. unfold count_matches. apply length_filter. Qed.

Lemma count_satisfied_spec pos secs n r :
  count_satisfied pos secs n = Py.Ok r ->
  r = n + sum_list (map (fun s => count_matches pos (combined_text s)) secs).
Proof.
  revert n. induction secs as [|s rest IH]; intros n; simpl.
  - unfold_result. intros [= <-]. simpl. lia.
  - unfold_result. unfold combined_text at 1.
    destruct (section_title s) as [t|]; simpl; [|done].
    destruct (text s) as [b|]; simpl; [|done].
    intros Hrest%IH. rewrite count_loop_spec in Hrest. lia.
Qed.

Lemma count_satisfied_total pos secs n :
  Forall scorable secs -> exists r, count_satisfied pos secs n = Py.Ok r.
Proof.
  revert n. induction secs as [|s rest IH]; intros n Hall; simpl.
  - by eexists.
  - apply Forall_cons in Hall as [([t Ht] & [b Hb] & _) Hrest].
    unfold_result. rewrite Ht, Hb. simpl. by apply IH.
Qed.

Lemma confidence_total s q :
  scorable s -> exists c, calculate_confidence_score s q = Py.Ok c.
Proof.
  intros ([t Ht] & [b Hb] & [d Hd]).
  unfold calculate_confidence_score. unfold_result.
  rewrite Ht, Hb, Hd. simpl. by eexists.
Qed.

Lemma sum_hits_le pos (secs : list SectionDict) :
  sum_list (map (fun s => count_matches pos (combined_text s)) secs)
  <= length secs * length pos.
Proof.
  induction secs as [|s rest IH]; simpl; [lia|].
  pose proof (count_matches_le pos (combined_text s)). lia.
Qed.

Section Counting.
Context {A : Type} `{EqDecision A}.
Implicit Types (f g : A -> bool) (l : list A).

Lemma filter_bool_cons f x l :
  length (filter (fun c => f c) (x :: l))
  = (if f x then 1 else 0) + length (filter (fun c => f c) l).
Proof.
  destruct (f x) eqn:Hx.
  - by rewrite filter_cons_True by (by apply Is_true_true_2).
  - by rewrite filter_cons_False by (by apply Is_true_false_2).
Qed.

Lemma filter_orb_le f g l :
  length (filter (fun c => f c || g c) l)
  <= length (filter (fun c => f c) l) + length (filter (fun c => g c) l).
Proof.
  induction l as [|x l IH]; [done|].
  rewrite (filter_bool_cons (fun c => f c || g c)), (filter_bool_cons f),
    (filter_bool_cons g).
  destruct (f x), (g x); simpl; lia.
Qed.

Lemma filter_remove_dups_le f l :
  length (filter (fun c => f c) (remove_dups l))
  <= length (filter (fun c => f c) l).
Proof.
  induction l as [|x l IH]; [done|]. simpl.
  rewrite (filter_bool_cons f x l).
  destruct (decide_rel elem_of x l).
  - lia.
  - rewrite (filter_bool_cons f). lia.
Qed.

End Counting.

(** Every constraint that occurs somewhere is counted at least once by the
    loop: the fraction of satisfied constraints is a lower bound. *)
Lemma distinct_satisfied_le_hits pos (secs : list SectionDict) :
  distinct_satisfied pos (map combined_text secs)
  <= sum_list (map (fun s => count_matches pos (combined_text s)) secs).
Proof.
  unfold distinct_satisfied.
  etrans; [apply (filter_remove_dups_le
                    (fun c => existsb (fun t => Py.contains c t)
                                      (map combined_text secs)))|].
  induction secs as [|s rest IH]; simpl.
  - induction pos as [|c pos IHpos]; [done|].
    by rewrite (filter_bool_cons (fun _ => false)).
  - etrans; [apply (filter_orb_le
                      (fun c => Py.contains c (combined_text s))
                      (fun c => existsb (fun t => Py.contains c t)
                                        (map combined_text rest)))|].
    unfold count_matches at 1. lia.
Qed.

Lemma mapM_result_total {A B} (f : A -> Py.result B) l :
  Forall (fun x => exists y, f x = Py.Ok y) l -> exists k, mapM f l = Py.Ok k.
Proof.
  induction l as [|x l IH]; intros Hall; simpl; [by eexists|].
  apply Forall_cons in Hall as [[y Hy] Hrest].
  destruct (IH Hrest) as [k Hk]. unfold_result. rewrite Hy, Hk. by eexists.
Qed.

(** C7, as the code has it.  With at least one positive constraint, the
    constraint satisfaction is the number of pairs of one of the first
    five sections and a positive constraint that occurs in the lowercased
    title and text of that section, divided by the number of positive
    constraints.  A constraint found in several sections is counted once
    for each of them, so the count is bounded by the number of inspected
    sections times the number of constraints, not by the number of
    constraints; the number of distinct constraints found is a lower
    bound of it. *)
Theorem constraint_satisfaction_counts_hits
  (ranked_sections : list SectionDict) (q : QueryAnalysis) :
  Forall scorable (take 10 ranked_sections) ->
  0 < length (positive (constraints q)) ->
  let pos := positive (constraints q) in
  let hits :=
    sum_list (map (fun s => count_matches pos (combined_text s))
                  (take 5 ranked_sections)) in
  exists m,
    generate_performance_metrics ranked_sections q = Py.Ok m
    /\ constraint_satisfaction m
       = match ranked_sections with
         | [] => 0.0%float
         | _ :: _ => (Py.float_of_nat hits / Py.float_of_nat (length pos))%float
         end
    /\ hits <= Nat.min 5 (length ranked_sections) * length pos
    /\ distinct_satisfied pos (map combined_text (take 5 ranked_sections))
       <= hits.
Proof.
  intros Hall Hpos pos hits.
  assert (Hlow : distinct_satisfied pos
                   (map combined_text (take 5 ranked_sections)) <= hits)
    by apply distinct_satisfied_le_hits.
  assert (Hhits : hits <= Nat.min 5 (length ranked_sections) * length pos).
  { unfold hits. etrans; [apply sum_hits_le|]. by rewrite length_take. }
  destruct ranked_sections as [|s0 rest]; [by eexists|].
  revert Hlow.
  set (ranked := s0 :: rest) in *.
  assert (Hfive : Forall scorable (take 5 ranked)).
  { replace (take 5 ranked) with (take 5 (take 10 ranked))
      by (by rewrite take_take). by apply Forall_take. }
  destruct (mapM_result_total
              (fun section => calculate_confidence_score section q)
              (take 10 ranked)) as [cs Hcs].
  { eapply Forall_impl; [exact Hall|]. intros s. apply confidence_total. }
  destruct (mapM_result_total
              (fun section => Py.getitem "document" (document section))
              (take 10 ranked)) as [ds Hds].
  { eapply Forall_impl; [exact Hall|]. intros s (_ & _ & [d Hd]).
    rewrite Hd. by eexists. }
  destruct (count_satisfied_total pos (take 5 ranked) 0 Hfive) as [r Hr].
  pose proof (count_satisfied_spec _ _ _ _ Hr) as Hrspec. simpl in Hrspec.
  fold hits in Hrspec. subst r.
  unfold generate_performance_metrics. fold ranked pos.
  rewrite Hcs, Hds, Hr. unfold_result. simpl.
  apply Nat.ltb_lt in Hpos. fold pos in Hpos. rewrite Hpos.
  intros Hlow. eexists. split; [reflexivity|]. split; [reflexivity|done].
Qed.

(** * Further properties of the pipeline *)

(** ** Dynamic weights *)

(** X1. Every weight that [calculate_dynamic_weights] returns lies strictly
    between 0 and 1: no combination of the adjustment rules drives a
    weight to zero or below, so no component ever enters with the opposite
    sign. *)
Theorem dynamic_weights_positive (q : QueryAnalysis) :
  let '(w1, w2, w3, w4) := calculate_dynamic_weights q in
  Forall (fun w => (0.0 <? w)%float = true /\ (w <? 1.0)%float = true)
         [w1; w2; w3; w4].
Proof.
  unfold calculate_dynamic_weights.
  destruct (5 <? length (core_entities q))%nat,
           (length (core_entities q) <? 3)%nat,
           (3 <? length (positive (constraints q))
                 + length (negative (constraints q)))%nat,
           (is_high (urgency (context q)));
    vm_compute; repeat constructor.
Qed.

(** ** The document type priority *)


(** ** What the ranking writes, and when it fails *)

Lemma rank_after_last ranked i l :
  l ∈ ranked ->
  exists k,
    ranked !! k = Some l
    /\ rank_after i ranked l = Some (Z.of_nat (i + k) + 1)%Z
    /\ forall j, ranked !! j = Some l -> j <= k.
Proof.
  revert i. induction ranked as [|s rest IH]; intros i Hl.
  - by apply elem_of_nil in Hl.
  - simpl. destruct (decide (l ∈ rest)) as [Hin|Hout].
    + destruct (IH (S i) Hin) as (k & Hk & Hr & Hlast).
      exists (S k). split; [done|]. split.
      * rewrite Hr. do 3 f_equal. lia.
      * intros [|j] Hj; [lia|]. simpl in Hj. apply Hlast in Hj. lia.
    + apply elem_of_cons in Hl as [->|Hl]; [|done].
      exists 0. split; [done|]. split.
      * rewrite rank_after_None by done.
        destruct (decide (s = s)); [|done]. do 3 f_equal. lia.
      * intros [|j] Hj; [lia|]. simpl in Hj.
        apply list_elem_of_lookup_2 in Hj. done.
Qed.

Section RankingEdges.
Context `{Embedder} `{Nltk} `{SetOrder}.

(** X3. The ranking writes the score and the rank of the listed dicts and
    nothing else: the document name, page number, title and text of every
    dict stay as they were, and a dict that is not listed is not touched. *)
Theorem analyze_sections_frame (sections : list loc) (qe : Vec)
  (persona job : string) (st : store) (ranked : list loc) (st' : store) :
  analyze_sections sections qe persona job st = Py.Ok (ranked, st') ->
  forall l,
    document (st' l) = document (st l)
    /\ page_number (st' l) = page_number (st l)
    /\ section_title (st' l) = section_title (st l)
    /\ text (st' l) = text (st l)
    /\ (l ∉ sections -> st' l = st l).
Proof.
  unfold analyze_sections. intros Hrun l.
  apply rank_sections_spec in Hrun as (Hranked & _ & Hst').
  rewrite (Hst' l). simpl.
  destruct (decide (l ∈ sections)) as [Hin|Hout].
  - destruct (rank_after 0 ranked l); repeat split; done.
  - rewrite rank_after_None; [done|].
    rewrite Hranked, sorted_desc_perm. done.
Qed.

(** X4. When one dict is listed more than once, all its entries show one rank,
    that of its last position in the ranked list: the rank of a listed
    dict is always one more than the last index at which it stands. *)
Theorem rank_is_last_position (sections : list loc) (qe : Vec)
  (persona job : string) (st : store) (ranked : list loc) (st' : store) :
  analyze_sections sections qe persona job st = Py.Ok (ranked, st') ->
  forall l,
    l ∈ sections ->
    exists i,
      ranked !! i = Some l
      /\ importance_rank (st' l) = Some (Z.of_nat i + 1)%Z
      /\ forall j, ranked !! j = Some l -> j <= i.
Proof.
  unfold analyze_sections. intros Hrun l Hl.
  apply rank_sections_spec in Hrun as (Hranked & _ & Hst').
  assert (Hin : l ∈ ranked) by (by rewrite Hranked, sorted_desc_perm).
  destruct (rank_after_last ranked 0 l Hin) as (k & Hk & Hr & Hlast).
  exists k. split; [done|]. split; [|done].
  rewrite (Hst' l). simpl. by rewrite Hr.
Qed.

Lemma score_sections_raises q qe pre l post (st : store) e :
  Forall (fun l => scorable (st l)) pre ->
  calculate_multi_factor_score (st l) q qe = Py.Raise e ->
  score_sections q qe (pre ++ l :: post) st = Py.Raise e.
Proof.
  revert st. induction pre as [|s pre IH]; intros st Hpre Hl; simpl.
  - unfold_result. by rewrite Hl.
  - apply Forall_cons in Hpre as [Hs Hpre].
    apply (score_ok_iff _ q qe) in Hs as [v Hv].
    unfold_result. rewrite Hv. apply IH.
    + eapply Forall_impl; [exact Hpre|]. intros l' Hl'. simpl in Hl'.
      destruct (decide (s = l')) as [->|Hne].
      * by rewrite fn_lookup_insert.
      * by rewrite fn_lookup_insert_ne.
    + destruct (decide (s = l)) as [->|Hne].
      * by rewrite Hl in Hv.
      * by rewrite fn_lookup_insert_ne.
Qed.

(** X5. One dict without a key of the scorer ends the whole ranking: the call
    raises exactly when some listed dict lacks [section_title], [text] or
    [document], and the exception is the [KeyError] of the first such
    dict. *)
Theorem analyze_sections_raises_iff (sections : list loc) (qe : Vec)
  (persona job : string) (st : store) :
  ((exists e, analyze_sections sections qe persona job st = Py.Raise e)
   <-> ~ Forall (fun l => scorable (st l)) sections)
  /\ forall pre l post e,
       sections = pre ++ l :: post ->
       Forall (fun l => scorable (st l)) pre ->
       calculate_multi_factor_score (st l)
         (analyze_query_structure persona job) qe = Py.Raise e ->
       analyze_sections sections qe persona job st = Py.Raise e.
Proof.
  unfold analyze_sections.
  set (q := analyze_query_structure persona job). split; [split|].
  - intros [e He] Hall.
    destruct (rank_sections_total q qe _ _ Hall) as (ranked & st' & Hrun).
    by rewrite Hrun in He.
  - intros Hnot.
    destruct (rank_sections q qe sections st) as [[ranked st']|e] eqn:Hrun;
      [|by eexists].
    apply rank_sections_spec in Hrun as (_ & Hall & _). done.
  - intros pre l post e -> Hpre Hl. unfold rank_sections. unfold_result.
    by rewrite (score_sections_raises _ _ _ _ _ _ _ Hpre Hl).
Qed.

End RankingEdges.

(** ** Loading *)

(** X6. [extract_sections] keeps one section per entry, under the file name of
    the document, with score 0.0 and rank 0 and with all the keys that the
    scorer and the extractor read.  Without a [sections] key it returns
    the empty list; without a [filename] key it raises [KeyError] as soon
    as there is one entry, and returns the empty list otherwise. *)
Theorem extract_sections_shape (doc : DocStructure) :
  let raws := Py.get (doc_sections doc) [] in
  match filename doc with
  | Some f =>
      exists secs,
        extract_sections doc = Py.Ok secs
        /\ length secs = length raws
        /\ Forall (fun s =>
                     document s = Some f
                     /\ similarity_score s = Some 0.0%float
                     /\ importance_rank s = Some 0%Z
                     /\ scorable s /\ extractable s) secs
  | None =>
      extract_sections doc
      = match raws with
        | [] => Py.Ok []
        | _ :: _ => Py.Raise (Py.KeyError "filename")
        end
  end.
Proof.
  intros raws. unfold extract_sections. fold raws.
  destruct (filename doc) as [f|]; simpl.
  - induction raws as [|raw raws (secs & IH & Hlen & Hall)]; simpl.
    + exists []. by repeat split.
    + unfold_result. rewrite IH. eexists. split; [reflexivity|].
      split; [by simpl; rewrite Hlen|].
      constructor; [|done]. unfold scorable, extractable. simpl.
      repeat split; by eexists.
  - by destruct raws.
Qed.

(** ** Confidence and metrics *)

Lemma ltb_leb x y : (x <? y)%float = true -> (x <=? y)%float = true.
Proof.
  rewrite FloatAxioms.ltb_spec, FloatAxioms.leb_spec. unfold SFltb, SFleb.
  by destruct (SFcompare _ _) as [[]|].
Qed.

(** [min(1.0, max(0.0, x))] lies in the unit interval for every float,
    NaN included. *)
Lemma clamp_unit x :
  (0.0 <=? py_min 1.0 (py_max 0.0 x))%float = true
  /\ (py_min 1.0 (py_max 0.0 x) <=? 1.0)%float = true.
Proof.
  unfold py_min, py_max. destruct (0.0 <? x)%float eqn:H0.
  - destruct (x <? 1.0)%float eqn:H1.
    + split; by apply ltb_leb.
    + split; reflexivity.
  - split; reflexivity.
Qed.

Lemma confidence_ok_iff s q :
  (exists c, calculate_confidence_score s q = Py.Ok c) <-> scorable s.
Proof.
  unfold calculate_confidence_score, scorable. unfold_result.
  destruct (section_title s), (text s), (document s); simpl;
    split; try (intros [c Hc]; done); try (intros (? & ? & ?); by eauto);
    intros ([? ?] & [? ?] & [? ?]); done.
Qed.

(** X7. The confidence of a section is a number between 0.0 and 1.0, however
    many negative constraints it violates or positive ones it meets; it is
    computed exactly for the dicts that carry the three keys it reads. *)
Theorem confidence_in_unit_interval (s : SectionDict) (q : QueryAnalysis) :
  ((exists c, calculate_confidence_score s q = Py.Ok c) <-> scorable s)
  /\ forall c,
       calculate_confidence_score s q = Py.Ok c ->
       (0.0 <=? c)%float = true /\ (c <=? 1.0)%float = true.
Proof.
  split; [apply confidence_ok_iff|].
  unfold calculate_confidence_score. unfold_result.
  destruct (section_title s); simpl; [|done].
  destruct (text s); simpl; [|done].
  destruct (document s); simpl; [|done].
  intros c [= <-]. apply clamp_unit.
Qed.

Lemma mapM_result_ok_iff {A B} (f : A -> Py.result B) l :
  (exists k, mapM f l = Py.Ok k) <-> Forall (fun x => exists y, f x = Py.Ok y) l.
Proof.
  split; [|apply mapM_result_total].
  intros [k Hk]. apply mapM_result_inv in Hk.
  induction Hk as [|x y l k Hxy _ IH]; constructor; eauto.
Qed.

(** X8. The metrics are computed from the first ten sections and the length of
    the list alone: the call returns exactly when those ten carry the keys
    of the scorer, sections behind the tenth are never read, and
    [total_sections] is the length of the whole list. *)
Theorem metrics_read_first_ten (ranked_sections : list SectionDict)
  (q : QueryAnalysis) :
  ((exists m, generate_performance_metrics ranked_sections q = Py.Ok m)
   <-> Forall scorable (take 10 ranked_sections))
  /\ (forall m,
        generate_performance_metrics ranked_sections q = Py.Ok m ->
        total_sections m = length ranked_sections)
  /\ (forall other,
        take 10 other = take 10 ranked_sections ->
        length other = length ranked_sections ->
        generate_performance_metrics other q
        = generate_performance_metrics ranked_sections q).
Proof.
  assert (Hfive : forall l : list SectionDict, take 5 l = take 5 (take 10 l))
    by (intros l; by rewrite take_take).
  split; [split|split].
  - intros [m Hm]. destruct ranked_sections as [|s0 rest]; [constructor|].
    unfold generate_performance_metrics in Hm.
    destruct (mapM (fun section => calculate_confidence_score section q) _)
      as [cs|] eqn:Hcs; [|by unfold_result].
    apply Forall_forall. intros s Hs.
    assert (Hex : exists k, mapM (fun section =>
                               calculate_confidence_score section q)
                              (take 10 (s0 :: rest)) = Py.Ok k) by eauto.
    apply mapM_result_ok_iff in Hex. rewrite Forall_forall in Hex.
    apply (confidence_ok_iff s q), Hex, Hs.
  - intros Hall. destruct ranked_sections as [|s0 rest]; [by eexists|].
    set (ranked := s0 :: rest) in *.
    destruct (mapM_result_total
                (fun section => calculate_confidence_score section q)
                (take 10 ranked)) as [cs Hcs].
    { eapply Forall_impl; [exact Hall|]. intros s. apply confidence_total. }
    destruct (mapM_result_total
                (fun section => Py.getitem "document" (document section))
                (take 10 ranked)) as [ds Hds].
    { eapply Forall_impl; [exact Hall|]. intros s (_ & _ & [d Hd]).
      rewrite Hd. by eexists. }
    destruct (count_satisfied_total (positive (constraints q))
                (take 5 ranked) 0) as [r Hr].
    { rewrite Hfive. by apply Forall_take. }
    unfold generate_performance_metrics. fold ranked.
    rewrite Hcs, Hds, Hr. unfold_result. by eexists.
  - intros m. destruct ranked_sections as [|s0 rest].
    + unfold_result. by intros [= <-].
    + unfold generate_performance_metrics. unfold_result.
      destruct (mapM _ _); [|done]. destruct (mapM _ _); [|done].
      destruct (count_satisfied _ _ _); [|done]. by intros [= <-].
  - intros other Htake Hlen.
    destruct ranked_sections as [|s0 rest], other as [|o0 orest];
      try done.
    unfold generate_performance_metrics.
    rewrite (Hfive (o0 :: orest)), (Hfive (s0 :: rest)), Htake, Hlen. done.
Qed.

(** ** The shape of the excerpts *)

Section ExtractionShape.
Context `{Embedder} `{Nltk}.
Implicit Types (q : QueryAnalysis) (s : SectionDict).

Lemma section_excerpt_some q qe s e :
  section_excerpt q qe s = Py.Ok (Some e) ->
  document s = Some (ex_document e)
  /\ page_number s = Some (ex_page_number e)
  /\ exists body, text s = Some body /\ refined_text e = refine q qe body.
Proof.
  unfold section_excerpt. unfold_result.
  destruct (text s) as [body|]; simpl; [|done].
  destruct (Py.truthy _); [|done].
  destruct (document s); simpl; [|done].
  destruct (page_number s); simpl; [|done].
  intros [= <-]. simpl. eauto.
Qed.

Lemma section_excerpt_ok_iff q qe s :
  (exists o, section_excerpt q qe s = Py.Ok o) <-> excerpt_readable q qe s.
Proof.
  unfold section_excerpt, excerpt_readable, refine. unfold_result.
  destruct (text s) as [body|]; simpl; [|split; [by intros []|by intros (?&?&?)]].
  destruct (Py.truthy _) eqn:Htruthy.
  - destruct (document s), (page_number s); simpl; split;
      try (intros [o Ho]; done);
      try (intros _; eexists; split; [done|]; intros _; split; by eexists);
      try (intros _; by eexists);
      intros (b & [= <-] & Hkeys); destruct (Hkeys Htruthy) as [[] []]; done.
  - split; [|by eexists]. intros _. eexists. split; [done|].
    intros Hcontra. by rewrite Htruthy in Hcontra.
Qed.

Lemma picked_sections q qe (secs : list SectionDict) os :
  mapM (section_excerpt q qe) secs = Py.Ok os ->
  exists picked,
    picked `sublist_of` secs
    /\ Forall2 (fun s e =>
                  document s = Some (ex_document e)
                  /\ page_number s = Some (ex_page_number e)
                  /\ exists body,
                       text s = Some body /\ refined_text e = refine q qe body)
               picked (omap id os).
Proof.
  intros Hos%mapM_result_inv.
  induction Hos as [|s o secs os Hs _ (picked & Hsub & Hall)].
  - exists []. split; [done|constructor].
  - destruct o as [e|]; simpl.
    + exists (s :: picked). split; [by apply sublist_skip|].
      constructor; [by apply section_excerpt_some|done].
    + exists picked. split; [by apply sublist_cons|done].
Qed.

(** X9. The excerpts follow the ranking: there is at most one for each of the
    first five sections, in their order, each under the document name and
    page number of its section and with the refined text of that section;
    so the list has at most five entries. *)
Theorem excerpts_follow_ranking `{SetOrder} (sections : list SectionDict)
  (qe : Vec) (persona job : string) (out : list RefinedExcerpt) :
  intelligent_subsection_analysis sections qe persona job = Py.Ok out ->
  let q := analyze_query_structure persona job in
  length out <= Nat.min 5 (length sections)
  /\ exists picked,
       picked `sublist_of` take 5 sections
       /\ Forall2 (fun s e =>
                     document s = Some (ex_document e)
                     /\ page_number s = Some (ex_page_number e)
                     /\ exists body,
                          text s = Some body
                          /\ refined_text e = refine q qe body)
                  picked out.
Proof.
  unfold intelligent_subsection_analysis. rewrite subsection_loop_spec.
  intros Hrun. set (q := analyze_query_structure persona job) in *.
  destruct (mapM (section_excerpt q qe) (take 5 sections)) as [os|] eqn:Hos;
    [|by unfold_result].
  unfold_result. simpl in Hrun. injection Hrun as <-.
  destruct (picked_sections _ _ _ _ Hos) as (picked & Hsub & Hall).
  split; [|by exists picked].
  rewrite <- (Forall2_length _ _ _ Hall), <- length_take.
  by apply sublist_length.
Qed.

(** X10. The extractor reads [text] of each of the first five sections, but
    [document] and [page_number] only of a section that yields an excerpt:
    the call returns exactly when every one of the five has a text and,
    if its refined text is not empty, those two keys as well. *)
Theorem extraction_returns_iff `{SetOrder} (sections : list SectionDict)
  (qe : Vec) (persona job : string) :
  (exists out,
     intelligent_subsection_analysis sections qe persona job = Py.Ok out)
  <-> Forall (excerpt_readable (analyze_query_structure persona job) qe)
             (take 5 sections).
Proof.
  unfold intelligent_subsection_analysis. rewrite subsection_loop_spec.
  set (q := analyze_query_structure persona job).
  rewrite <- (Forall_iff _ _ _ (section_excerpt_ok_iff q qe)).
  rewrite <- mapM_result_ok_iff. split.
  - intros [out Hout].
    destruct (mapM (section_excerpt q qe) (take 5 sections)) as [os|];
      [by eexists|by unfold_result].
  - intros [os ->]. unfold_result. by eexists.
Qed.

(** X11. The refined text of a section is made of at most three of its
    sentences, each with a strictly positive score, joined by ". ". *)
Theorem refine_shape q qe (body : string) :
  exists kept,
    refine q qe body = Py.join ". " (map fst kept)
    /\ length kept <= 3
    /\ Forall (fun p => p ∈ sentence_scores q qe body
                        /\ (0.0 <? snd p)%float = true) kept.
Proof.
  unfold refine.
  set (by_score := sorted_desc snd (sentence_scores q qe body)).
  exists (filter (fun '(sentence, score) => (0.0 <? score)%float)
                 (take 3 by_score)).
  split; [done|]. split.
  - etrans; [apply length_filter|]. rewrite length_take. lia.
  - apply Forall_forall. intros [sentence score] Hp.
    apply list_elem_of_filter in Hp as [Hpos Hp]. split.
    + rewrite <- (sorted_desc_perm snd).
      eapply elem_of_sublist; [exact Hp|apply sublist_take].
    + simpl in *. by apply Is_true_true_1.
Qed.

Lemma sentence_score_equiv q1 q2 qe sentence :
  query_equiv q1 q2 ->
  sentence_score q1 qe sentence = sentence_score q2 qe sentence.
Proof.
  intros (Hc & Hp & Hn & _). unfold sentence_score.
  by rewrite (add_hits_perm _ _ _ _ Hc), (add_hits_perm _ _ _ _ Hp),
    (sub_hits_perm _ _ _ _ Hn).
Qed.

Lemma subsection_loop_equiv q1 q2 qe secs acc :
  query_equiv q1 q2 ->
  subsection_loop q1 qe secs acc = subsection_loop q2 qe secs acc.
Proof.
  intros Hq.
  assert (Hrefine : forall body, refine q1 qe body = refine q2 qe body).
  { intros body. unfold refine.
    replace (sentence_scores q1 qe body) with (sentence_scores q2 qe body);
      [done|].
    unfold sentence_scores. apply map_ext. intros sentence.
    by rewrite (sentence_score_equiv _ _ _ _ Hq). }
  revert acc. induction secs as [|s rest IH]; intros acc; simpl; [done|].
  unfold_result. destruct (text s) as [body|]; simpl; [|done].
  rewrite Hrefine. destruct (Py.truthy _); [|apply IH].
  destruct (document s); simpl; [|done].
  destruct (page_number s); simpl; [|done]. apply IH.
Qed.

(** X12. The excerpts do not depend on the order in which the interpreter lists
    the sets of entities and constraints. *)
Theorem extraction_independent_of_set_order (O1 O2 : SetOrder)
  (sections : list SectionDict) (qe : Vec) (persona job : string) :
  @intelligent_subsection_analysis _ _ O1 sections qe persona job
  = @intelligent_subsection_analysis _ _ O2 sections qe persona job.
Proof.
  unfold intelligent_subsection_analysis.
  apply subsection_loop_equiv, analyze_query_structure_equiv.
Qed.

End ExtractionShape.

(** ** What the pattern catalogs extract *)

Section Matching.
Implicit Types (a : list Re.tok) (p : Re.pattern) (s m r : string).

Lemma prefix_app m r : String.prefix m (m +:+ r) = true.
Proof.
  induction m as [|c m IH]; simpl; [by destruct r|].
  by destruct (ascii_dec c c).
Qed.

Lemma contains_tail m c s : Py.contains m s = true -> Py.contains m (String c s) = true.
Proof. intros Hm. cbn [Py.contains]. rewrite Hm. apply orb_true_r. Qed.

Lemma contains_prefix m s : String.prefix m s = true -> Py.contains m s = true.
Proof. intros Hm. destruct s; cbn [Py.contains]; by rewrite Hm. Qed.

(** A match of an alternative splits the text into the match and the
    rest. *)
Lemma match_alt_split a s m r : In (m, r) (Re.match_alt a s) -> s = m +:+ r.
Proof.
  revert s m r. induction a as [|[c|] a IH]; intros s m r; simpl.
  - by intros [[= <- <-]|[]].
  - destruct s as [|d s]; [done|]. destruct (Ascii.eqb c d); [|done].
    intros ([m' r'] & [= <- <-] & Hin)%in_map_iff. 
    by rewrite (IH _ _ _ Hin).
  - intros [Hin|Hin]%in_app_iff; [|by apply IH].
    destruct s as [|d s]; [done|]. destruct (Re.is_newline d); [done|].
    apply in_map_iff in Hin as ([m' r'] & [= <- <-] & Hin). 
    by rewrite (IH _ _ _ Hin).
Qed.

Lemma match_alt_solid c a s m r : In (m, r) (Re.match_alt (Re.Lit c :: a) s) -> m <> "".
Proof.
  simpl. destruct s as [|d s]; [done|]. destruct (Ascii.eqb c d); [|done].
  by intros ([m' r'] & [= <- <-] & _)%in_map_iff.
Qed.

Lemma match_alt_spelled a w s m r :
  spelled a = Some w -> In (m, r) (Re.match_alt a s) -> m = w.
Proof.
  revert w s m r. induction a as [|[c|] a IH]; intros w s m r; simpl.
  - by intros [= <-] [[= <- <-]|[]].
  - destruct (spelled a) as [w'|]; simpl; [|done]. intros [= <-].
    destruct s as [|d s]; [done|].
    destruct (Ascii.eqb c d) eqn:Hcd; [|done].
    apply Ascii.eqb_eq in Hcd as <-.
    intros ([m' r'] & [= <- <-] & Hin)%in_map_iff.
    by rewrite (IH _ _ _ _ eq_refl Hin).
  - done.
Qed.

Lemma match_here_in p prev s m :
  Re.match_here p prev s = Some m ->
  exists a r, In a p /\ In (m, r) (Re.match_alt a s).
Proof.
  unfold Re.match_here. destruct (Re.boundary _ _); [|done].
  destruct (List.find _ _) as [[m' r]|] eqn:Hfind; simpl; [|done].
  intros [= <-]. apply find_some in Hfind as [Hin _].
  apply in_flat_map in Hin as (a & Ha & Hin). eauto.
Qed.

Lemma findall_from_in p prev s skip m :
  In m (Re.findall_from p prev s skip) ->
  exists a r t, In a p /\ In (m, r) (Re.match_alt a t) /\ Py.contains m s = true.
Proof.
  revert prev skip.
  induction s as [|c s IH]; intros prev skip; cbn [Re.findall_from]; [done|].
  assert (Htail : forall prev' skip',
            In m (Re.findall_from p prev' s skip') ->
            exists a r t, In a p /\ In (m, r) (Re.match_alt a t)
                          /\ Py.contains m (String c s) = true).
  { intros prev' skip' Hin.
    destruct (IH _ _ Hin) as (a & r & t & Ha & Hm & Hc).
    exists a, r, t. split; [done|]. split; [done|]. by apply contains_tail. }
  destruct skip as [|k]; [|by apply Htail].
  destruct (Re.match_here p prev (String c s)) as [m'|] eqn:Hhere;
    [|by apply Htail].
  intros [<-|Hin]; [|by eapply Htail].
  destruct (match_here_in _ _ _ _ Hhere) as (a & r & Ha & Hm).
  exists a, r, (String c s). split; [done|]. split; [done|].
  apply contains_prefix. rewrite (match_alt_split _ _ _ _ Hm).
  apply prefix_app.
Qed.

(** Every string that [findall] returns occurs in the text; it is not
    empty when the alternatives begin with a literal, and it is a word of
    the pattern when the alternatives have no [.?]. *)
Lemma findall_sound p s m :
  In m (Re.findall p s) ->
  Py.contains m s = true
  /\ (solid p = true -> m <> "")
  /\ (Forall (fun a => is_Some (spelled a)) p -> m ∈ omap spelled p).
Proof.
  intros (a & r & t & Ha & Hm & Hc)%findall_from_in.
  split; [done|]. split.
  - unfold solid. rewrite forallb_forall. intros Hsolid.
    specialize (Hsolid a Ha). destruct a as [|[c|] a]; try done.
    by eapply match_alt_solid.
  - rewrite Forall_forall. intros Hall.
    destruct (Hall a) as [w Hw]; [by apply list_elem_of_In|].
    apply list_elem_of_omap. exists a. split; [by apply list_elem_of_In|].
    by rewrite (match_alt_spelled _ _ _ _ _ Hw Hm).
Qed.

Lemma catalog_matches_sound patterns s m :
  m ∈ catalog_matches patterns s ->
  exists p, In p patterns /\ In m (Re.findall p s).
Proof.
  unfold catalog_matches. intros Hm%list_elem_of_In.
  apply in_flat_map in Hm as (p & Hp & Hm). eauto.
Qed.

End Matching.

Lemma list_set_NoDup `{SetOrder} l : NoDup (list_set l).
Proof. unfold list_set. rewrite set_order_perm. apply NoDup_remove_dups. Qed.

Lemma elem_of_list_set `{SetOrder} l x : x ∈ list_set l <-> x ∈ l.
Proof. unfold list_set. by rewrite set_order_perm, elem_of_remove_dups. Qed.

Lemma catalog_member `{SetOrder} patterns s m :
  forallb solid patterns = true ->
  m ∈ list_set (catalog_matches patterns s) ->
  m <> "" /\ Py.contains m s = true.
Proof.
  intros Hsolid Hm. apply (proj1 (elem_of_list_set _ _)) in Hm.
  apply catalog_matches_sound in Hm as (p & Hp & Hm).
  apply findall_sound in Hm as (Hc & Hne & _). split; [|done].
  apply Hne. rewrite forallb_forall in Hsolid. by apply Hsolid.
Qed.

(** X13. The constraints of a text are lists without repetition.  A positive
    constraint is a non-empty phrase that occurs in the lowercased text; a
    negative one occurs in the lowercased text or is one of the words that
    the dinner, budget and vegetarian rules imply.  In particular no
    constraint is the empty string, which every text would contain. *)
Theorem constraints_come_from_text `{SetOrder} (text : string) :
  let cs := extract_constraints text in
  let implied :=
    ["breakfast"; "lunch"; "morning"; "afternoon"; "luxury"; "premium";
     "expensive"; "high-end"; "meat"; "beef"; "pork"; "chicken"; "fish"] in
  NoDup (positive cs)
  /\ NoDup (negative cs)
  /\ Forall (fun c => c <> "" /\ Py.contains c (Py.lower text) = true)
            (positive cs)
  /\ Forall (fun c => c <> ""
                      /\ (Py.contains c (Py.lower text) = true \/ c ∈ implied))
            (negative cs).
Proof.
  intros cs implied. split; [apply list_set_NoDup|].
  split; [apply list_set_NoDup|]. split.
  - apply Forall_forall. intros c Hc. exact (catalog_member positive_patterns _ _ eq_refl Hc).
  - apply Forall_forall. intros c Hc. apply (proj1 (elem_of_list_set _ _)) in Hc.
    assert (Hcases : c ∈ catalog_matches negative_patterns (Py.lower text)
                     \/ c ∈ implied).
    { revert Hc. unfold negative_constraints_raw.
      generalize (catalog_matches negative_patterns (Py.lower text)) as found.
      intros found.
      destruct (_ || _), (_ || _), (_ || _); rewrite ?elem_of_app;
        unfold implied; rewrite ?elem_of_cons; tauto. }
    destruct Hcases as [Hfound|Himplied].
    + apply (proj2 (elem_of_list_set _ _)) in Hfound.
      destruct (catalog_member negative_patterns _ _ eq_refl Hfound). auto.
    + split; [|by right]. intros ->.
      apply list_elem_of_In in Himplied. simpl in Himplied.
      intuition discriminate.
Qed.

(** X14. The semantic roles of a text are lists without repetition of phrases
    that occur in the lowercased text; the actions and the objects are
    words of their catalogs. *)
Theorem semantic_roles_come_from_text `{SetOrder} (text : string) :
  let roles := extract_semantic_roles text in
  let found := fun w => w <> "" /\ Py.contains w (Py.lower text) = true in
  (NoDup (actions roles) /\ NoDup (objects roles) /\ NoDup (modifiers roles))
  /\ Forall found (actions roles)
  /\ Forall found (objects roles)
  /\ Forall found (modifiers roles)
  /\ Forall (fun w => w ∈ vocabulary action_patterns) (actions roles)
  /\ Forall (fun w => w ∈ vocabulary object_patterns) (objects roles).
Proof.
  intros roles found.
  assert (Hvoc : forall patterns w,
            Forall (Forall (fun a => is_Some (spelled a))) patterns ->
            w ∈ list_set (catalog_matches patterns (Py.lower text)) ->
            w ∈ vocabulary patterns).
  { intros patterns w Hall Hw. apply (proj1 (elem_of_list_set _ _)) in Hw.
    apply catalog_matches_sound in Hw as (p & Hp & Hw).
    apply findall_sound in Hw as (_ & _ & Hword).
    rewrite Forall_forall in Hall. apply list_elem_of_In in Hp.
    specialize (Hword (Hall p Hp)).
    apply list_elem_of_omap in Hword as (a & Ha & Hspell).
    apply list_elem_of_omap. exists a. split; [|done].
    apply list_elem_of_In, in_concat. exists p. split; by apply list_elem_of_In. }
  split; [by repeat split; apply list_set_NoDup|].
  repeat split; apply Forall_forall; intros w Hw.
  - exact (catalog_member action_patterns _ _ eq_refl Hw).
  - exact (catalog_member object_patterns _ _ eq_refl Hw).
  - exact (catalog_member modifier_patterns _ _ eq_refl Hw).
  - apply Hvoc; [|done]. vm_compute. repeat constructor; by eexists.
  - apply Hvoc; [|done]. vm_compute. repeat constructor; by eexists.
Qed.

(** ** Constraints and context of one request *)

(** X15. The context of an analysed request agrees with its positive
    constraints: a constraint word of the group, age, urgency or depth
    family sets the corresponding context field, whatever else the request
    says. *)
Theorem positive_constraints_set_context `{Nltk} `{SetOrder}
  (persona job c : string) :
  let q := analyze_query_structure persona job in
  c ∈ positive (constraints q) ->
  (c ∈ ["corporate"; "business"; "team"; "group"] ->
   group_size (context q) = Some Large)
  /\ (c ∈ ["student"; "youth"; "college"; "young"] ->
      age_group (context q) = Some Young)
  /\ (c ∈ ["urgent"; "asap"; "immediate"; "quickly"] ->
      urgency (context q) = UrgencyHigh)
  /\ (c ∈ ["comprehensive"; "detailed"; "thorough"; "complete"] ->
      complexity (context q) = ComplexityHigh).
Proof.
  intros q Hc.
  destruct (catalog_member positive_patterns _ _ eq_refl Hc) as [_ Hin].
  assert (Hany : forall ks, c ∈ ks ->
            Py.any_in ks (Py.lower (persona +:+ " " +:+ job)) = true).
  { intros ks Hks. apply existsb_exists. exists c.
    split; [by apply list_elem_of_In|done]. }
  unfold q, analyze_query_structure. cbn [context group_size age_group urgency complexity].
  repeat split; intros Hks; by rewrite (Hany _ Hks).
Qed.

(** X16. A request whose positive constraints name a vegetarian or vegan diet
    has every meat among its negative constraints, and one that asks for
    something affordable has the words of luxury there. *)
Theorem diet_and_budget_exclusions `{SetOrder} (text c w : string) :
  let cs := extract_constraints text in
  c ∈ positive cs ->
  (c ∈ ["vegetarian"; "vegan"] ->
   w ∈ ["meat"; "beef"; "pork"; "chicken"; "fish"] -> w ∈ negative cs)
  /\ (c = "affordable" ->
      w ∈ ["luxury"; "premium"; "expensive"; "high-end"] -> w ∈ negative cs).
Proof.
  intros cs Hc.
  destruct (catalog_member positive_patterns _ _ eq_refl Hc) as [_ Hin].
  unfold cs, extract_constraints. cbn [negative].
  split; intros Hks Hw; apply elem_of_list_set; unfold negative_constraints_raw;
    generalize (catalog_matches negative_patterns (Py.lower text)) as found;
    intros found.
  - assert (Hif : Py.contains "vegetarian" (Py.lower text)
                  || Py.contains "vegan" (Py.lower text) = true).
    { apply orb_true_iff.
      apply elem_of_cons in Hks as [->|Hks]; [by left|].
      apply elem_of_cons in Hks as [->|Hks]; [by right|].
      by apply elem_of_nil in Hks. }
    rewrite Hif. apply elem_of_app. by right.
  - subst c. rewrite Hin, orb_true_r.
    destruct (_ || _), (_ || _); rewrite ?elem_of_app; tauto.
Qed.

(** X17. The core entities of a text are listed without repetition; each is
    longer than two characters, and is a word that the tagger marked as a
    noun or a phrase of more than three characters that the chunker
    found.  When chunking fails only the nouns remain. *)
Theorem core_entities_well_formed `{Nltk} `{SetOrder} (text : string) :
  let tagged := pos_tag (word_tokenize (Py.lower text)) in
  NoDup (extract_core_entities text)
  /\ Forall (fun e =>
               (2 < String.length e)%nat
               /\ ((exists tag, (e, tag) ∈ tagged /\ String.prefix "NN" tag = true)
                   \/ (3 < String.length e)%nat
                      /\ exists subtrees leaves,
                           np_chunks tagged = Some subtrees
                           /\ leaves ∈ subtrees
                           /\ e = Py.join " " (map fst leaves)))
            (extract_core_entities text).
Proof.
  intros tagged. split; [apply list_set_NoDup|].
  apply Forall_forall. intros e He.
  apply (proj1 (elem_of_list_set _ _)) in He.
  apply elem_of_app in He as [He|He].
  - apply list_elem_of_fmap in He as ([word tag] & -> & He).
    apply list_elem_of_filter in He as [Hp He].
    apply Is_true_true_1, andb_true_iff in Hp as [Htag Hlen].
    apply Nat.ltb_lt in Hlen.
    split; [done|]. left. by exists tag.
  - fold tagged in He. destruct (np_chunks tagged) as [subtrees|] eqn:Hchunks;
      [|by apply elem_of_nil in He].
    apply list_elem_of_filter in He as [Hlen He].
    apply Is_true_true_1, Nat.ltb_lt in Hlen.
    apply list_elem_of_fmap in He as (leaves & -> & He).
    split; [lia|]. right. split; [done|]. by exists subtrees, leaves.
Qed.

(** ** Batch encoding *)

Lemma ceil_div_bounds (n b : nat) :
  (0 < b)%nat ->
  let m := ((n + b - 1) / b)%nat in
  (n <= m * b)%nat /\ forall k, (k < m)%nat -> (k * b < n)%nat.
Proof.
  intros Hb m.
  pose proof (Nat.div_mod_eq (n + b - 1) b) as Hdiv.
  pose proof (Nat.mod_upper_bound (n + b - 1) b ltac:(lia)) as Hmod.
  fold m in Hdiv. split; [nia|]. intros k Hk. nia.
Qed.

Lemma concat_slices {A} (xs : list A) (b m : nat) :
  concat (map (fun k => take b (drop (k * b) xs)) (seq 0 m)) = take (m * b) xs.
Proof.
  induction m as [|m IH]; [done|].
  rewrite seq_S, map_app, concat_app, IH. simpl.
  rewrite app_nil_r, take_take_drop. f_equal. lia.
Qed.

Lemma encode_batches_spec {V} (encode_batch : list string -> option (list V))
  texts batch_size starts embeddings :
  encode_batches encode_batch texts batch_size starts embeddings
  = match mapM (fun i => encode_batch (py_slice texts i batch_size)) starts with
    | Some vss => inr (embeddings ++ concat vss)
    | None => inl EncodeRaised
    end.
Proof.
  revert embeddings. induction starts as [|i starts IH]; intros embeddings.
  - simpl. by rewrite app_nil_r.
  - cbn [encode_batches mapM]. unfold mbind, option_bind at 1.
    destruct (encode_batch _) as [vs|]; [|done]. rewrite IH.
    unfold mbind, option_bind.
    destruct (mapM _ starts) as [vss|]; [|done].
    simpl. by rewrite app_assoc.
Qed.

Lemma batches_concat (texts : list string) (batch_size : Z) :
  (0 < batch_size)%Z ->
  exists bs, batches texts batch_size = inr bs /\ concat bs = texts.
Proof.
  intros Hpos. destruct batch_size as [|p|p]; try lia.
  unfold batches, py_range, py_slice. eexists. split; [reflexivity|].
  rewrite map_map. change (Z.to_nat (Z.pos p)) with (Pos.to_nat p).
  destruct (ceil_div_bounds (length texts) (Pos.to_nat p) ltac:(lia))
    as [Hup _].
  rewrite concat_slices. apply take_ge. lia.
Qed.

(** X18. With a positive batch size the batches are the texts cut into
    consecutive pieces: joined in order they give the texts again, none is
    empty, none is longer than the batch size, and there are
    [ceil(len(texts) / batch_size)] of them. *)
Theorem batches_partition_texts (texts : list string) (batch_size : Z) :
  (0 < batch_size)%Z ->
  exists bs,
    batches texts batch_size = inr bs
    /\ concat bs = texts
    /\ Forall (fun batch => (0 < length batch <= Z.to_nat batch_size)%nat) bs
    /\ (Z.of_nat (length bs)
        = (Z.of_nat (length texts) + batch_size - 1) / batch_size)%Z.
Proof.
  intros Hpos. destruct batch_size as [|p|p]; try lia.
  unfold batches, py_range, py_slice. eexists. split; [reflexivity|].
  rewrite map_map. change (Z.to_nat (Z.pos p)) with (Pos.to_nat p).
  set (b := Pos.to_nat p). assert (Hb : (0 < b)%nat) by (unfold b; lia).
  destruct (ceil_div_bounds (length texts) b Hb) as [Hup Hlow].
  split; [|split].
  - rewrite concat_slices. apply take_ge. lia.
  - apply Forall_forall. intros batch Hbatch.
    apply list_elem_of_fmap in Hbatch as (k & -> & Hk).
    apply elem_of_seq in Hk. specialize (Hlow k ltac:(lia)).
    rewrite length_take, length_drop. lia.
  - rewrite length_map, length_seq, Nat2Z.inj_div.
    f_equal; unfold b; lia.
Qed.

Lemma mapM_option_app {A B} (f : A -> option B) (l1 l2 : list A) :
  mapM f (l1 ++ l2)
  = match mapM f l1, mapM f l2 with
    | Some k1, Some k2 => Some (k1 ++ k2)
    | _, _ => None
    end.
Proof.
  induction l1 as [|x l1 IH].
  - simpl. by destruct (mapM f l2).
  - rewrite <- app_comm_cons. cbn [mapM]. rewrite IH.
    unfold mbind, option_bind.
    by destruct (f x), (mapM f l1), (mapM f l2).
Qed.

Lemma mapM_option_concat {A B} (f : A -> option B) (ls : list (list A)) :
  mapM f (concat ls)
  = match mapM (mapM f) ls with
    | Some kss => Some (concat kss)
    | None => None
    end.
Proof.
  induction ls as [|l ls IH]; [done|].
  cbn [concat mapM]. rewrite mapM_option_app, IH.
  unfold mbind, option_bind.
  by destruct (mapM f l), (mapM (mapM f) ls).
Qed.

Lemma mapM_option_map {A B C} (g : A -> B) (f : B -> option C) (l : list A) :
  mapM f (map g l) = mapM (fun x => f (g x)) l.
Proof.
  induction l as [|x l IH]; [done|]. cbn [map mapM]. by rewrite IH.
Qed.

(** X19. With a model that embeds the texts of a batch one by one, every
    positive batch size gives the same result: the vectors of the texts in
    their order, or the failure of the model when it fails on a text. *)
Theorem batch_size_is_immaterial {V} (encode_one : string -> option V)
  (texts : list string) (batch_size : Z) :
  (0 < batch_size)%Z ->
  batch_encode_texts (mapM encode_one) texts batch_size
  = match mapM encode_one texts with
    | Some vs => inr vs
    | None => inl EncodeRaised
    end.
Proof.
  intros Hpos.
  destruct (batches_concat texts batch_size Hpos) as (bs & Hbs & Hcat).
  unfold batch_encode_texts. unfold batches in Hbs.
  destruct (py_range _ _) as [e|starts]; [done|].
  injection Hbs as Hbs. rewrite encode_batches_spec.
  rewrite <- (mapM_option_map (fun i => py_slice texts i batch_size)
                (mapM encode_one)), Hbs.
  rewrite <- Hcat, mapM_option_concat.
  by destruct (mapM (mapM encode_one) bs).
Qed.

(** X20. A batch size of zero makes the call raise, also for an empty list of
    texts; a negative one returns the empty list without consulting the
    model, whatever the texts are. *)
Theorem batch_size_not_positive {V} (encode_batch : list string -> option (list V))
  (texts : list string) (batch_size : Z) :
  (batch_size <= 0)%Z ->
  batch_encode_texts encode_batch texts batch_size
  = if (batch_size =? 0)%Z then inl RangeStepZero else inr [].
Proof. intros Hle. by destruct batch_size; [| lia |]. Qed.

(** ** The challenge pipeline *)

Lemma bind_ok_inv {A B} (r : Py.result A) (k : A -> Py.result B) b :
  r ≫= k = Py.Ok b -> exists a, r = Py.Ok a /\ k a = Py.Ok b.
Proof. unfold_result. destruct r as [a|e]; [eauto|done]. Qed.

Lemma map_Some_inj {A} (l k : list A) : map Some l = map Some k -> l = k.
Proof.
  revert k. induction l as [|x l IH]; intros [|y k]; try done.
  simpl. intros [= -> Hrest]. f_equal. by apply IH.
Qed.

Lemma loaded_scorable s : loaded s -> scorable s.
Proof. intros (? & ? & ? & ?). by repeat split. Qed.

Lemma loaded_extractable s : loaded s -> extractable s.
Proof. intros (? & ? & ? & ?). by repeat split. Qed.

Lemma extract_sections_loaded doc secs :
  extract_sections doc = Py.Ok secs ->
  length secs = length (Py.get (doc_sections doc) [])
  /\ Forall (fun s => document s = filename doc /\ loaded s) secs.
Proof.
  unfold extract_sections. intros Hrun%mapM_result_inv.
  split; [symmetry; eapply Forall2_length; exact Hrun|].
  induction Hrun as [|raw s raws secs Hs _ IH]; constructor; [|done].
  destruct (filename doc); [|done].
  injection Hs as <-. unfold loaded. simpl. repeat split; by eexists.
Qed.

Lemma extract_sections_returns doc :
  is_Some (filename doc) -> exists secs, extract_sections doc = Py.Ok secs.
Proof.
  intros [f Hf]. unfold extract_sections. apply mapM_result_total.
  apply Forall_forall. intros raw _. rewrite Hf. by eexists.
Qed.

Lemma load_all docs per_document :
  mapM extract_sections docs = Py.Ok per_document ->
  length (concat per_document)
  = length (concat (map (fun doc => Py.get (doc_sections doc) []) docs))
  /\ Forall (fun s => loaded s
                      /\ exists doc, doc ∈ docs /\ document s = filename doc)
            (concat per_document).
Proof.
  intros Hrun%mapM_result_inv.
  induction Hrun as [|doc secs docs per Hdoc _ [IHlen IHall]]; [done|].
  apply extract_sections_loaded in Hdoc as [Hlen Hall]. simpl. split.
  - rewrite !length_app. congruence.
  - apply Forall_app. split.
    + eapply Forall_impl; [exact Hall|]. intros s [Hs ?]. split; [done|].
      exists doc. split; [by left|done].
    + eapply Forall_impl; [exact IHall|]. intros s [? (d & Hd & Hs)].
      split; [done|]. exists d. split; [by right|done].
Qed.

Section ChallengeProperties.
Context `{Embedder} `{Nltk} `{SetOrder}.

Lemma ranked_fields sections qe persona job (st : store) ranked (st' : store) :
  NoDup sections ->
  analyze_sections sections qe persona job st = Py.Ok (ranked, st') ->
  ranked ≡ₚ sections
  /\ forall k l,
       ranked !! k = Some l ->
       document (st' l) = document (st l)
       /\ page_number (st' l) = page_number (st l)
       /\ section_title (st' l) = section_title (st l)
       /\ text (st' l) = text (st l)
       /\ importance_rank (st' l) = Some (Z.of_nat k + 1)%Z.
Proof.
  unfold analyze_sections. intros Hnodup Hrun.
  apply rank_sections_spec in Hrun as (Hranked & _ & Hst').
  assert (Hperm : ranked ≡ₚ sections) by (by rewrite Hranked, sorted_desc_perm).
  split; [done|]. intros k l Hk.
  assert (Hrank : rank_after 0 ranked l = Some (Z.of_nat k + 1)%Z).
  { rewrite (rank_after_lookup ranked 0 k l); [done| |done].
    by rewrite Hperm. }
  rewrite (Hst' l), Hrank. simpl.
  destruct (decide (l ∈ sections)); done.
Qed.

Lemma fresh_store_lookup (secs : list SectionDict) (P : SectionDict -> Prop) l :
  Forall P secs -> l ∈ seq 0 (length secs) ->
  store_of_list secs l ∈ secs /\ P (store_of_list secs l).
Proof.
  intros Hall Hl%elem_of_seq.
  destruct (lookup_lt_is_Some_2 secs l ltac:(lia)) as [s Hs].
  rewrite (store_of_list_lookup _ _ _ Hs).
  split; [by eapply list_elem_of_lookup_2|].
  rewrite Forall_forall in Hall. by eapply Hall, list_elem_of_lookup_2.
Qed.

Lemma extracted_section_ok s d p t r :
  document s = Some d -> page_number s = Some p ->
  section_title s = Some t -> importance_rank s = Some r ->
  extracted_section s
  = Py.Ok {| out_document := d; out_page_number := p;
             out_section_title := t; out_importance_rank := r |}.
Proof. unfold extracted_section. by intros -> -> -> ->. Qed.

Lemma extracted_section_inv s e :
  extracted_section s = Py.Ok e ->
  document s = Some (out_document e)
  /\ importance_rank s = Some (out_importance_rank e).
Proof.
  unfold extracted_section. unfold_result.
  destruct (document s); simpl; [|done].
  destruct (page_number s); simpl; [|done].
  destruct (section_title s); simpl; [|done].
  destruct (importance_rank s); simpl; [|done].
  by intros [= <-].
Qed.

(** The report on fresh dicts that carry the keys of the loader. *)
Lemma report_returns docs persona_role task qe (secs : list SectionDict) :
  Forall loaded secs ->
  Forall (fun doc => is_Some (filename doc)) docs ->
  exists out,
    report docs persona_role task qe (seq 0 (length secs)) (store_of_list secs)
    = Py.Ok out.
Proof.
  intros Hloaded Hnames. unfold report.
  set (st := store_of_list secs). set (refs := seq 0 (length secs)).
  destruct (rank_sections_total (analyze_query_structure persona_role task)
              qe refs st) as (ranked & st' & Hrun).
  { apply alloc_scorable. eapply Forall_impl; [exact Hloaded|].
    apply loaded_scorable. }
  change (analyze_sections refs qe persona_role task st = Py.Ok (ranked, st'))
    in Hrun.
  destruct (ranked_fields _ _ _ _ _ _ _ (NoDup_seq 0 _) Hrun) as [Hperm Hfields].
  rewrite Hrun.
  assert (Hkeys : forall k l, ranked !! k = Some l ->
            loaded (st' l)
            /\ importance_rank (st' l) = Some (Z.of_nat k + 1)%Z).
  { intros k l Hk. destruct (Hfields k l Hk) as (Hd & Hp & Ht & Hx & Hr).
    split; [|done]. unfold loaded. rewrite Hd, Hp, Ht, Hx.
    apply (fresh_store_lookup secs loaded l Hloaded).
    rewrite <- Hperm. by eapply list_elem_of_lookup_2. }
  assert (Hsubs : exists subs,
            analyze_subsections ranked st' qe persona_role task = Py.Ok subs).
  { unfold analyze_subsections, intelligent_subsection_analysis.
    rewrite subsection_loop_spec.
    destruct (mapM_result_total
                (section_excerpt (analyze_query_structure persona_role task) qe)
                (take 5 (map st' ranked))) as [os Hos]; [|rewrite Hos; by eexists].
    apply Forall_take, Forall_fmap, Forall_forall. intros l Hl.
    apply list_elem_of_lookup_1 in Hl as [k Hk].
    apply section_excerpt_total, loaded_extractable, (Hkeys k l Hk). }
  destruct Hsubs as [subs Hsubs].
  cbn [mbind result_bind Py.bind]. rewrite Hsubs. cbn [mbind result_bind Py.bind].
  unfold challenge_output.
  destruct (mapM_result_total
              (fun doc => Py.getitem "filename" (filename doc)) docs)
    as [names Hdocs].
  { eapply Forall_impl; [exact Hnames|]. intros doc [f ->]. by eexists. }
  destruct (mapM_result_total (fun section => extracted_section (st' section))
              (take 10 ranked)) as [es Hes].
  { apply Forall_forall. intros l Hl.
    apply list_elem_of_lookup_1 in Hl as [k Hk].
    apply lookup_take_Some in Hk as [Hk _].
    destruct (Hkeys k l Hk) as (([d Hd] & [p Hp] & [t Ht] & _) & Hr).
    rewrite (extracted_section_ok _ _ _ _ _ Hd Hp Ht Hr). by eexists. }
  rewrite Hdocs, Hes. by eexists.
Qed.

Lemma report_output docs persona_role task qe (secs : list SectionDict) out :
  report docs persona_role task qe (seq 0 (length secs)) (store_of_list secs)
  = Py.Ok out ->
  map Some (input_documents out) = map filename docs
  /\ map out_importance_rank (extracted_sections out)
     = map (fun k => Z.of_nat k + 1)%Z (seq 0 (Nat.min 10 (length secs)))
  /\ Forall (fun e => exists s, s ∈ secs /\ document s = Some (out_document e))
            (extracted_sections out)
  /\ length (subsection_analysis out) <= Nat.min 5 (length secs)
  /\ Forall (fun x => exists s, s ∈ secs /\ document s = Some (ex_document x))
            (subsection_analysis out).
Proof.
  unfold report. set (st := store_of_list secs). set (refs := seq 0 (length secs)).
  intros ([ranked st'] & Hrun & Hrest)%bind_ok_inv.
  apply bind_ok_inv in Hrest as (subs & Hsubs & Hout).
  unfold challenge_output in Hout.
  apply bind_ok_inv in Hout as (names & Hnames & Hout).
  apply bind_ok_inv in Hout as (es & Hes & [= <-]).
  cbn [input_documents extracted_sections subsection_analysis].
  destruct (ranked_fields _ _ _ _ _ _ _ (NoDup_seq 0 _) Hrun) as [Hperm Hfields].
  assert (Hlen : length ranked = length secs).
  { by rewrite Hperm, length_seq. }
  assert (Hsec : forall l, l ∈ ranked ->
            exists s, s ∈ secs /\ document s = document (st' l)).
  { intros l Hl. apply list_elem_of_lookup_1 in Hl as [k Hk].
    destruct (Hfields k l Hk) as (Hd & _).
    exists (st l). split; [|done].
    apply (fresh_store_lookup secs (fun _ => True) l); [by apply Forall_true|].
    rewrite <- Hperm. by eapply list_elem_of_lookup_2. }
  apply mapM_result_inv in Hnames, Hes.
  split; [|split; [|split; [|split]]].
  - clear -Hnames. induction Hnames as [|doc f docs names Hf _ IH]; [done|].
    simpl. rewrite IH. f_equal. by destruct (filename doc) as [g|]; [injection Hf as <-|].
  - apply map_Some_inj. rewrite !map_map.
    transitivity (map (fun l => importance_rank (st' l)) (take 10 ranked)).
    { clear -Hes. induction Hes as [|l e ls es He _ IH]; [done|].
      simpl. rewrite IH. f_equal.
      by destruct (extracted_section_inv _ _ He) as [_ ->]. }
    rewrite (ranks_by_position (fun l => importance_rank (st' l)) _ 0).
    + by rewrite length_take, Hlen, Nat.min_comm.
    + intros k l [Hk _]%lookup_take_Some. by apply Hfields.
  - apply Forall_forall. intros e He.
    apply list_elem_of_lookup_1 in He as [k Hk].
    destruct (Forall2_lookup_r _ _ _ _ _ Hes Hk) as (l & Hl & Hle).
    apply extracted_section_inv in Hle as [Hd _].
    apply lookup_take_Some in Hl as [Hl _].
    destruct (Hsec l) as (s & Hs & Hds); [by eapply list_elem_of_lookup_2|].
    exists s. split; [done|]. by rewrite Hds.
  - unfold analyze_subsections, intelligent_subsection_analysis in Hsubs.
    rewrite subsection_loop_spec in Hsubs.
    apply bind_ok_inv in Hsubs as (os & Hos & [= <-]). cbn [app].
    apply picked_sections in Hos as (picked & Hsub & Hall).
    rewrite <- (Forall2_length _ _ _ Hall).
    apply sublist_length in Hsub.
    rewrite length_take, length_map, Hlen in Hsub. lia.
  - unfold analyze_subsections, intelligent_subsection_analysis in Hsubs.
    rewrite subsection_loop_spec in Hsubs.
    apply bind_ok_inv in Hsubs as (os & Hos & [= <-]). cbn [app].
    apply picked_sections in Hos as (picked & Hsub & Hall).
    apply Forall_forall. intros x Hx.
    apply list_elem_of_lookup_1 in Hx as [k Hk].
    destruct (Forall2_lookup_r _ _ _ _ _ Hall Hk) as (s' & Hs' & Hd & _).
    apply list_elem_of_lookup_2 in Hs'.
    apply (elem_of_sublist _ _ _ Hs') in Hsub.
    pose proof (elem_of_sublist _ _ _ Hsub (sublist_take _ _)) as Hin.
    clear Hsub. rename Hin into Hsub.
    apply list_elem_of_fmap in Hsub as (l & -> & Hl).
    destruct (Hsec l Hl) as (s & Hs & Hds).
    exists s. split; [done|]. by rewrite Hds.
Qed.

(** X21. The pipeline returns exactly when every document structure has a file
    name and the model embeds the request.  Sections that lack a heading,
    a text or a page number do not make it fail, nor does an empty list of
    documents. *)
Theorem process_challenge_returns_iff (docs : list DocStructure)
  (persona_role task : string) :
  (exists out, process_challenge docs persona_role task = inr out)
  <-> Forall (fun doc => is_Some (filename doc)) docs
      /\ is_Some (encode (persona_role +:+ " " +:+ task)).
Proof.
  unfold process_challenge. split.
  - intros [out Hout].
    destruct (mapM extract_sections docs) as [per|]; [|done].
    unfold alloc in Hout.
    destruct (encode _) as [qe|]; [|done]. split; [|by eexists].
    destruct (report _ _ _ _ _ _) as [o|] eqn:Hreport; [|done].
    unfold report in Hreport.
    apply bind_ok_inv in Hreport as ([ranked st'] & _ & Hrest).
    apply bind_ok_inv in Hrest as (subs & _ & Hrest).
    unfold challenge_output in Hrest.
    apply bind_ok_inv in Hrest as (names & Hnames%mapM_result_inv & _).
    clear -Hnames. induction Hnames as [|doc f docs names Hf _ IH]; constructor;
      [|done].
    destruct (filename doc); [by eexists|done].
  - intros [Hnames [qe Hqe]].
    destruct (mapM_result_total extract_sections docs) as [per Hper].
    { eapply Forall_impl; [exact Hnames|]. apply extract_sections_returns. }
    rewrite Hper, Hqe. unfold alloc.
    destruct (load_all _ _ Hper) as [_ Hall].
    destruct (report_returns docs persona_role task qe (concat per))
      as [out Hout]; [|done|].
    { eapply Forall_impl; [exact Hall|]. by intros s [? _]. }
    rewrite Hout. by eexists.
Qed.

(** X22. What a run of the pipeline reports: the file names of the documents in
    their order; one entry for each of the ten best sections, or for all
    of them when there are fewer, with the ranks 1, 2, 3, ... in this
    order; at most five excerpts; and every entry and every excerpt under
    the name of one of the documents. *)
Theorem process_challenge_output (docs : list DocStructure)
  (persona_role task : string) (out : ChallengeOutput) :
  process_challenge docs persona_role task = inr out ->
  let n := length (concat (map (fun doc => Py.get (doc_sections doc) []) docs)) in
  map Some (input_documents out) = map filename docs
  /\ out_persona out = persona_role
  /\ out_job_to_be_done out = task
  /\ map out_importance_rank (extracted_sections out)
     = map (fun k => Z.of_nat k + 1)%Z (seq 0 (Nat.min 10 n))
  /\ Forall (fun e => out_document e ∈ input_documents out)
            (extracted_sections out)
  /\ length (subsection_analysis out) <= Nat.min 5 n
  /\ Forall (fun x => ex_document x ∈ input_documents out)
            (subsection_analysis out).
Proof.
  intros Hout n. unfold process_challenge in Hout.
  destruct (mapM extract_sections docs) as [per|] eqn:Hper; [|done].
  unfold alloc in Hout. destruct (encode _) as [qe|]; [|done].
  destruct (report _ _ _ _ _ _) as [o|] eqn:Hreport; [|done].
  injection Hout as ->.
  destruct (load_all _ _ Hper) as [Hlen Hall].
  destruct (report_output _ _ _ _ _ _ Hreport)
    as (Hnames & Hranks & Hdocs & Hsubs & Hsubdocs).
  assert (Hfrom : forall d s, s ∈ concat per -> document s = Some d ->
            d ∈ input_documents out).
  { intros d s Hs Hd. rewrite Forall_forall in Hall.
    destruct (Hall s Hs) as [_ (doc & Hdoc & Hname)].
    rewrite Hd in Hname.
    assert (Hin : Some d ∈ map Some (input_documents out)).
    { rewrite Hnames, Hname. by apply list_elem_of_fmap_2. }
    apply list_elem_of_fmap in Hin as (d' & [= ->] & Hin). done. }
  assert (Hpers : out_persona out = persona_role
                  /\ out_job_to_be_done out = task).
  { unfold report in Hreport.
    apply bind_ok_inv in Hreport as ([ranked st'] & _ & Hrest).
    apply bind_ok_inv in Hrest as (subs & _ & Hrest).
    unfold challenge_output in Hrest.
    apply bind_ok_inv in Hrest as (names & _ & Hrest).
    by apply bind_ok_inv in Hrest as (es & _ & [= <-]). }
  destruct Hpers as [Hp Hj]. unfold n. rewrite <- Hlen.
  repeat split; try done.
  - eapply Forall_impl; [exact Hdocs|]. intros e (s & Hs & Hd). by eapply Hfrom.
  - eapply Forall_impl; [exact Hsubdocs|]. intros x (s & Hs & Hd).
    by eapply Hfrom.
Qed.

End ChallengeProperties.

(** ** The embedding cache *)

Section EmbeddingCacheProperties.
Context `{Embedder}.
Variable md5 : string -> string.

Lemma lru_lookup_elem text entries v :
  lru_lookup text entries = Some v -> (text, v) ∈ entries.
Proof.
  unfold lru_lookup. destruct (List.find _ _) as [[t w]|] eqn:Hfind; [|done].
  simpl. intros [= ->]. apply find_some in Hfind as [Hin Heq].
  apply String.eqb_eq in Heq. simpl in Heq. subst t.
  by apply list_elem_of_In.
Qed.

Lemma get_cached_embedding_sound seen text s r s' :
  text ∈ seen ->
  cache_sound md5 seen s ->
  get_cached_embedding md5 text s = (r, s') ->
  cache_sound md5 seen s'
  /\ match r with
     | Some v => embedding_cache s' (md5 text) = Some v
     | None => encode text = None /\ embedding_cache s' (md5 text) = None
     end
  /\ (forall h v, embedding_cache s h = Some v -> embedding_cache s' h = Some v).
Proof.
  intros Hseen [Hlru Hdict]. unfold get_cached_embedding.
  destruct (lru_lookup text (lru s)) as [v|] eqn:Hhit.
  - intros [= <- <-]. apply lru_lookup_elem in Hhit.
    split; [split|split]; simpl; [|done|by apply Hlru|done].
    intros t w [[= -> ->]|Hin]%elem_of_cons; [by apply Hlru|].
    apply list_elem_of_In, filter_In in Hin as [Hin _].
    by apply Hlru, list_elem_of_In.
  - destruct (embedding_cache s (md5 text)) as [v|] eqn:Hdictv.
    + intros [= <- <-]. split; [split|split]; simpl; [|done|done|done].
      intros t w [[= -> ->]|Hin]%elem_of_cons; [done|].
      apply Hlru. by eapply elem_of_sublist; [exact Hin|apply sublist_take].
    + destruct (encode text) as [v|] eqn:Henc.
      * intros [= <- <-]. split; [split|split]; simpl.
        -- intros t w [[= -> ->]|Hin]%elem_of_cons;
             [by rewrite fn_lookup_insert|].
           assert (Hold : embedding_cache s (md5 t) = Some w).
           { apply Hlru. by eapply elem_of_sublist; [exact Hin|apply sublist_take]. }
           destruct (decide (md5 text = md5 t)) as [Heq|Hne];
             [by rewrite <- Heq, Hdictv in Hold|].
           by rewrite fn_lookup_insert_ne.
        -- intros h w. destruct (decide (md5 text = h)) as [<-|Hne].
           ++ rewrite fn_lookup_insert. intros [= <-]. by exists text.
           ++ rewrite fn_lookup_insert_ne by done. apply Hdict.
        -- by rewrite fn_lookup_insert.
        -- intros h w Hold. destruct (decide (md5 text = h)) as [<-|Hne];
             [by rewrite Hdictv in Hold|].
           by rewrite fn_lookup_insert_ne.
      * intros [= <- <-]. by repeat split.
Qed.

Lemma cache_sound_empty seen : cache_sound md5 seen empty_cache.
Proof. split; [by intros t v Hin%elem_of_nil|done]. Qed.

Lemma cached_embeddings_sound seen texts s rs s' :
  (forall t, t ∈ texts -> t ∈ seen) ->
  cache_sound md5 seen s ->
  cached_embeddings md5 texts s = (rs, s') ->
  cache_sound md5 seen s'
  /\ Forall2 (fun text r =>
                match r with
                | Some v =>
                    exists t, t ∈ seen /\ md5 t = md5 text /\ encode t = Some v
                | None => encode text = None
                end) texts rs.
Proof.
  revert s rs. induction texts as [|text rest IH]; intros s rs Hsub Hs; simpl.
  - intros [= <- <-]. split; [done|constructor].
  - destruct (get_cached_embedding md5 text s) as [r s1] eqn:Hcall.
    destruct (cached_embeddings md5 rest s1) as [rs' s2] eqn:Hrest.
    intros [= <- <-].
    destruct (get_cached_embedding_sound seen _ _ _ _ (Hsub _ ltac:(by left))
                Hs Hcall) as (Hs1 & Hr & _).
    destruct (IH _ _ ltac:(intros t Ht; by apply Hsub; right) Hs1 Hrest)
      as [Hs2 Hall].
    split; [done|]. constructor; [|done].
    destruct r as [v|]; [|by destruct Hr].
    by apply (proj2 Hs1).
Qed.

(** X23. In a sequence of calls that starts with empty caches, a call on a
    text returns the embedding of one of the texts with the same hash, and
    fails only when the model fails on the text itself.  The embedding may
    be that of another text when two of the texts share a hash. *)
Theorem cached_embedding_up_to_hash (texts : list string) :
  Forall2 (fun text r =>
             match r with
             | Some v =>
                 exists t, t ∈ texts /\ md5 t = md5 text /\ encode t = Some v
             | None => encode text = None
             end)
          texts (cached_embeddings md5 texts empty_cache).1.
Proof.
  destruct (cached_embeddings md5 texts empty_cache) as [rs s'] eqn:Hrun.
  by destruct (cached_embeddings_sound texts _ _ _ _ ltac:(done)
                 (cache_sound_empty _) Hrun).
Qed.

Lemma transparent_calls (seen called : list string) rs :
  (forall t1 t2, t1 ∈ seen -> t2 ∈ seen -> md5 t1 = md5 t2 -> t1 = t2) ->
  (forall t, t ∈ called -> t ∈ seen) ->
  Forall2 (fun text r =>
             match r with
             | Some v =>
                 exists t, t ∈ seen /\ md5 t = md5 text /\ encode t = Some v
             | None => encode text = None
             end) called rs ->
  rs = map encode called.
Proof.
  intros Hinj Hsub Hall.
  induction Hall as [|text r rest rs Hr _ IH]; [done|].
  simpl. rewrite IH; [|intros t Ht; apply Hsub; by right].
  f_equal. destruct r as [v|]; [|done].
  destruct Hr as (t & Hin & Ht & Hv).
  assert (Htext : text ∈ seen) by (apply Hsub; by left).
  by rewrite <- (Hinj t text Hin Htext Ht).
Qed.

(** X24. When no two of the texts share a hash the cache is transparent: every
    call returns what the model returns for the text. *)
Theorem cached_embedding_transparent (texts : list string) :
  (forall t1 t2, t1 ∈ texts -> t2 ∈ texts -> md5 t1 = md5 t2 -> t1 = t2) ->
  (cached_embeddings md5 texts empty_cache).1 = map encode texts.
Proof.
  intros Hinj.
  destruct (cached_embeddings md5 texts empty_cache) as [rs s'] eqn:Hrun.
  destruct (cached_embeddings_sound texts _ _ _ _ ltac:(done)
              (cache_sound_empty _) Hrun) as [_ Hall].
  by apply (transparent_calls texts).
Qed.

End EmbeddingCacheProperties.

(** * The properties on concrete inputs *)

Import Demo.

(** The request of the example scenario, analysed. *)
Example query_of_the_scenario :
  core_entities query = ["dinner"; "menu"]
  /\ positive (constraints query) = ["vegetarian"; "gluten-free"; "corporate"]
  /\ negative (constraints query)
     = ["breakfast"; "lunch"; "morning"; "afternoon";
        "meat"; "beef"; "pork"; "chicken"; "fish"]
  /\ group_size (context query) = Some Large.
Proof. vm_compute. done. Qed.

(** The ranking of the four example sections: the two equal toasts keep
    their input order. *)
Example ranking_of_the_scenario :
  match analyze_sections refs query_embedding persona job st with
  | Py.Ok (ranked, st') =>
      ranked = [3; 1; 0; 2]
      /\ map (fun l => importance_rank (st' l)) [0; 1; 2; 3]
         = [Some 3%Z; Some 2%Z; Some 4%Z; Some 1%Z]
      /\ similarity_score (st' 0) = similarity_score (st' 2)
  | Py.Raise _ => False
  end.
Proof. vm_compute. done. Qed.

(** C1 refuted as stated: the score that [calculate_multi_factor_score]
    returns for the salad section is the one under the weights
    [0.4, 0.3, 0.2, 0.1]; under the weights that
    [calculate_dynamic_weights] derives for the query, which are about
    [0.2, 0.5, 0.15, 0.15], the same components give another number. *)
Lemma scorer_ignores_dynamic_weights :
  calculate_multi_factor_score salad query query_embedding
  <> score_with_dynamic_weights salad query query_embedding
  /\ calculate_multi_factor_score salad query query_embedding
     = Py.Ok 1.7720256547244948%float
  /\ score_with_dynamic_weights salad query query_embedding
     = Py.Ok 1.8410128273622475%float
  /\ calculate_dynamic_weights query
     = (0.20000000000000004, 0.5, 0.15000000000000002,
        0.15000000000000002)%float.
Proof. split; [vm_compute; discriminate|vm_compute; done]. Qed.

Lemma scorer_uses_fixed_weights_witness :
  calculate_multi_factor_score salad (with_urgency query UrgencyHigh)
    query_embedding
  = Py.Ok 1.7720256547244948%float
  /\ calculate_dynamic_weights (with_urgency query UrgencyHigh)
     <> calculate_dynamic_weights query.
Proof.
  split.
  - rewrite (proj2 (@scorer_uses_fixed_weights embedder salad query
                      query_embedding "Green Salad" _
                      "Dinner Ideas - Sides_2.pdf" eq_refl eq_refl eq_refl)).
    vm_compute. reflexivity.
  - vm_compute. discriminate.
Defined.

(** C3 refuted as stated: on a dict without the [text] key, and on one
    without the [section_title] key, the scorer raises [KeyError], and the
    exception ends the ranking of a batch that contains such a dict. *)
Lemma scorer_raises_on_missing_field :
  (text no_text = None
   /\ ~ exists v,
         calculate_multi_factor_score no_text query query_embedding = Py.Ok v)
  /\ calculate_multi_factor_score no_text query query_embedding
     = Py.Raise (Py.KeyError "text")
  /\ calculate_multi_factor_score no_title query query_embedding
     = Py.Raise (Py.KeyError "section_title")
  /\ analyze_sections [0; 1] query_embedding persona job
       (store_of_list [toast; no_text])
     = Py.Raise (Py.KeyError "text").
Proof.
  split; [split; [done|]|vm_compute; done].
  intros [v Hv]. vm_compute in Hv. discriminate.
Qed.

Lemma missing_fields_defaulted_by_loader_witness :
  exists secs,
    extract_sections raw_doc = Py.Ok secs
    /\ map text secs = [Some "Menu of the day"; Some ""]
    /\ Forall (fun s => exists v,
                 calculate_multi_factor_score s query query_embedding = Py.Ok v)
              secs.
Proof.
  eexists. split; [reflexivity|]. split; [reflexivity|].
  destruct (@missing_fields_defaulted_by_loader embedder nltk insertion_order
              raw_doc _ query_embedding persona job eq_refl) as (Hall & _ & _).
  apply Forall_forall. intros s Hs.
  apply list_elem_of_lookup_1 in Hs as [i Hi].
  destruct (Forall2_lookup_r _ _ _ _ _ Hall Hi) as (raw & _ & _ & _ & Hs).
  exact Hs.
Defined.

(** C4 refuted as stated: one NaN score (the cosine of a zero embedding)
    makes the comparisons of the sort inconsistent.  Of seven distinct
    sections, five equal ones and one that scores higher, the second of
    the equal sections is ranked first and the first of them fourth, and
    the section with the highest score is ranked third.  Apart from that,
    a list that names one dict twice does not get the ranks 1, 2, 3. *)
Lemma ranking_breaks_on_nan_score :
  NoDup (alloc Cases.with_nan).1
  /\ Forall (fun l => scorable ((alloc Cases.with_nan).2 l))
            (alloc Cases.with_nan).1
  /\ match @analyze_sections Cases.flat_embedder nltk insertion_order
             (alloc Cases.with_nan).1 query_embedding persona job
             (alloc Cases.with_nan).2 with
     | Py.Ok (ranked, st') =>
         ranked = [1; 2; 6; 0; 3; 4; 5]
         /\ similarity_score (st' 0) = Some 0.88704690895873761%float
         /\ similarity_score (st' 1) = Some 0.88704690895873761%float
         /\ importance_rank (st' 0) = Some 4%Z
         /\ importance_rank (st' 1) = Some 1%Z
         /\ similarity_score (st' 6) = Some 1.7720256547244948%float
         /\ importance_rank (st' 6) = Some 3%Z
         /\ exists x,
              similarity_score (st' 2) = Some x /\ PrimFloat.is_nan x = true
     | Py.Raise _ => False
     end
  /\ match analyze_sections Cases.twice query_embedding persona job st with
     | Py.Ok (ranked, st') =>
         ranked = [1; 0; 0]
         /\ map (fun l => importance_rank (st' l)) ranked
            = [Some 1%Z; Some 3%Z; Some 3%Z]
     | Py.Raise _ => False
     end.
Proof.
  split; [apply NoDup_seq|]. split; [repeat constructor; by eexists|].
  split; vm_compute; repeat split; by eexists.
Qed.

Lemma analyze_sections_stable_ranking_witness :
  exists ranked st',
    analyze_sections refs query_embedding persona job st = Py.Ok (ranked, st')
    /\ ranked ≡ₚ refs
    /\ map (fun l => importance_rank (st' l)) ranked
       = [Some 1%Z; Some 2%Z; Some 3%Z; Some 4%Z].
Proof.
  destruct (@analyze_sections_stable_ranking embedder nltk insertion_order
              refs query_embedding persona job st)
    as (ranked & st' & Hrun & Hperm & _ & _ & Hranks & _).
  - apply NoDup_seq.
  - repeat constructor; by eexists.
  - exists ranked, st'. split; [exact Hrun|]. split; [exact Hperm|exact Hranks].
Defined.

Lemma embedding_failure_scores_zero_witness :
  semantic_score query_embedding "Table #3 of the menu" = 0.0%float
  /\ exists ranked st',
       analyze_sections mixed_refs query_embedding persona job mixed_st
       = Py.Ok (ranked, st')
       /\ similarity_score (st' 1) = Some 0.059999999999999998%float.
Proof.
  destruct (@embedding_failure_scores_zero embedder nltk insertion_order
              mixed_refs query_embedding persona job mixed_st 1
              "Notes" "Table #3 of the menu" "Notes.pdf")
    as (Hsem & _ & ranked & st' & Hrun & Hsim & _).
  - repeat constructor; by eexists.
  - by right; left.
  - reflexivity.
  - reflexivity.
  - reflexivity.
  - reflexivity.
  - split; [exact Hsem|]. exists ranked, st'. split; [exact Hrun|].
    rewrite Hsim. vm_compute. reflexivity.
Defined.

Lemma mains_priority_bonus_witness :
  document_priority_score query
    (Py.lower ("Vegetarian Lasagna" +:+ " " +:+
               "Layer the pasta. Serve the vegetarian lasagna on the buffet. Add beef if wanted"))
    (Py.lower "Dinner Ideas - Mains_1.pdf")
  = 3.0%float.
Proof.
  refine (proj1 (@mains_priority_bonus embedder lasagna query query_embedding
                   "Vegetarian Lasagna" _ "Dinner Ideas - Mains_1.pdf"
                   eq_refl eq_refl eq_refl _ _)).
  - vm_compute. reflexivity.
  - left. vm_compute. reflexivity.
Defined.

Lemma dinner_excludes_other_meals_witness :
  "lunch" ∈ negative (constraints (analyze_query_structure persona job)).
Proof.
  refine (proj2 (dinner_excludes_other_meals persona job "lunch" _ _)).
  - left. vm_compute. reflexivity.
  - by right; left.
Defined.

(** C7 refuted as stated: three sections in which three constraints occur
    six times give a constraint satisfaction of 2.0, while the fraction of
    the constraints that occur in some section is 1.0. *)
Lemma constraint_satisfaction_exceeds_one :
  match generate_performance_metrics menu_sections query with
  | Py.Ok m =>
      constraint_satisfaction m = 2.0%float
      /\ constraint_satisfaction m <> fraction_satisfied menu_sections query
      /\ (constraint_satisfaction m <=? 1.0)%float = false
  | Py.Raise _ => False
  end
  /\ fraction_satisfied menu_sections query = 1.0%float
  /\ length (positive (constraints query)) = 3.
Proof.
  vm_compute. split; [|done]. split; [done|]. split; [discriminate|done].
Qed.

Lemma constraint_satisfaction_counts_hits_witness :
  exists m,
    generate_performance_metrics menu_sections query = Py.Ok m
    /\ constraint_satisfaction m = (Py.float_of_nat 6 / Py.float_of_nat 3)%float.
Proof.
  destruct (constraint_satisfaction_counts_hits menu_sections query)
    as (m & Hrun & Hcs & _).
  - repeat constructor; by eexists.
  - vm_compute. lia.
  - exists m. split; [exact Hrun|exact Hcs].
Defined.

(** The excerpts of the four example sections: at most three sentences of
    each, the best first. *)
Example extraction_of_the_scenario :
  intelligent_subsection_analysis sections query_embedding persona job
  = Py.Ok
      [ {| ex_document := "Breakfast Ideas.pdf"; ex_page_number := 1;
           refined_text := "Toast the bread" |};
        {| ex_document := "Dinner Ideas - Sides_2.pdf"; ex_page_number := 1;
           refined_text := "A fresh side for the corporate menu.  Gluten-free" |};
        {| ex_document := "Breakfast Ideas.pdf"; ex_page_number := 1;
           refined_text := "Toast the bread" |};
        {| ex_document := "Dinner Ideas - Mains_1.pdf"; ex_page_number := 1;
           refined_text :=
             " Serve the vegetarian lasagna on the buffet. Layer the pasta" |} ].
Proof. vm_compute. reflexivity. Qed.

(** C5 refuted as stated: when the score of a sentence is NaN the first
    three of the sorted sentences need not be the three best.  Of four
    sentences, the third with a NaN score and the fourth with the highest
    score by far, the excerpt is made of the first two; the best sentence
    is not in it. *)
Lemma excerpt_misses_best_sentence :
  @sentence_scores Cases.flat_embedder nltk query query_embedding
    "Toast the bread. Serve it warm. *. A vegetarian dinner menu"
  = [ ("Toast the bread", 0.96761727239684381%float);
      (" Serve it warm", 0.96880270447756578%float);
      (" *", PrimFloat.nan);
      (" A vegetarian dinner menu", 4.4605642644145611%float) ]
  /\ @intelligent_subsection_analysis Cases.flat_embedder nltk insertion_order
       [Cases.with_nan_sentence] query_embedding persona job
     = Py.Ok [ {| ex_document := "Breakfast Ideas.pdf"; ex_page_number := 1;
                  refined_text := " Serve it warm. Toast the bread" |} ]
  /\ Py.contains " A vegetarian dinner menu" " Serve it warm. Toast the bread"
     = false.
Proof. vm_compute. done. Qed.

(** Two runs under set orders that list the entities differently. *)
Lemma analyze_sections_deterministic_witness :
  core_entities (@analyze_query_structure nltk insertion_order persona job)
  <> core_entities (@analyze_query_structure nltk reverse_order persona job)
  /\ @analyze_sections embedder nltk insertion_order refs query_embedding
       persona job st
     = @analyze_sections embedder nltk reverse_order refs query_embedding
         persona job st.
Proof.
  split.
  - vm_compute. discriminate.
  - exact (proj1 (@analyze_sections_deterministic embedder nltk
                    insertion_order reverse_order refs query_embedding
                    persona job st)).
Defined.

(** ** Further properties on concrete inputs *)

Import Cases.

Lemma analyze_sections_frame_witness :
  exists ranked st',
    analyze_sections refs query_embedding persona job st = Py.Ok (ranked, st')
    /\ text (st' 3) = text lasagna.
Proof.
  destruct (@analyze_sections embedder nltk insertion_order refs
              query_embedding persona job st)
    as [[ranked st']|e] eqn:Hrun.
  - exists ranked, st'. split; [reflexivity|].
    destruct (@analyze_sections_frame embedder nltk insertion_order refs
                  query_embedding persona job st ranked st' Hrun 3)
        as (_ & _ & _ & Htext & _).
    exact Htext.
  - vm_compute in Hrun. discriminate.
Defined.

Lemma rank_is_last_position_witness :
  exists ranked st' i,
    analyze_sections twice query_embedding persona job st = Py.Ok (ranked, st')
    /\ ranked !! i = Some 0
    /\ importance_rank (st' 0) = Some (Z.of_nat i + 1)%Z
    /\ forall j, ranked !! j = Some 0 -> j <= i.
Proof.
  destruct (@analyze_sections embedder nltk insertion_order twice
              query_embedding persona job st)
    as [[ranked st']|e] eqn:Hrun.
  - destruct (@rank_is_last_position embedder nltk insertion_order twice
                query_embedding persona job st ranked st' Hrun 0)
      as (i & Hi & Hrank & Hlast).
    { left. }
    exists ranked, st', i. split. reflexivity.
    split. exact Hi. split. exact Hrank. exact Hlast.
  - vm_compute in Hrun. discriminate.
Defined.

Lemma excerpts_follow_ranking_witness :
  exists out,
    intelligent_subsection_analysis sections query_embedding persona job
    = Py.Ok out
    /\ length out <= 4.
Proof.
  destruct (@intelligent_subsection_analysis embedder nltk insertion_order
              sections query_embedding persona job)
    as [out|e] eqn:Hrun.
  - exists out. split; [reflexivity|].
    exact (proj1 (@excerpts_follow_ranking embedder nltk insertion_order
                    sections query_embedding persona job out Hrun)).
  - vm_compute in Hrun. discriminate.
Defined.

Lemma positive_constraints_set_context_witness :
  "corporate" ∈ positive (constraints query)
  /\ group_size (context query) = Some Large.
Proof.
  assert (Hc : "corporate" ∈ positive (constraints query)).
  { vm_compute. by do 2 right; left. }
  split; [exact Hc|].
  apply (proj1 (@positive_constraints_set_context nltk insertion_order
                  persona job "corporate" Hc)).
  by left.
Defined.

Lemma diet_and_budget_exclusions_witness :
  "beef" ∈ negative (extract_constraints (persona +:+ " " +:+ job)).
Proof.
  refine (proj1 (@diet_and_budget_exclusions insertion_order
                   (persona +:+ " " +:+ job) "vegetarian" "beef" _) _ _).
  - vm_compute. by left.
  - by left.
  - by right; left.
Defined.

Lemma batches_partition_texts_witness :
  exists bs,
    batches five_texts 2 = inr bs
    /\ concat bs = five_texts
    /\ length bs = 3.
Proof.
  destruct (batches_partition_texts five_texts 2)
    as (bs & Hbs & Hcat & _ & Hlen); [lia|].
  exists bs. split; [exact Hbs|]. split; [exact Hcat|].
  apply Nat2Z.inj. rewrite Hlen. reflexivity.
Defined.

Lemma batch_size_is_immaterial_witness :
  batch_encode_texts (mapM embed) five_texts 2
  = batch_encode_texts (mapM embed) five_texts 32.
Proof.
  rewrite (batch_size_is_immaterial embed five_texts 2) by lia.
  rewrite (batch_size_is_immaterial embed five_texts 32) by lia.
  reflexivity.
Defined.

Lemma batch_size_not_positive_witness :
  batch_encode_texts (mapM embed) five_texts (-2) = inr []
  /\ batch_encode_texts (mapM embed) [] 0 = inl RangeStepZero.
Proof.
  split.
  - apply (batch_size_not_positive (mapM embed) five_texts (-2)). lia.
  - apply (batch_size_not_positive (mapM embed) [] 0). lia.
Defined.

Lemma process_challenge_output_witness :
  exists out,
    process_challenge documents persona job = inr out
    /\ map Some (input_documents out)
       = [Some "Dinner Ideas - Mains_1.pdf"; Some "Dinner Ideas - Sides_2.pdf"]
    /\ map out_importance_rank (extracted_sections out) = [1; 2; 3]%Z.
Proof.
  destruct (@process_challenge embedder nltk insertion_order documents
              persona job) as [e|out] eqn:Hrun.
  - vm_compute in Hrun. discriminate.
  - exists out. split; [reflexivity|].
    destruct (@process_challenge_output embedder nltk insertion_order
                documents persona job out Hrun) as (Hnames & _ & _ & Hranks & _).
    split; [exact Hnames|exact Hranks].
Defined.

Lemma cached_embedding_transparent_witness :
  (cached_embeddings own_hash ["menu"; "#"; "menu"] empty_cache).1
  = [embed "menu"; None; embed "menu"].
Proof.
  apply (@cached_embedding_transparent embedder own_hash ["menu"; "#"; "menu"]).
  intros t1 t2 _ _ Hhash. exact Hhash.
Defined.

(** Under a hash that tells no texts apart, the second text gets the
    embedding of the first. *)
Example cached_embedding_collision :
  (cached_embeddings same_hash ["menu"; "dinner menu"] empty_cache).1
  = [embed "menu"; embed "menu"]
  /\ embed "dinner menu" <> embed "menu".
Proof. split; [vm_compute; reflexivity|vm_compute; discriminate]. Qed.
